(** * Invoice numbering and lifecycle of backend/server.py

    A shallow embedding of the invoice routes of [backend/server.py]
    (FastAPI handlers over a MongoDB document store) and of the settings
    and dashboard routes they share state with.

    Modelling decisions, all taken from the source:
    - a collection is the list of its documents in insertion order;
      [find_one], [update_one] and [delete_one] act on the first document
      that matches the filter, [find(...).to_list(n)] keeps the first [n];
    - an invoice document has exactly the fields [Invoice.model_dump()]
      writes, so it is a record; a settings document is written by
      [$set] from a caller-supplied [dict], so it is a finite map from
      field names to values;
    - every [await db....] is one round trip to the store and may fail;
      what the handler wrote before the failure stays written;
    - [uuid.uuid4()] and [datetime.now()] are inputs of the handlers;
      [isoformat]/[fromisoformat] round-trip, so [created_at] is kept as
      the time value itself;
    - the auth routes, the e-mail route, and the routes that create,
      change or delete clients, services and expenses are not part of the
      model. *)

From Stdlib Require Import ZArith String Ascii List Lia DecimalString DecimalN.
From Stdlib Require PrimFloat Uint63.
From stdpp Require Import base option list gmap strings.

Local Open Scope string_scope.
Local Open Scope Z_scope.
Local Open Scope list_scope.

Abbreviation float := PrimFloat.float.

(** [datetime]: microseconds since the epoch, UTC. *)
Definition datetime : Type := Z.

(** ** Values and documents *)

(** What a settings field holds: [None], a [bool], an [int] or a [str].
    Numbers with a fraction, lists and nested objects are left out; field
    names are plain ones, with no dot and no [$]. *)
Inductive value : Type :=
| VNull
| VBool (b : bool)
| VInt (z : Z)
| VStr (s : string).

Global Instance value_eq_dec : EqDecision value.
Proof. solve_decision. Defined.

Abbreviation document := (gmap string value).

(** ** Pydantic models *)

Module InvoiceItem.
Record t : Type := mk {
    description : string;
    quantity : float;
    rate : float;
    amount : float
}.
End InvoiceItem.

Module InvoiceCreate.
Record t : Type := mk {
    client_id : string;
    invoice_date : string;
    due_date : string;
    items : list InvoiceItem.t;
    subtotal : float;
    cgst : float;
    sgst : float;
    igst : float;
    total : float;
    status : string;
    invoice_type : string;
    is_recurring : bool;
    notes : option string
}.
End InvoiceCreate.

Module Invoice.
Record t : Type := mk {
    id : string;
    invoice_number : string;
    client_id : string;
    invoice_date : string;
    due_date : string;
    items : list InvoiceItem.t;
    subtotal : float;
    cgst : float;
    sgst : float;
    igst : float;
    total : float;
    status : string;
    invoice_type : string;
    is_recurring : bool;
    notes : option string;
    created_at : datetime;
    user_id : string
}.
End Invoice.

Module Client.
Record t : Type := mk {
    id : string;
    name : string;
    business_name : option string;
    email : option string;
    phone : option string;
    gstin : option string;
    country : option string;
    address : option string;
    business_address : option string;
    created_at : datetime;
    user_id : string
}.
End Client.

Module Service.
Record t : Type := mk {
    id : string;
    name : string;
    description : option string;
    price : float;
    gst_type : string;
    gst_percentage : float;
    created_at : datetime;
    user_id : string
}.
End Service.

Module Expense.
Record t : Type := mk {
    id : string;
    date : string;
    description : string;
    amount : float;
    category : string;
    created_at : datetime;
    user_id : string
}.
End Expense.

(** [Settings(user_id=...).model_dump()]: the default settings document. *)
Definition Settings (id user_id : string) : document :=
  list_to_map
    [ ("id", VStr id);
      ("user_id", VStr user_id);
      ("invoice_prefix", VStr "INV");
      ("invoice_counter", VInt 1);
      ("company_name", VStr "IMAGICITY");
      ("company_gstin", VStr "20JVPPK2424H1ZM");
      ("company_address",
        VStr "Kolghatti, Near Black Water tank, reformatory school, hazaribagh, Jharkhand, 825301");
      ("bank_name", VStr "Federal Bank");
      ("account_number", VStr "25060200000912");
      ("ifsc_code", VStr "FDRL0002506");
      ("upi_id", VStr "biz.imagicit587@fbl") ].

(** The [Invoice] built from the dumped payload, the formatted number and
    the caller: [id] and [created_at] come from the default factories. *)
Definition Invoice_of (id : string) (created_at : datetime)
    (invoice_data : InvoiceCreate.t) (invoice_number user_id : string) : Invoice.t :=
  {| Invoice.id := id;
     Invoice.invoice_number := invoice_number;
     Invoice.client_id := InvoiceCreate.client_id invoice_data;
     Invoice.invoice_date := InvoiceCreate.invoice_date invoice_data;
     Invoice.due_date := InvoiceCreate.due_date invoice_data;
     Invoice.items := InvoiceCreate.items invoice_data;
     Invoice.subtotal := InvoiceCreate.subtotal invoice_data;
     Invoice.cgst := InvoiceCreate.cgst invoice_data;
     Invoice.sgst := InvoiceCreate.sgst invoice_data;
     Invoice.igst := InvoiceCreate.igst invoice_data;
     Invoice.total := InvoiceCreate.total invoice_data;
     Invoice.status := InvoiceCreate.status invoice_data;
     Invoice.invoice_type := InvoiceCreate.invoice_type invoice_data;
     Invoice.is_recurring := InvoiceCreate.is_recurring invoice_data;
     Invoice.notes := InvoiceCreate.notes invoice_data;
     Invoice.created_at := created_at;
     Invoice.user_id := user_id |}.

(** ** The document store *)

Record DB : Type := mkDB {
  clients : list Client.t;
  services : list Service.t;
  invoices : list Invoice.t;
  expenses : list Expense.t;
  settings : list document
}.

(** A collection of the store: how to read it and how to write it back. *)
Record collection (A : Type) : Type := mkCollection {
  docs : DB → list A;
  with_docs : list A → DB → DB
}.
Arguments docs {A}.
Arguments with_docs {A}.

Definition db_clients : collection Client.t :=
  {| docs := clients;
     with_docs l db := mkDB l (services db) (invoices db) (expenses db) (settings db) |}.
Definition db_services : collection Service.t :=
  {| docs := services;
     with_docs l db := mkDB (clients db) l (invoices db) (expenses db) (settings db) |}.
Definition db_invoices : collection Invoice.t :=
  {| docs := invoices;
     with_docs l db := mkDB (clients db) (services db) l (expenses db) (settings db) |}.
Definition db_expenses : collection Expense.t :=
  {| docs := expenses;
     with_docs l db := mkDB (clients db) (services db) (invoices db) l (settings db) |}.
Definition db_settings : collection document :=
  {| docs := settings;
     with_docs l db := mkDB (clients db) (services db) (invoices db) (expenses db) l |}.

(** ** Errors and the request monad *)

Inductive error : Type :=
| HTTPException (status_code : Z) (detail : string)
| KeyError (key : string)
| TypeError
| AttributeError
| ValueError
| OverflowError
| WriteError
| DependencyFailure.

(** The spec's [NotFound]: the handler raised [HTTPException(404, ...)]. *)
Definition is_NotFound (e : error) : bool :=
  match e with
  | HTTPException 404 _ => true
  | _ => false
  end.

Inductive result (A : Type) : Type :=
| Ok (a : A)
| Raise (e : error).
Arguments Ok {A}.
Arguments Raise {A}.

Global Instance result_ret : MRet result := λ A a, Ok a.
Global Instance result_bind : MBind result := λ A B k r,
  match r with
  | Ok a => k a
  | Raise e => Raise e
  end.

(** A handler runs against the store. [fault = Some k] makes its [k]-th
    round trip (from 0) fail with [DependencyFailure]; [None] is a run
    with no I/O failure. The store a failed run leaves behind is kept. *)
Definition M (A : Type) : Type := option nat → DB → option nat * DB * result A.

Global Instance M_ret : MRet M := λ A a fault db, (fault, db, Ok a).
Global Instance M_bind : MBind M := λ A B k m fault db,
  match m fault db with
  | (fault', db', Ok a) => k a fault' db'
  | (fault', db', Raise e) => (fault', db', Raise e)
  end.

Global Instance M_fmap : FMap M := λ A B f m, a ← m; mret (f a).

Definition raise {A : Type} (e : error) : M A := λ fault db, (fault, db, Raise e).

Definition lift {A : Type} (r : result A) : M A := λ fault db, (fault, db, r).

(** One round trip: [await db.<collection>.<operation>(...)]. *)
Definition await {A : Type} (op : DB → DB * result A) : M A := λ fault db,
  match fault with
  | Some O => (None, db, Raise DependencyFailure)
  | Some (S k) => let '(db', r) := op db in (Some k, db', r)
  | None => let '(db', r) := op db in (None, db', r)
  end.

Definition run {A : Type} (m : M A) (fault : option nat) (db : DB) : DB * result A :=
  let '(_, db', r) := m fault db in (db', r).

(** ** Operations of a collection *)

(** The document [update_one] and [delete_one] act on is the first match;
    [replace_first] writes [d'] in its place. *)
Fixpoint replace_first {A : Type} (p : A → bool) (d' : A) (l : list A) : list A :=
  match l with
  | [] => []
  | x :: l' => if p x then d' :: l' else x :: replace_first p d' l'
  end.

Fixpoint delete_first {A : Type} (p : A → bool) (l : list A) : list A :=
  match l with
  | [] => []
  | x :: l' => if p x then l' else x :: delete_first p l'
  end.

Definition find_one {A : Type} (c : collection A) (filter : A → bool) : M (option A) :=
  await (λ db, (db, Ok (List.find filter (docs c db)))).

(** [find(filter).to_list(length)] *)
Definition find_to_list {A : Type} (c : collection A) (filter : A → bool)
    (length : nat) : M (list A) :=
  await (λ db, (db, Ok (take length (List.filter filter (docs c db))))).

Definition insert_one {A : Type} (c : collection A) (doc : A) : M unit :=
  await (λ db, (with_docs c (docs c db ++ [doc]) db, Ok tt)).

(** [update_one(filter, update, upsert)]. An update the server rejects
    leaves the store as it was. With no match nothing is written, unless
    [upsert] gives the document made of the filter's fields: then the
    update of that document is inserted. *)
Definition update_one {A : Type} (c : collection A) (filter : A → bool)
    (update : A → result A) (upsert : option A) : M unit :=
  await (λ db,
    match List.find filter (docs c db) with
    | Some d =>
        match update d with
        | Ok d' => (with_docs c (replace_first filter d' (docs c db)) db, Ok tt)
        | Raise e => (db, Raise e)
        end
    | None =>
        match upsert with
        | Some d0 =>
            match update d0 with
            | Ok d' => (with_docs c (docs c db ++ [d']) db, Ok tt)
            | Raise e => (db, Raise e)
            end
        | None => (db, Ok tt)
        end
    end).

(** [delete_one(filter)], returning [result.deleted_count]. *)
Definition delete_one {A : Type} (c : collection A) (filter : A → bool) : M Z :=
  await (λ db,
    match List.find filter (docs c db) with
    | Some _ => (with_docs c (delete_first filter (docs c db)) db, Ok 1)
    | None => (db, Ok 0)
    end).

Definition count_documents {A : Type} (c : collection A) (filter : A → bool) : M Z :=
  await (λ db, (db, Ok (Z.of_nat (length (List.filter filter (docs c db)))))).

(** *** Update operators *)

(** The integers BSON can hold. *)
Definition int64 (z : Z) : bool := (- 2 ^ 63 <=? z) && (z <? 2 ^ 63).

(** [{"$inc": {field: amount}}]: an absent field is set to [amount]; a
    field that is not a number, or a sum out of range, is rejected. *)
Definition inc (field : string) (amount : Z) (d : document) : result document :=
  match d !! field with
  | None => Ok (<[field := VInt amount]> d)
  | Some (VInt z) =>
      if int64 (z + amount) then Ok (<[field := VInt (z + amount)]> d)
      else Raise WriteError
  | Some _ => Raise WriteError
  end.

(** [{"$set": fields}] on a settings document *)
Definition set (fields : document) (d : document) : result document :=
  Ok (fields ∪ d).

(** [{"$set": invoice_data.model_dump()}] on an invoice document *)
Definition set_update_data (update_data : InvoiceCreate.t) (d : Invoice.t)
    : result Invoice.t :=
  Ok {| Invoice.id := Invoice.id d;
        Invoice.invoice_number := Invoice.invoice_number d;
        Invoice.client_id := InvoiceCreate.client_id update_data;
        Invoice.invoice_date := InvoiceCreate.invoice_date update_data;
        Invoice.due_date := InvoiceCreate.due_date update_data;
        Invoice.items := InvoiceCreate.items update_data;
        Invoice.subtotal := InvoiceCreate.subtotal update_data;
        Invoice.cgst := InvoiceCreate.cgst update_data;
        Invoice.sgst := InvoiceCreate.sgst update_data;
        Invoice.igst := InvoiceCreate.igst update_data;
        Invoice.total := InvoiceCreate.total update_data;
        Invoice.status := InvoiceCreate.status update_data;
        Invoice.invoice_type := InvoiceCreate.invoice_type update_data;
        Invoice.is_recurring := InvoiceCreate.is_recurring update_data;
        Invoice.notes := InvoiceCreate.notes update_data;
        Invoice.created_at := Invoice.created_at d;
        Invoice.user_id := Invoice.user_id d |}.

(** [{"$set": {"invoice_type": ..., "invoice_number": ...}}] *)
Definition set_type_and_number (invoice_type invoice_number : string) (d : Invoice.t)
    : result Invoice.t :=
  Ok {| Invoice.id := Invoice.id d;
        Invoice.invoice_number := invoice_number;
        Invoice.client_id := Invoice.client_id d;
        Invoice.invoice_date := Invoice.invoice_date d;
        Invoice.due_date := Invoice.due_date d;
        Invoice.items := Invoice.items d;
        Invoice.subtotal := Invoice.subtotal d;
        Invoice.cgst := Invoice.cgst d;
        Invoice.sgst := Invoice.sgst d;
        Invoice.igst := Invoice.igst d;
        Invoice.total := Invoice.total d;
        Invoice.status := Invoice.status d;
        Invoice.invoice_type := invoice_type;
        Invoice.is_recurring := Invoice.is_recurring d;
        Invoice.notes := Invoice.notes d;
        Invoice.created_at := Invoice.created_at d;
        Invoice.user_id := Invoice.user_id d |}.

(** *** Filters *)

(** [{"user_id": user_id}] on a settings document *)
Definition settings_of (user_id : string) (d : document) : bool :=
  bool_decide (d !! "user_id" = Some (VStr user_id)).

(** [{"user_id": user_id}] on an invoice *)
Definition invoices_of (user_id : string) (d : Invoice.t) : bool :=
  bool_decide (Invoice.user_id d = user_id).

(** [{"id": invoice_id}] *)
Definition by_id (invoice_id : string) (d : Invoice.t) : bool :=
  bool_decide (Invoice.id d = invoice_id).

(** [{"id": invoice_id, "user_id": user_id}] *)
Definition by_id_and_user (invoice_id user_id : string) (d : Invoice.t) : bool :=
  bool_decide (Invoice.id d = invoice_id) && bool_decide (Invoice.user_id d = user_id).

(** [{"id": invoice_id, "user_id": user_id, "invoice_type": "quotation"}] *)
Definition quotation_by_id_and_user (invoice_id user_id : string) (d : Invoice.t) : bool :=
  bool_decide (Invoice.id d = invoice_id) && bool_decide (Invoice.user_id d = user_id)
  && bool_decide (Invoice.invoice_type d = "quotation").

(** ** Formatting the invoice number *)

Definition decimal (n : N) : string := NilEmpty.string_of_uint (N.to_uint n).

Fixpoint zeros (n : nat) : string :=
  match n with
  | O => ""
  | S k => String "0" (zeros k)
  end.

(** Left padding with ["0"] up to [width]; a longer string is kept whole. *)
Definition zfill (width : nat) (s : string) : string :=
  zeros (width - String.length s) +:+ s.

(** [format(z, "04d")]: the sign counts in the width. *)
Definition format_04d (z : Z) : string :=
  if z <? 0 then String "-" (zfill 3 (decimal (Z.abs_N z)))
  else zfill 4 (decimal (Z.to_N z)).

(** [format(v, "")], that is [str(v)] *)
Definition str (v : value) : string :=
  match v with
  | VNull => "None"
  | VBool true => "True"
  | VBool false => "False"
  | VInt z => if z <? 0 then String "-" (decimal (Z.abs_N z)) else decimal (Z.to_N z)
  | VStr s => s
  end.

(** [format(v, "04d")]: [bool] is an [int]; [str] and [None] refuse ["d"]. *)
Definition format_value_04d (v : value) : result string :=
  match v with
  | VInt z => Ok (format_04d z)
  | VBool b => Ok (format_04d (Z.b2z b))
  | VStr _ => Raise ValueError
  | VNull => Raise TypeError
  end.

(** [doc[key]] *)
Definition subscript (doc : document) (key : string) : result value :=
  match doc !! key with
  | Some v => Ok v
  | None => Raise (KeyError key)
  end.

(** [f"{settings_doc['invoice_prefix']}-{settings_doc['invoice_counter']:04d}"] *)
Definition invoice_number_of (settings_doc : document) : result string :=
  prefix ← subscript settings_doc "invoice_prefix";
  counter ← subscript settings_doc "invoice_counter";
  formatted ← format_value_04d counter;
  Ok (str prefix +:+ "-" +:+ formatted).

(** ** Invoice routes *)

Definition create_invoice (settings_uuid invoice_uuid : string) (now : datetime)
    (invoice_data : InvoiceCreate.t) (user_id : string) : M Invoice.t :=
  settings_doc ← find_one db_settings (settings_of user_id);
  settings_doc ←
    match settings_doc with
    | Some settings_doc => mret settings_doc
    | None =>
        let settings_dict := Settings settings_uuid user_id in
        _ ← insert_one db_settings settings_dict;
        mret settings_dict
    end;
  invoice_number ← lift (invoice_number_of settings_doc);
  let invoice := Invoice_of invoice_uuid now invoice_data invoice_number user_id in
  _ ← insert_one db_invoices invoice;
  _ ← update_one db_settings (settings_of user_id) (inc "invoice_counter" 1) None;
  mret invoice.

Definition get_invoices (user_id : string) : M (list Invoice.t) :=
  find_to_list db_invoices (invoices_of user_id) 1000.

Definition get_invoice (invoice_id user_id : string) : M Invoice.t :=
  invoice ← find_one db_invoices (by_id_and_user invoice_id user_id);
  match invoice with
  | None => raise (HTTPException 404 "Invoice not found")
  | Some invoice => mret invoice
  end.

(** The record read back after the write. Had that [find_one] found
    nothing, [updated_invoice.get(...)] would be called on [None]. *)
Definition Invoice_or_AttributeError (updated_invoice : option Invoice.t)
    : M Invoice.t :=
  match updated_invoice with
  | Some updated_invoice => mret updated_invoice
  | None => raise AttributeError
  end.

Definition update_invoice (invoice_id : string) (invoice_data : InvoiceCreate.t)
    (user_id : string) : M Invoice.t :=
  existing ← find_one db_invoices (by_id_and_user invoice_id user_id);
  match existing with
  | None => raise (HTTPException 404 "Invoice not found")
  | Some _ =>
      _ ← update_one db_invoices (by_id_and_user invoice_id user_id)
            (set_update_data invoice_data) None;
      updated_invoice ← find_one db_invoices (by_id invoice_id);
      Invoice_or_AttributeError updated_invoice
  end.

Definition delete_invoice (invoice_id user_id : string) : M string :=
  deleted_count ← delete_one db_invoices (by_id_and_user invoice_id user_id);
  if deleted_count =? 0 then raise (HTTPException 404 "Invoice not found")
  else mret "Invoice deleted successfully".

Definition convert_quotation_to_invoice (invoice_id user_id : string) : M Invoice.t :=
  quotation ← find_one db_invoices (quotation_by_id_and_user invoice_id user_id);
  match quotation with
  | None => raise (HTTPException 404 "Quotation not found")
  | Some _ =>
      settings_doc ← find_one db_settings (settings_of user_id);
      invoice_number ←
        match settings_doc with
        | Some settings_doc => lift (invoice_number_of settings_doc)
        | None => raise TypeError
        end;
      _ ← update_one db_invoices (by_id invoice_id)
            (set_type_and_number "invoice" invoice_number) None;
      _ ← update_one db_settings (settings_of user_id) (inc "invoice_counter" 1) None;
      updated_invoice ← find_one db_invoices (by_id invoice_id);
      Invoice_or_AttributeError updated_invoice
  end.

(** ** Listings of the other collections *)

Definition clients_of (user_id : string) (d : Client.t) : bool :=
  bool_decide (Client.user_id d = user_id).
Definition services_of (user_id : string) (d : Service.t) : bool :=
  bool_decide (Service.user_id d = user_id).
Definition expenses_of (user_id : string) (d : Expense.t) : bool :=
  bool_decide (Expense.user_id d = user_id).

Definition get_clients (user_id : string) : M (list Client.t) :=
  find_to_list db_clients (clients_of user_id) 1000.

Definition get_services (user_id : string) : M (list Service.t) :=
  find_to_list db_services (services_of user_id) 1000.

Definition get_expenses (user_id : string) : M (list Expense.t) :=
  find_to_list db_expenses (expenses_of user_id) 1000.

(** ** Settings routes *)

(** What the driver can encode: an [int] beyond 8 bytes raises. *)
Definition bson_encodable (v : value) : bool :=
  match v with
  | VInt z => int64 z
  | _ => true
  end.

Definition update_settings (settings_data : document) (user_id : string) : M string :=
  if bool_decide (map_Forall (λ _ v, bson_encodable v = true) settings_data) then
    _ ← update_one db_settings (settings_of user_id) (set settings_data)
          (Some {[ "user_id" := VStr user_id ]});
    mret "Settings updated successfully"
  else raise OverflowError.

(** The default factory of [id] in [Settings(...)]: a document that has
    no [id] is given the identifier drawn for the call. *)
Definition with_default_id (id : string) (d : document) : document :=
  match d !! "id" with
  | Some _ => d
  | None => <["id" := VStr id]> d
  end.

(** [validate] stands for the rest of pydantic's [Settings(...)] on a
    document that has its [id]: the validated model, with the constant
    defaults for the fields that are missing, or the validation error.
    [settings_uuid] is the identifier that [uuid4] gives in this call: it
    is the [id] of the default record, and of the answer when the stored
    record has no [id]. *)
Definition get_settings (validate : document → result document)
    (settings_uuid user_id : string) : M document :=
  settings ← find_one db_settings (settings_of user_id);
  match settings with
  | None =>
      let new_settings := Settings settings_uuid user_id in
      _ ← insert_one db_settings new_settings;
      mret new_settings
  | Some settings => lift (validate (with_default_id settings_uuid settings))
  end.

(** ** Dashboard stats *)

(** A Python number: [sum] starts from the [int] 0 and the amounts are
    [float]s. *)
Inductive number : Type :=
| Int (z : Z)
| Float (f : float).

(** [float(z)], exact for the small [z] that occur here *)
Definition float_of_int (z : Z) : float :=
  if z <? 0 then PrimFloat.opp (PrimFloat.of_uint63 (Uint63.of_Z (- z)))
  else PrimFloat.of_uint63 (Uint63.of_Z z).

Definition add (a : number) (x : float) : number :=
  match a with
  | Int z => Float (PrimFloat.add (float_of_int z) x)
  | Float f => Float (PrimFloat.add f x)
  end.

Definition sum (xs : list float) : number := fold_left add xs (Int 0).

Record DashboardStats : Type := mkStats {
  total_revenue : number;
  pending_amount : number;
  overdue_amount : number;
  total_expenses : number;
  client_count : Z;
  invoice_count : Z
}.

(** [inv['total'] for inv in invoices if inv['status'] == status] *)
Definition totals_with_status (status : string) (invoices : list Invoice.t) : list float :=
  map Invoice.total
    (List.filter (λ inv, bool_decide (Invoice.status inv = status)) invoices).

(** The body of [get_dashboard_stats] after its reads. *)
Definition stats_of (invoices : list Invoice.t) (expenses : list Expense.t)
    (client_count : Z) : DashboardStats :=
  {| total_revenue := sum (totals_with_status "paid" invoices);
     pending_amount := sum (totals_with_status "pending" invoices);
     overdue_amount := sum (totals_with_status "overdue" invoices);
     total_expenses := sum (map Expense.amount expenses);
     client_count := client_count;
     invoice_count := Z.of_nat (length invoices) |}.

Definition get_dashboard_stats (user_id : string) : M DashboardStats :=
  invoices ← find_to_list db_invoices (invoices_of user_id) 1000;
  expenses ← find_to_list db_expenses (expenses_of user_id) 1000;
  client_count ← count_documents db_clients (clients_of user_id);
  mret (stats_of invoices expenses client_count).

(** ** Requests *)

Inductive request : Type :=
| CreateInvoice (settings_uuid invoice_uuid : string) (now : datetime)
    (invoice_data : InvoiceCreate.t)
| GetInvoices
| GetInvoice (invoice_id : string)
| UpdateInvoice (invoice_id : string) (invoice_data : InvoiceCreate.t)
| DeleteInvoice (invoice_id : string)
| ConvertToInvoice (invoice_id : string)
| GetSettings (settings_uuid : string)
| UpdateSettings (settings_data : document)
| GetDashboardStats.

Inductive response : Type :=
| AnInvoice (invoice : Invoice.t)
| SomeInvoices (invoices : list Invoice.t)
| Message (message : string)
| TheSettings (settings : document)
| Stats (stats : DashboardStats).

(** The route of a request, run for the authenticated [user_id]. *)
Definition handle (validate : document → result document)
    (user_id : string) (r : request) : M response :=
  match r with
  | CreateInvoice settings_uuid invoice_uuid now invoice_data =>
      AnInvoice <$> create_invoice settings_uuid invoice_uuid now invoice_data user_id
  | GetInvoices => SomeInvoices <$> get_invoices user_id
  | GetInvoice invoice_id => AnInvoice <$> get_invoice invoice_id user_id
  | UpdateInvoice invoice_id invoice_data =>
      AnInvoice <$> update_invoice invoice_id invoice_data user_id
  | DeleteInvoice invoice_id => Message <$> delete_invoice invoice_id user_id
  | ConvertToInvoice invoice_id =>
      AnInvoice <$> convert_quotation_to_invoice invoice_id user_id
  | GetSettings settings_uuid => TheSettings <$> get_settings validate settings_uuid user_id
  | UpdateSettings settings_data => Message <$> update_settings settings_data user_id
  | GetDashboardStats => Stats <$> get_dashboard_stats user_id
  end.

(** One call of the API: who calls, what, and which round trip fails. *)
Record call : Type := mkCall {
  caller : string;
  req : request;
  fault : option nat
}.

Definition serve1 (validate : document → result document) (c : call) (db : DB)
    : DB * result response :=
  run (handle validate (caller c) (req c)) (fault c) db.

(** The calls are served one after another. *)
Fixpoint serve (validate : document → result document) (calls : list call) (db : DB)
    : DB * list (result response) :=
  match calls with
  | [] => (db, [])
  | c :: calls' =>
      let '(db1, r) := serve1 validate c db in
      let '(db2, rs) := serve validate calls' db1 in
      (db2, r :: rs)
  end.

(** ** The scenario of the specification, run

    Two invoices, a quotation, its conversion, and a second conversion of
    the same id. The quotation takes a number when it is created, so its
    conversion gets the fourth. *)

Definition empty_db : DB := mkDB [] [] [] [] [].

Definition payload (invoice_type : string) : InvoiceCreate.t :=
  {| InvoiceCreate.client_id := "c1";
     InvoiceCreate.invoice_date := "2024-01-01";
     InvoiceCreate.due_date := "2024-01-31";
     InvoiceCreate.items := [];
     InvoiceCreate.subtotal := PrimFloat.zero;
     InvoiceCreate.cgst := PrimFloat.zero;
     InvoiceCreate.sgst := PrimFloat.zero;
     InvoiceCreate.igst := PrimFloat.zero;
     InvoiceCreate.total := PrimFloat.zero;
     InvoiceCreate.status := "pending";
     InvoiceCreate.invoice_type := invoice_type;
     InvoiceCreate.is_recurring := false;
     InvoiceCreate.notes := None |}.

Definition number_of (r : result response) : option string :=
  match r with
  | Ok (AnInvoice invoice) => Some (Invoice.invoice_number invoice)
  | _ => None
  end.

Definition scenario : list call :=
  [ mkCall "T" (CreateInvoice "s1" "i1" 0 (payload "invoice")) None;
    mkCall "T" (CreateInvoice "s2" "i2" 1 (payload "invoice")) None;
    mkCall "T" (CreateInvoice "s3" "i3" 2 (payload "quotation")) None;
    mkCall "T" (ConvertToInvoice "i3") None;
    mkCall "T" (ConvertToInvoice "i3") None ].

Example scenario_numbers :
  map number_of (snd (serve Ok scenario empty_db))
  = [Some "INV-0001"; Some "INV-0002"; Some "INV-0003"; Some "INV-0004"; None].
Proof. vm_compute. reflexivity. Qed.

(** * Properties *)

(** ** The number format *)

Example format_04d_1 : format_04d 1 = "0001".
Proof. reflexivity. Qed.

Example format_04d_9999 : format_04d 9999 = "9999".
Proof. reflexivity. Qed.

Example format_04d_10000 : format_04d 10000 = "10000".
Proof. reflexivity. Qed.

Example format_04d_negative : format_04d (-5) = "-005".
Proof. reflexivity. Qed.

Lemma string_of_uint_length (d : Decimal.uint) :
  String.length (NilEmpty.string_of_uint d) = Decimal.nb_digits d.
Proof. induction d; simpl; congruence. Qed.

Lemma of_lu_bound (d : Decimal.uint) :
  (DecimalPos.Unsigned.of_lu d < 10 ^ N.of_nat (Decimal.nb_digits d))%N.
Proof.
  induction d; cbn [DecimalPos.Unsigned.of_lu Decimal.nb_digits];
    rewrite ?Nat2N.inj_succ, ?N.pow_succ_r'; lia.
Qed.

Lemma decimal_bound (n : N) : (n < 10 ^ N.of_nat (String.length (decimal n)))%N.
Proof.
  unfold decimal. rewrite string_of_uint_length.
  rewrite <- (DecimalN.Unsigned.of_to n) at 1.
  unfold N.of_uint. rewrite DecimalPos.Unsigned.of_uint_alt.
  rewrite <- (DecimalFacts.nb_digits_rev (N.to_uint n)).
  apply of_lu_bound.
Qed.

(** A number above 9999 has at least five digits. *)
Lemma decimal_wide (n : N) : (9999 < n)%N → (4 < String.length (decimal n))%nat.
Proof.
  intros Hn. pose proof (decimal_bound n) as Hb.
  destruct (decide (4 < String.length (decimal n))%nat) as [|Hs]; [done|].
  assert (10 ^ N.of_nat (String.length (decimal n)) ≤ 10 ^ 4)%N.
  { apply N.pow_le_mono_r; lia. }
  change (10 ^ 4)%N with 10000%N in *. lia.
Qed.

(** Reading a decimal back. *)
Definition parse_decimal (s : string) : option N :=
  N.of_uint <$> NilEmpty.uint_of_string s.

Lemma parse_decimal_zeros (k : nat) (s : string) :
  parse_decimal (zeros k +:+ s) = parse_decimal s.
Proof.
  induction k as [|k IH]; [done|].
  rewrite <- IH. unfold parse_decimal.
  simpl. by destruct (NilEmpty.uint_of_string (zeros k +:+ s)).
Qed.

Lemma parse_decimal_decimal (n : N) : parse_decimal (decimal n) = Some n.
Proof.
  unfold parse_decimal, decimal. rewrite NilEmpty.usu. simpl.
  by rewrite DecimalN.Unsigned.of_to.
Qed.

Lemma parse_decimal_zfill (width : nat) (n : N) :
  parse_decimal (zfill width (decimal n)) = Some n.
Proof. unfold zfill. by rewrite parse_decimal_zeros, parse_decimal_decimal. Qed.

Lemma parse_decimal_sign (s : string) : parse_decimal (String "-" s) = None.
Proof. unfold parse_decimal. simpl. by destruct (NilEmpty.uint_of_string s). Qed.

(** Reading [format_04d] back: the sign, then the digits. *)
Definition parse_04d (s : string) : option Z :=
  match parse_decimal s with
  | Some n => Some (Z.of_N n)
  | None =>
      match s with
      | String "-" s' => (λ n, - Z.of_N n) <$> parse_decimal s'
      | _ => None
      end
  end.

Lemma parse_format_04d (z : Z) : parse_04d (format_04d z) = Some z.
Proof.
  unfold parse_04d, format_04d. destruct (Z.ltb_spec z 0).
  - rewrite parse_decimal_sign, parse_decimal_zfill. simpl. f_equal. lia.
  - rewrite parse_decimal_zfill. f_equal. lia.
Qed.

Global Instance format_04d_inj : Inj (=) (=) format_04d.
Proof.
  intros a b Hab. apply (f_equal parse_04d) in Hab.
  rewrite !parse_format_04d in Hab. congruence.
Qed.

(** Zero padding up to four digits, and nothing cut beyond them. *)
Lemma format_04d_nonneg (z : Z) :
  0 ≤ z →
  format_04d z
  = zeros (4 - String.length (decimal (Z.to_N z))) +:+ decimal (Z.to_N z).
Proof. intros H. unfold format_04d. by destruct (Z.ltb_spec z 0); [lia|]. Qed.

Lemma format_04d_wide (z : Z) : 9999 < z → format_04d z = decimal (Z.to_N z).
Proof.
  intros H. rewrite format_04d_nonneg by lia.
  pose proof (decimal_wide (Z.to_N z)) as Hw.
  replace (4 - String.length (decimal (Z.to_N z)))%nat with O by lia.
  reflexivity.
Qed.

Lemma format_04d_length (z : Z) : (4 ≤ String.length (format_04d z))%nat.
Proof.
  assert (Hz : ∀ k s, String.length (zeros k +:+ s) = (k + String.length s)%nat).
  { induction k; intros; simpl; [done|]. by rewrite IHk. }
  unfold format_04d, zfill. destruct (z <? 0); cbn [String.length]; rewrite Hz; lia.
Qed.

(** ** Reasoning about handlers *)

(** [wp m Q db]: whichever round trip fails, if any, the run of [m] in
    [db] ends in a store and a result that satisfy [Q]. *)
Definition wp {A : Type} (m : M A) (Q : DB → result A → Prop) (db : DB) : Prop :=
  ∀ fault, Q (m fault db).1.2 (m fault db).2.

Lemma wp_run {A : Type} (m : M A) (Q : DB → result A → Prop) (db : DB) :
  wp m Q db → ∀ fault db' r, run m fault db = (db', r) → Q db' r.
Proof.
  intros H fault db' r. specialize (H fault). unfold run.
  destruct (m fault db) as [[f d] x]. simpl in H. by intros [= <- <-].
Qed.

Lemma wp_mono {A : Type} (m : M A) (Q Q' : DB → result A → Prop) (db : DB) :
  (∀ db' r, Q db' r → Q' db' r) → wp m Q db → wp m Q' db.
Proof. intros HQ H fault. apply HQ, H. Qed.

Lemma wp_ret {A : Type} (a : A) (Q : DB → result A → Prop) (db : DB) :
  Q db (Ok a) → wp (mret a) Q db.
Proof. by intros H fault. Qed.

Lemma wp_raise {A : Type} (e : error) (Q : DB → result A → Prop) (db : DB) :
  Q db (Raise e) → wp (raise e) Q db.
Proof. by intros H fault. Qed.

Lemma wp_lift {A : Type} (r : result A) (Q : DB → result A → Prop) (db : DB) :
  Q db r → wp (lift r) Q db.
Proof. by intros H fault. Qed.

Lemma wp_await {A : Type} (op : DB → DB * result A) (Q : DB → result A → Prop) (db : DB) :
  Q db (Raise DependencyFailure) → Q (op db).1 (op db).2 → wp (await op) Q db.
Proof.
  intros Hfail Hop [[|k]|]; unfold await; [done|..]; by destruct (op db).
Qed.

Lemma wp_bind {A B : Type} (m : M A) (k : A → M B) (Q : DB → result B → Prop) (db : DB) :
  wp m (λ db' r, match r with
                 | Ok a => wp (k a) Q db'
                 | Raise e => Q db' (Raise e)
                 end) db →
  wp (m ≫= k) Q db.
Proof.
  intros H fault. specialize (H fault). unfold mbind, M_bind.
  destruct (m fault db) as [[f d] [a|e]]; simpl in *; [apply H | done].
Qed.

Lemma wp_fmap {A B : Type} (f : A → B) (m : M A) (Q : DB → result B → Prop) (db : DB) :
  wp m (λ db' r, match r with
                 | Ok a => Q db' (Ok (f a))
                 | Raise e => Q db' (Raise e)
                 end) db →
  wp (f <$> m) Q db.
Proof.
  intros H. apply wp_bind. eapply wp_mono; [|exact H].
  intros db' [a|e]; [apply wp_ret | done].
Qed.

(** The rules of the collection operations. *)

Lemma wp_find_one {A : Type} (c : collection A) (filter : A → bool)
    (Q : DB → result (option A) → Prop) (db : DB) :
  Q db (Raise DependencyFailure) →
  Q db (Ok (List.find filter (docs c db))) →
  wp (find_one c filter) Q db.
Proof. intros. by apply wp_await. Qed.

Lemma wp_find_to_list {A : Type} (c : collection A) (filter : A → bool) (n : nat)
    (Q : DB → result (list A) → Prop) (db : DB) :
  Q db (Raise DependencyFailure) →
  Q db (Ok (take n (List.filter filter (docs c db)))) →
  wp (find_to_list c filter n) Q db.
Proof. intros. by apply wp_await. Qed.

Lemma wp_count_documents {A : Type} (c : collection A) (filter : A → bool)
    (Q : DB → result Z → Prop) (db : DB) :
  Q db (Raise DependencyFailure) →
  Q db (Ok (Z.of_nat (length (List.filter filter (docs c db))))) →
  wp (count_documents c filter) Q db.
Proof. intros. by apply wp_await. Qed.

Lemma wp_insert_one {A : Type} (c : collection A) (doc : A)
    (Q : DB → result unit → Prop) (db : DB) :
  Q db (Raise DependencyFailure) →
  Q (with_docs c (docs c db ++ [doc]) db) (Ok tt) →
  wp (insert_one c doc) Q db.
Proof. intros. by apply wp_await. Qed.

Lemma wp_update_one {A : Type} (c : collection A) (filter : A → bool)
    (update : A → result A) (Q : DB → result unit → Prop) (db : DB) :
  Q db (Raise DependencyFailure) →
  (∀ d d', List.find filter (docs c db) = Some d → update d = Ok d' →
     Q (with_docs c (replace_first filter d' (docs c db)) db) (Ok tt)) →
  (∀ d e, List.find filter (docs c db) = Some d → update d = Raise e →
     Q db (Raise e)) →
  (List.find filter (docs c db) = None → Q db (Ok tt)) →
  wp (update_one c filter update None) Q db.
Proof.
  intros Hfail Hhit Hrej Hmiss. apply wp_await; [done|].
  destruct (List.find filter (docs c db)) as [d|]; [|by apply Hmiss].
  destruct (update d) eqn:E; simpl; eauto.
Qed.

Lemma wp_upsert_one {A : Type} (c : collection A) (filter : A → bool)
    (update : A → result A) (d0 : A) (Q : DB → result unit → Prop) (db : DB) :
  Q db (Raise DependencyFailure) →
  (∀ d d', List.find filter (docs c db) = Some d → update d = Ok d' →
     Q (with_docs c (replace_first filter d' (docs c db)) db) (Ok tt)) →
  (∀ d e, List.find filter (docs c db) = Some d → update d = Raise e →
     Q db (Raise e)) →
  (∀ d', List.find filter (docs c db) = None → update d0 = Ok d' →
     Q (with_docs c (docs c db ++ [d']) db) (Ok tt)) →
  (∀ e, List.find filter (docs c db) = None → update d0 = Raise e →
     Q db (Raise e)) →
  wp (update_one c filter update (Some d0)) Q db.
Proof.
  intros Hfail Hhit Hrej Hups Hupsrej. apply wp_await; [done|].
  destruct (List.find filter (docs c db)) as [d|].
  - destruct (update d) eqn:E; simpl; eauto.
  - destruct (update d0) eqn:E; simpl; eauto.
Qed.

Lemma wp_delete_one {A : Type} (c : collection A) (filter : A → bool)
    (Q : DB → result Z → Prop) (db : DB) :
  Q db (Raise DependencyFailure) →
  (∀ d, List.find filter (docs c db) = Some d →
     Q (with_docs c (delete_first filter (docs c db)) db) (Ok 1)) →
  (List.find filter (docs c db) = None → Q db (Ok 0)) →
  wp (delete_one c filter) Q db.
Proof.
  intros Hfail Hhit Hmiss. apply wp_await; [done|].
  destruct (List.find filter (docs c db)) as [d|]; simpl; eauto.
Qed.

(** Reads and writes of the concrete collections. *)
Ltac store_simpl :=
  cbn [docs with_docs db_clients db_services db_invoices db_expenses db_settings
       clients services invoices expenses settings] in *.

(** ** First matches in a collection *)

Lemma find_snoc {A : Type} (p : A → bool) (l : list A) (x : A) :
  List.find p (l ++ [x])
  = match List.find p l with
    | Some y => Some y
    | None => if p x then Some x else None
    end.
Proof. induction l as [|y l IH]; simpl; [done|]. by destruct (p y). Qed.

Lemma find_replace_first_same {A : Type} (p : A → bool) (d' : A) (l : list A) :
  p d' = true → is_Some (List.find p l) →
  List.find p (replace_first p d' l) = Some d'.
Proof.
  intros Hd'. induction l as [|x l IH]; simpl; [by intros [? [=]]|].
  destruct (p x) eqn:E; simpl; [by rewrite Hd'|]. by rewrite E.
Qed.

Lemma find_replace_first_other {A : Type} (q p : A → bool) (d' : A) (l : list A) :
  (∀ x, p x = true → q x = false) → q d' = false →
  List.find q (replace_first p d' l) = List.find q l.
Proof.
  intros Hpq Hd'. induction l as [|x l IH]; simpl; [done|].
  destruct (p x) eqn:E; simpl.
  - by rewrite Hd', (Hpq x E).
  - by rewrite IH.
Qed.

Lemma find_Some_true {A : Type} (p : A → bool) (l : list A) (d : A) :
  List.find p l = Some d → p d = true.
Proof. intros H. by destruct (List.find_some _ _ H). Qed.

(** ** The numbering state of a tenant *)

(** The prefix and the counter the next allocation of [user_id] will use:
    those of the tenant's settings record, or the defaults that
    [create_invoice] writes when there is none. *)
Definition numbering (user_id : string) (db : DB) (p : string) (c : Z) : Prop :=
  match List.find (settings_of user_id) (settings db) with
  | Some d =>
      d !! "invoice_prefix" = Some (VStr p) ∧ d !! "invoice_counter" = Some (VInt c)
  | None => p = "INV" ∧ c = 1
  end.

Lemma Settings_user_id (id user_id : string) :
  Settings id user_id !! "user_id" = Some (VStr user_id).
Proof. reflexivity. Qed.

Lemma settings_of_Settings (u id user_id : string) :
  settings_of u (Settings id user_id) = bool_decide (user_id = u).
Proof.
  unfold settings_of. rewrite Settings_user_id.
  apply bool_decide_ext. naive_solver.
Qed.

Lemma settings_of_disjoint (u v : string) (d : document) :
  u ≠ v → settings_of u d = true → settings_of v d = false.
Proof.
  unfold settings_of. intros Huv H%bool_decide_eq_true.
  apply bool_decide_eq_false. congruence.
Qed.

Lemma inc_other_field (field key : string) (amount : Z) (d d' : document) :
  key ≠ field → inc field amount d = Ok d' → d' !! key = d !! key.
Proof.
  unfold inc. intros Hne H.
  destruct (d !! field) as [[| |z|]|]; try done.
  - destruct (int64 (z + amount)); [|done].
    injection H as <-. by rewrite lookup_insert_ne.
  - injection H as <-. by rewrite lookup_insert_ne.
Qed.

Lemma inc_counter (field : string) (amount z : Z) (d d' : document) :
  d !! field = Some (VInt z) → inc field amount d = Ok d' →
  d' !! field = Some (VInt (z + amount)).
Proof.
  unfold inc. intros -> H. destruct (int64 (z + amount)); [|done].
  injection H as <-. by rewrite lookup_insert_eq.
Qed.

Lemma inc_settings_of (u field : string) (amount : Z) (d d' : document) :
  field ≠ "user_id" → inc field amount d = Ok d' →
  settings_of u d' = settings_of u d.
Proof.
  intros Hne H. unfold settings_of.
  by rewrite (inc_other_field field "user_id" amount d d').
Qed.

(** The tenant has a settings record, and it holds [p] and [c]. *)
Definition settings_record (user_id : string) (db : DB) (p : string) (c : Z) : Prop :=
  ∃ d, List.find (settings_of user_id) (settings db) = Some d
       ∧ d !! "invoice_prefix" = Some (VStr p)
       ∧ d !! "invoice_counter" = Some (VInt c).

Lemma settings_record_numbering (user_id : string) (db : DB) (p : string) (c : Z) :
  settings_record user_id db p c → numbering user_id db p c.
Proof. intros (d & Hd & H). unfold numbering. by rewrite Hd. Qed.

Lemma numbering_settings_record (user_id : string) (db : DB) (p : string) (c : Z) :
  numbering user_id db p c →
  is_Some (List.find (settings_of user_id) (settings db)) →
  settings_record user_id db p c.
Proof.
  unfold numbering. intros H [d Hd]. rewrite Hd in H. by exists d.
Qed.

Definition numbering_in (user_id : string) (l : list document) (p : string) (c : Z)
    : Prop :=
  match List.find (settings_of user_id) l with
  | Some d =>
      d !! "invoice_prefix" = Some (VStr p) ∧ d !! "invoice_counter" = Some (VInt c)
  | None => p = "INV" ∧ c = 1
  end.

Lemma numbering_eq (user_id : string) (db : DB) (p : string) (c : Z) :
  numbering user_id db p c = numbering_in user_id (settings db) p c.
Proof. reflexivity. Qed.

Lemma numbering_in_default (u v id : string) (l : list document) (p : string) (c : Z) :
  numbering_in u l p c → numbering_in u (l ++ [Settings id v]) p c.
Proof.
  unfold numbering_in. rewrite find_snoc.
  destruct (List.find (settings_of u) l); [done|].
  intros [-> ->]. by destruct (settings_of u (Settings id v)).
Qed.

Lemma numbering_in_inc (u : string) (l : list document) (p : string) (c : Z)
    (d d' : document) :
  List.find (settings_of u) l = Some d →
  inc "invoice_counter" 1 d = Ok d' →
  numbering_in u l p c →
  numbering_in u (replace_first (settings_of u) d' l) p (c + 1).
Proof.
  unfold numbering_in. intros Hd Hinc. rewrite Hd. intros [Hp Hc].
  rewrite find_replace_first_same.
  - split.
    + by rewrite (inc_other_field "invoice_counter" "invoice_prefix" 1 d d').
    + by apply (inc_counter _ _ _ _ _ Hc Hinc).
  - rewrite (inc_settings_of u "invoice_counter" 1 d d') by done.
    by apply (find_Some_true _ l).
  - by rewrite Hd.
Qed.

Lemma numbering_in_inc_other (u v : string) (l : list document) (p : string) (c : Z)
    (d d' : document) :
  u ≠ v →
  List.find (settings_of v) l = Some d →
  inc "invoice_counter" 1 d = Ok d' →
  numbering_in u l p c →
  numbering_in u (replace_first (settings_of v) d' l) p c.
Proof.
  unfold numbering_in. intros Huv Hd Hinc.
  rewrite (find_replace_first_other (settings_of u) (settings_of v)); [done|..].
  - intros x. by apply settings_of_disjoint.
  - rewrite (inc_settings_of u "invoice_counter" 1 d d') by done.
    apply (settings_of_disjoint v u); [done|]. by apply (find_Some_true _ l).
Qed.

Lemma settings_record_inc (u : string) (db db' : DB) (p : string) (c : Z)
    (d d' : document) :
  List.find (settings_of u) (settings db) = Some d →
  numbering u db p c →
  inc "invoice_counter" 1 d = Ok d' →
  settings db' = replace_first (settings_of u) d' (settings db) →
  settings_record u db' p (c + 1).
Proof.
  intros Hd Hn Hinc Hdb'. apply numbering_settings_record.
  - rewrite numbering_eq, Hdb'. by apply (numbering_in_inc _ _ _ _ d).
  - rewrite Hdb', find_replace_first_same; [done| |by rewrite Hd].
    rewrite (inc_settings_of u "invoice_counter" 1 d d') by done.
    by apply (find_Some_true _ (settings db)).
Qed.

Lemma invoice_number_of_numbered (d : document) (p : string) (c : Z) :
  d !! "invoice_prefix" = Some (VStr p) →
  d !! "invoice_counter" = Some (VInt c) →
  invoice_number_of d = Ok (p +:+ "-" +:+ format_04d c).
Proof. intros Hp Hc. unfold invoice_number_of, subscript. by rewrite Hp, Hc. Qed.

(** What [create_invoice] does to the numbering of its caller: on success
    the invoice carries the number formatted from the state before, it is
    the last document of the collection, and the counter is one further;
    on any failure the counter is where it was. *)
Lemma create_invoice_allocates (settings_uuid invoice_uuid : string) (now : datetime)
    (invoice_data : InvoiceCreate.t) (user_id : string) (db : DB) (p : string) (c : Z) :
  numbering user_id db p c →
  wp (create_invoice settings_uuid invoice_uuid now invoice_data user_id)
     (λ db' r,
        match r with
        | Ok invoice =>
            invoice = Invoice_of invoice_uuid now invoice_data
                        (p +:+ "-" +:+ format_04d c) user_id
            ∧ settings_record user_id db' p (c + 1)
            ∧ invoices db' = invoices db ++ [invoice]
        | Raise _ =>
            numbering user_id db' p c
            ∧ (invoices db' = invoices db
               ∨ invoices db' = invoices db
                   ++ [Invoice_of invoice_uuid now invoice_data
                         (p +:+ "-" +:+ format_04d c) user_id])
        end) db.
Proof.
  intros Hn. unfold create_invoice.
  apply wp_bind, wp_find_one; [by auto|]. store_simpl.
  assert (Hdoc : ∀ db1 d,
    invoices db1 = invoices db →
    List.find (settings_of user_id) (settings db1) = Some d →
    numbering user_id db1 p c →
    wp (invoice_number ← lift (invoice_number_of d);
        let invoice :=
          Invoice_of invoice_uuid now invoice_data invoice_number user_id in
        _ ← insert_one db_invoices invoice;
        _ ← update_one db_settings (settings_of user_id)
              (inc "invoice_counter" 1) None;
        mret invoice)
       (λ db' r,
          match r with
          | Ok invoice =>
              invoice = Invoice_of invoice_uuid now invoice_data
                          (p +:+ "-" +:+ format_04d c) user_id
              ∧ settings_record user_id db' p (c + 1)
              ∧ invoices db' = invoices db ++ [invoice]
          | Raise _ =>
              numbering user_id db' p c
              ∧ (invoices db' = invoices db
                 ∨ invoices db' = invoices db
                     ++ [Invoice_of invoice_uuid now invoice_data
                           (p +:+ "-" +:+ format_04d c) user_id])
          end) db1).
  { intros db1 d Hinv Hd Hn1.
    pose proof Hn1 as Hn1'. unfold numbering in Hn1'. rewrite Hd in Hn1'.
    destruct Hn1' as [Hp Hc].
    apply wp_bind, wp_lift. rewrite (invoice_number_of_numbered d p c Hp Hc).
    apply wp_bind, wp_insert_one; [by auto|].
    apply wp_bind, wp_update_one; store_simpl.
    - split; [done|]. right. by rewrite Hinv.
    - intros d0 d' Hd0 Hinc. apply wp_ret. rewrite Hd in Hd0. injection Hd0 as <-.
      split; [done|]. split; [|by rewrite Hinv].
      by apply (settings_record_inc user_id db1 _ p c d d').
    - intros _ _ _ _. split; [done|]. right. by rewrite Hinv.
    - intros Hnone. by rewrite Hd in Hnone. }
  destruct (List.find (settings_of user_id) (settings db)) as [d|] eqn:Hfind;
    cbv beta iota.
  - apply wp_bind, wp_ret. apply Hdoc; auto.
  - apply wp_bind, wp_bind, wp_insert_one; [by auto|].
    apply wp_ret. apply Hdoc.
    + done.
    + store_simpl. rewrite find_snoc, Hfind, settings_of_Settings.
      by rewrite bool_decide_eq_true_2.
    + rewrite numbering_eq. store_simpl. by apply numbering_in_default.
Qed.

(** Unfolding a run with no failing round trip. *)
Ltac run_simpl :=
  unfold run, fmap, M_fmap, mbind, M_bind, mret, M_ret, lift, raise, find_one,
    insert_one, update_one, delete_one, find_to_list, count_documents, await;
  store_simpl; cbv beta iota.

(** With no I/O failure and room for the increment, [create_invoice]
    returns an invoice. *)
Lemma create_invoice_succeeds (settings_uuid invoice_uuid : string) (now : datetime)
    (invoice_data : InvoiceCreate.t) (user_id : string) (db : DB) (p : string) (c : Z) :
  numbering user_id db p c → int64 (c + 1) = true →
  ∃ db' invoice,
    run (create_invoice settings_uuid invoice_uuid now invoice_data user_id) None db
    = (db', Ok invoice).
Proof.
  intros Hn Hc. unfold numbering in Hn. unfold create_invoice. run_simpl.
  destruct (List.find (settings_of user_id) (settings db)) as [d|] eqn:Hfind.
  - destruct Hn as [Hp Hcnt]. rewrite (invoice_number_of_numbered d p c Hp Hcnt).
    cbv beta iota. store_simpl. rewrite Hfind.
    unfold inc. rewrite Hcnt, Hc. eauto.
  - destruct Hn as [-> ->]. store_simpl.
    rewrite find_snoc, Hfind, settings_of_Settings, bool_decide_eq_true_2 by done.
    eauto.
Qed.

(** C1. A successful [create_invoice] of a tenant whose settings hold the
    prefix [p] and the counter [c] (the defaults ["INV"] and [1] when the
    record is still to be created) returns the number [p-c], the counter
    padded with zeros to four digits and written in full beyond 9999;
    afterwards the tenant's record holds [c + 1]. With the defaults the
    first creation gets ["INV-0001"] and the next one ["INV-0002"]. *)
Theorem create_invoice_number (settings_uuid invoice_uuid : string) (now : datetime)
    (invoice_data : InvoiceCreate.t) (user_id : string) (fault : option nat)
    (db db' : DB) (invoice : Invoice.t) (p : string) (c : Z) :
  numbering user_id db p c →
  run (create_invoice settings_uuid invoice_uuid now invoice_data user_id) fault db
  = (db', Ok invoice) →
  Invoice.invoice_number invoice = p +:+ "-" +:+ format_04d c
  ∧ (0 ≤ c →
     format_04d c
     = zeros (4 - String.length (decimal (Z.to_N c))) +:+ decimal (Z.to_N c))
  ∧ (9999 < c → format_04d c = decimal (Z.to_N c))
  ∧ settings_record user_id db' p (c + 1)
  ∧ (p = "INV" → c = 1 →
     Invoice.invoice_number invoice = "INV-0001"
     ∧ ∀ settings_uuid2 invoice_uuid2 now2 invoice_data2 fault2 db'' invoice2,
         run (create_invoice settings_uuid2 invoice_uuid2 now2 invoice_data2 user_id)
           fault2 db'
         = (db'', Ok invoice2) →
         Invoice.invoice_number invoice2 = "INV-0002").
Proof.
  intros Hn Hrun.
  pose proof (wp_run _ _ _
    (create_invoice_allocates settings_uuid invoice_uuid now invoice_data
       user_id db p c Hn) _ _ _ Hrun) as (-> & Hrec & _).
  split; [done|]. split; [apply format_04d_nonneg|].
  split; [apply format_04d_wide|]. split; [done|].
  intros -> ->. split; [done|].
  intros su2 iu2 now2 data2 fault2 db'' invoice2 Hrun2.
  apply settings_record_numbering in Hrec.
  by pose proof (wp_run _ _ _
    (create_invoice_allocates su2 iu2 now2 data2 user_id db' "INV" 2 Hrec)
    _ _ _ Hrun2) as (-> & _).
Qed.

Definition first_invoice : Invoice.t :=
  Invoice_of "i1" 0 (payload "invoice") "INV-0001" "T".

Definition db_after_first : DB :=
  (run (create_invoice "s1" "i1" 0 (payload "invoice") "T") None empty_db).1.

Lemma create_invoice_number_witness :
  Invoice.invoice_number first_invoice = "INV" +:+ "-" +:+ format_04d 1
  ∧ settings_record "T" db_after_first "INV" 2.
Proof.
  assert (Hn : numbering "T" empty_db "INV" 1) by (by split).
  assert (Hrun : run (create_invoice "s1" "i1" 0 (payload "invoice") "T") None empty_db
                 = (db_after_first, Ok first_invoice)) by (vm_compute; reflexivity).
  destruct (create_invoice_number "s1" "i1" 0 (payload "invoice") "T" None
              empty_db db_after_first first_invoice "INV" 1 Hn Hrun)
    as (H1 & _ & _ & H2 & _).
  exact (conj H1 H2).
Defined.

(** ** Allocations in a sequence of calls *)

Definition is_allocation (r : request) : bool :=
  match r with
  | CreateInvoice _ _ _ _ | ConvertToInvoice _ => true
  | _ => false
  end.

Definition is_update_settings (r : request) : bool :=
  match r with
  | UpdateSettings _ => true
  | _ => false
  end.

(** One step of a [wp] goal, by the shape of the program. *)
Ltac wp_step :=
  lazymatch goal with
  | |- wp (mbind _ _) _ _ => apply wp_bind
  | |- wp (fmap _ _) _ _ => apply wp_fmap
  | |- wp (mret _) _ _ => apply wp_ret
  | |- wp (raise _) _ _ => apply wp_raise
  | |- wp (lift _) _ _ => apply wp_lift
  | |- wp (find_one _ _) _ _ => apply wp_find_one
  | |- wp (find_to_list _ _ _) _ _ => apply wp_find_to_list
  | |- wp (count_documents _ _) _ _ => apply wp_count_documents
  | |- wp (insert_one _ _) _ _ => apply wp_insert_one
  | |- wp (update_one _ _ _ None) _ _ => apply wp_update_one
  | |- wp (update_one _ _ _ (Some _)) _ _ => apply wp_upsert_one
  | |- wp (delete_one _ _) _ _ => apply wp_delete_one
  | |- wp (Invoice_or_AttributeError _) _ _ => unfold Invoice_or_AttributeError
  | |- wp (match ?x with _ => _ end) _ _ => destruct x eqn:?
  end;
  cbv beta iota; store_simpl; intros.

Ltac wp_go :=
  repeat first
    [ wp_step
    | lazymatch goal with
      | |- match ?x with _ => _ end => destruct x eqn:?
      end; cbv beta iota; store_simpl ].

Lemma handle_keeps_numbering (validate : document → result document)
    (u v : string) (r : request) (db : DB) (p : string) (c : Z) :
  is_update_settings r = false →
  (is_allocation r = true → u ≠ v) →
  numbering u db p c →
  wp (handle validate v r) (λ db' _, numbering u db' p c) db.
Proof.
  intros Hr Hu Hn. rewrite numbering_eq in Hn.
  destruct r; try done; unfold handle, create_invoice, get_invoices, get_invoice,
    update_invoice, delete_invoice, convert_quotation_to_invoice, get_settings,
    get_dashboard_stats; wp_go;
    rewrite ?numbering_eq; store_simpl;
    eauto using numbering_in_default, numbering_in_inc_other.
Qed.

Lemma find_replace_first_id (invoice_id : string) (d d' : Invoice.t) (l : list Invoice.t) :
  List.find (by_id invoice_id) l = Some d →
  Invoice.id d' = Invoice.id d →
  List.find (by_id invoice_id) (replace_first (by_id invoice_id) d' l) = Some d'.
Proof.
  intros Hd Hid. apply find_replace_first_same; [|by rewrite Hd].
  apply find_Some_true in Hd. unfold by_id in *. by rewrite Hid.
Qed.

Lemma find_implied {A : Type} (p q : A → bool) (l : list A) (d : A) :
  (∀ x, p x = true → q x = true) →
  List.find p l = Some d → is_Some (List.find q l).
Proof.
  intros Hpq. induction l as [|x l IH]; simpl; [done|].
  destruct (p x) eqn:E.
  - intros _. by rewrite (Hpq x E).
  - destruct (q x); [done|]. by apply IH.
Qed.

Lemma convert_allocates (invoice_id user_id : string) (db : DB) (p : string) (c : Z) :
  numbering user_id db p c →
  wp (convert_quotation_to_invoice invoice_id user_id)
     (λ db' r,
        match r with
        | Ok invoice =>
            Invoice.invoice_number invoice = p +:+ "-" +:+ format_04d c
            ∧ settings_record user_id db' p (c + 1)
        | Raise _ => True
        end) db.
Proof.
  intros Hn. unfold convert_quotation_to_invoice. wp_go; try done; [|congruence].
  split.
  - pose proof Hn as Hn'. unfold numbering in Hn'.
    match goal with
    | Hs : List.find (settings_of _) _ = Some ?g, Hnum : invoice_number_of ?g = Ok _ |- _ =>
        rewrite Hs in Hn'; destruct Hn' as [Hp Hc];
        rewrite (invoice_number_of_numbered g p c Hp Hc) in Hnum;
        injection Hnum as <-
    end.
    match goal with
    | Hf : List.find (by_id _) (invoices db) = Some ?d,
      Hset : set_type_and_number _ _ ?d = Ok ?d',
      Hback : List.find _ (replace_first _ ?d' _) = Some _ |- _ =>
        injection Hset as <-;
        rewrite (find_replace_first_id _ d) in Hback by done;
        by injection Hback as <-
    end.
  - match goal with
    | Hs : List.find (settings_of _) _ = Some ?d0, Hinc : inc _ _ ?d0 = Ok _ |- _ =>
        by apply (settings_record_inc user_id db _ p c d0 _ Hs Hn Hinc)
    end.
Qed.

Lemma handle_allocates (validate : document → result document)
    (u : string) (r : request) (db : DB) (p : string) (c : Z) :
  is_allocation r = true →
  numbering u db p c →
  wp (handle validate u r)
     (λ db' res,
        match res with
        | Ok response =>
            number_of (Ok response) = Some (p +:+ "-" +:+ format_04d c)
            ∧ numbering u db' p (c + 1)
        | Raise _ => True
        end) db.
Proof.
  intros Hr Hn. destruct r; try done; unfold handle; apply wp_fmap.
  - eapply wp_mono; [|by apply create_invoice_allocates].
    intros db' [invoice|e]; [|done]. intros (-> & Hrec & _).
    split; [done|]. by apply settings_record_numbering.
  - eapply wp_mono; [|by apply convert_allocates].
    intros db' [invoice|e]; [|done]. intros (Hnum & Hrec).
    split; [by rewrite <- Hnum|]. by apply settings_record_numbering.
Qed.

(** The calls of [u] that allocate a number, by their results. *)
Definition allocation_of (u : string) (c : call) : bool :=
  bool_decide (caller c = u) && is_allocation (req c).

Fixpoint allocations (u : string) (calls : list call)
    (results : list (result response)) : list (result response) :=
  match calls, results with
  | c :: calls', r :: results' =>
      if allocation_of u c then r :: allocations u calls' results'
      else allocations u calls' results'
  | _, _ => []
  end.

Definition is_Ok {A : Type} (r : result A) : bool :=
  match r with
  | Ok _ => true
  | Raise _ => false
  end.

Lemma serve_cons (validate : document → result document) (c : call)
    (calls : list call) (db : DB) :
  serve validate (c :: calls) db
  = ((serve validate calls (serve1 validate c db).1).1,
     (serve1 validate c db).2 :: (serve validate calls (serve1 validate c db).1).2).
Proof.
  simpl. destruct (serve1 validate c db) as [db1 r]. simpl.
  by destruct (serve validate calls db1).
Qed.

Lemma wp_serve1 (validate : document → result document) (c : call) (db : DB)
    (Q : DB → result response → Prop) :
  wp (handle validate (caller c) (req c)) Q db →
  Q (serve1 validate c db).1 (serve1 validate c db).2.
Proof.
  intros H. apply (wp_run _ _ _ H (fault c)). unfold serve1.
  by destruct (run _ _ _).
Qed.

Lemma append_inj_r (p a b : string) : p +:+ a = p +:+ b → a = b.
Proof. induction p as [|x p IH]; simpl; [done|]. intros [= H]. by apply IH. Qed.

Lemma allocations_numbered (validate : document → result document) (u : string)
    (calls : list call) :
  ∀ (db : DB) (p : string) (c : Z),
    numbering u db p c →
    Forall (λ c, is_update_settings (req c) = false) calls →
    Forall (λ r, is_Ok r = true) (allocations u calls (serve validate calls db).2) →
    ∀ (k : nat) (r : result response),
      allocations u calls (serve validate calls db).2 !! k = Some r →
      number_of r = Some (p +:+ "-" +:+ format_04d (c + Z.of_nat k)).
Proof.
  induction calls as [|c0 calls IH]; intros db p c Hn Hcalls Hok k r; [done|].
  rewrite serve_cons in *. cbn [snd allocations] in *.
  inversion_clear Hcalls as [|? ? Hc0 Hcalls'].
  destruct (allocation_of u c0) eqn:Halloc.
  - apply andb_true_iff in Halloc as [Hu%bool_decide_eq_true Hreq].
    inversion_clear Hok as [|? ? Hr Hok'].
    pose proof (wp_serve1 validate c0 db _
      (handle_allocates validate (caller c0) (req c0) db p c Hreq
         ltac:(by rewrite Hu))) as H1.
    destruct (serve1 validate c0 db).2 as [response|e] eqn:E; [|done].
    destruct H1 as [Hnum Hn1]. rewrite Hu in Hn1.
    destruct k as [|k]; simpl.
    + intros [= <-]. by rewrite Z.add_0_r.
    + intros Hk. rewrite (IH _ p (c + 1) Hn1 Hcalls' Hok' k r Hk).
      by replace (c + Z.of_nat (S k)) with (c + 1 + Z.of_nat k) by lia.
  - apply (IH _ p c); [|done|done].
    apply (wp_serve1 validate c0 db (λ db' _, numbering u db' p c)).
    apply handle_keeps_numbering; [done| |done].
    intros Hreq ->. unfold allocation_of in Halloc.
    by rewrite bool_decide_eq_true_2, Hreq in Halloc.
Qed.

(** C2. In a sequence of calls by any tenants that holds no settings
    update, if the allocations of tenant [u] (creations and conversions)
    all succeed, the [k]-th of them returns the number made of the counter
    [c + k], whatever the other tenants allocate in between and whichever
    of their round trips fail; so the numbers are pairwise distinct. *)
Theorem allocations_sequential (validate : document → result document) (u : string)
    (calls : list call) (db : DB) (p : string) (c : Z) :
  numbering u db p c →
  Forall (λ c, is_update_settings (req c) = false) calls →
  Forall (λ r, is_Ok r = true) (allocations u calls (serve validate calls db).2) →
  (∀ (k : nat) (r : result response),
     allocations u calls (serve validate calls db).2 !! k = Some r →
     number_of r = Some (p +:+ "-" +:+ format_04d (c + Z.of_nat k)))
  ∧ NoDup (map number_of (allocations u calls (serve validate calls db).2)).
Proof.
  intros Hn Hcalls Hok.
  pose proof (allocations_numbered validate u calls db p c Hn Hcalls Hok) as Hk.
  split; [done|]. apply NoDup_alt. intros i j x Hi Hj.
  rewrite list_lookup_fmap in Hi, Hj.
  destruct (allocations u calls (serve validate calls db).2 !! i) as [ri|] eqn:Ei;
    [|done].
  destruct (allocations u calls (serve validate calls db).2 !! j) as [rj|] eqn:Ej;
    [|done].
  simpl in Hi, Hj. injection Hi as <-. injection Hj as Hj.
  rewrite (Hk i ri Ei), (Hk j rj Ej) in Hj. injection Hj as Hj.
  apply append_inj_r, append_inj_r, format_04d_inj in Hj. lia.
Qed.

Definition two_tenants : list call :=
  [ mkCall "T" (CreateInvoice "s1" "i1" 0 (payload "invoice")) None;
    mkCall "B" (CreateInvoice "s2" "i2" 1 (payload "invoice")) None;
    mkCall "T" (CreateInvoice "s3" "i3" 2 (payload "quotation")) None;
    mkCall "B" (CreateInvoice "s4" "i4" 3 (payload "invoice")) (Some 2%nat);
    mkCall "T" (ConvertToInvoice "i3") None ].

Example two_tenants_numbers :
  map number_of (serve Ok two_tenants empty_db).2
  = [Some "INV-0001"; Some "INV-0001"; Some "INV-0002"; None; Some "INV-0003"].
Proof. vm_compute. reflexivity. Qed.

Lemma allocations_sequential_witness :
  NoDup (map number_of (allocations "T" two_tenants (serve Ok two_tenants empty_db).2)).
Proof.
  apply (allocations_sequential Ok "T" two_tenants empty_db "INV" 1).
  - by split.
  - repeat constructor.
  - vm_compute. repeat constructor.
Defined.

(** ** Failures between the insert and the increment *)

(** With a settings record in place the round trips of [create_invoice]
    are, in order: 0 the read of the settings, 1 the insert of the invoice,
    2 the increment of the counter. For a tenant without a record they
    are: 0 the read of the settings, 1 the insert of the default record,
    2 the insert of the invoice, 3 the increment. *)

(** What a failed [create_invoice] can have written: the default settings
    record, when the tenant had none, and the invoice; nothing else. *)
Lemma create_invoice_failure_writes (settings_uuid invoice_uuid : string)
    (now : datetime) (invoice_data : InvoiceCreate.t) (user_id : string) (db : DB) :
  wp (create_invoice settings_uuid invoice_uuid now invoice_data user_id)
     (λ db' r,
        match r with
        | Ok _ => True
        | Raise _ =>
            (settings db' = settings db
             ∨ List.find (settings_of user_id) (settings db) = None
               ∧ settings db' = settings db ++ [Settings settings_uuid user_id])
            ∧ (invoices db' = invoices db
               ∨ ∃ number,
                   invoices db'
                   = invoices db
                     ++ [Invoice_of invoice_uuid now invoice_data number user_id])
            ∧ clients db' = clients db ∧ services db' = services db
            ∧ expenses db' = expenses db
        end) db.
Proof.
  unfold create_invoice. wp_go.
  all: try exact I.
  all: repeat split; eauto.
Qed.

(** C3, as the code has it. The counter is read before the invoice is
    inserted but incremented only after it. For a tenant with a settings
    record that gives a number: if the insert of the invoice fails,
    nothing is written, no invoice and the counter where it was; if the
    increment fails, the invoice is stored with its number and the
    counter is still where it was. For a tenant without a settings
    record the default record is inserted first: if that insert fails
    nothing is written; if the insert of the invoice fails, the default
    record is stored and no invoice; if the increment fails, the default
    record and the invoice ["INV-0001"] are stored, the counter still 1.
    Whatever fails, a failed creation writes at most that default record
    and that one invoice, and never leaves the counter advanced: the
    prefix and the counter of the next creation are those from before. *)
Theorem create_invoice_failure (settings_uuid invoice_uuid : string) (now : datetime)
    (invoice_data : InvoiceCreate.t) (user_id : string) (db : DB) :
  (∀ d number,
     List.find (settings_of user_id) (settings db) = Some d →
     invoice_number_of d = Ok number →
     run (create_invoice settings_uuid invoice_uuid now invoice_data user_id)
       (Some 1%nat) db
     = (db, Raise DependencyFailure)
     ∧ run (create_invoice settings_uuid invoice_uuid now invoice_data user_id)
         (Some 2%nat) db
       = (with_docs db_invoices
            (invoices db
             ++ [Invoice_of invoice_uuid now invoice_data number user_id]) db,
          Raise DependencyFailure))
  ∧ (List.find (settings_of user_id) (settings db) = None →
     run (create_invoice settings_uuid invoice_uuid now invoice_data user_id)
       (Some 1%nat) db
     = (db, Raise DependencyFailure)
     ∧ run (create_invoice settings_uuid invoice_uuid now invoice_data user_id)
         (Some 2%nat) db
       = (with_docs db_settings (settings db ++ [Settings settings_uuid user_id]) db,
          Raise DependencyFailure)
     ∧ run (create_invoice settings_uuid invoice_uuid now invoice_data user_id)
         (Some 3%nat) db
       = (with_docs db_invoices
            (invoices db
             ++ [Invoice_of invoice_uuid now invoice_data "INV-0001" user_id])
            (with_docs db_settings
               (settings db ++ [Settings settings_uuid user_id]) db),
          Raise DependencyFailure))
  ∧ ∀ fault db' e,
      run (create_invoice settings_uuid invoice_uuid now invoice_data user_id)
        fault db
      = (db', Raise e) →
      (∀ p c, numbering user_id db p c → numbering user_id db' p c)
      ∧ (∀ p c, settings_record user_id db p c → settings_record user_id db' p c)
      ∧ (settings db' = settings db
         ∨ List.find (settings_of user_id) (settings db) = None
           ∧ settings db' = settings db ++ [Settings settings_uuid user_id])
      ∧ (invoices db' = invoices db
         ∨ ∃ number,
             invoices db'
             = invoices db
               ++ [Invoice_of invoice_uuid now invoice_data number user_id])
      ∧ clients db' = clients db ∧ services db' = services db
      ∧ expenses db' = expenses db.
Proof.
  split; [|split].
  - intros d number Hd Hnumber. split.
    + unfold create_invoice. run_simpl. rewrite Hd. cbv beta iota.
      by rewrite Hnumber.
    + unfold create_invoice. run_simpl. rewrite Hd. cbv beta iota.
      by rewrite Hnumber.
  - intros Hnone. split; [|split].
    + unfold create_invoice. run_simpl. by rewrite Hnone.
    + unfold create_invoice. run_simpl. by rewrite Hnone.
    + unfold create_invoice. run_simpl. by rewrite Hnone.
  - intros fault db' e Hrun.
    pose proof (wp_run _ _ _
      (create_invoice_failure_writes settings_uuid invoice_uuid now invoice_data
         user_id db) _ _ _ Hrun) as (Hsettings & Hinvoices & Hrest).
    split; [|split; [|split; [done|split; done]]].
    + intros p c Hn. rewrite numbering_eq in *.
      destruct Hsettings as [-> | [_ ->]]; [done|]. by apply numbering_in_default.
    + intros p c (d & Hd & Hrec). exists d.
      destruct Hsettings as [-> | [Hnone _]]; [done|]. congruence.
Qed.

Lemma db_after_first_record : settings_record "T" db_after_first "INV" 2.
Proof.
  assert (Hn : numbering "T" empty_db "INV" 1) by (by split).
  assert (Hrun : run (create_invoice "s1" "i1" 0 (payload "invoice") "T") None empty_db
                 = (db_after_first, Ok first_invoice)) by (vm_compute; reflexivity).
  by pose proof (wp_run _ _ _
    (create_invoice_allocates "s1" "i1" 0 (payload "invoice") "T" empty_db "INV" 1 Hn)
    _ _ _ Hrun) as (_ & Hrec & _).
Qed.

Lemma create_invoice_failure_witness :
  run (create_invoice "s1" "i1" 0 (payload "invoice") "T") (Some 2%nat) empty_db
  = (with_docs db_settings (settings empty_db ++ [Settings "s1" "T"]) empty_db,
     Raise DependencyFailure)
  ∧ run (create_invoice "s2" "i2" 1 (payload "invoice") "T") (Some 1%nat)
      db_after_first
    = (db_after_first, Raise DependencyFailure).
Proof.
  split.
  - apply (create_invoice_failure "s1" "i1" 0 (payload "invoice") "T" empty_db).
    reflexivity.
  - destruct db_after_first_record as (d & Hd & Hp & Hc).
    apply (create_invoice_failure "s2" "i2" 1 (payload "invoice") "T" db_after_first)
      with d ("INV" +:+ "-" +:+ format_04d 2).
    + exact Hd.
    + exact (invoice_number_of_numbered d "INV" 2 Hp Hc).
Defined.

(** The specification has the counter advanced before the insert, so
    that a failed insert would leave it incremented. Here the insert of
    the second invoice of ["T"] fails: the store is as it was, and the
    counter was 2 and still is. *)
Lemma insert_failure_keeps_counter :
  settings_record "T" db_after_first "INV" 2
  ∧ run (create_invoice "s2" "i2" 1 (payload "invoice") "T") (Some 1%nat)
      db_after_first
    = (db_after_first, Raise DependencyFailure)
  ∧ ¬ settings_record "T" db_after_first "INV" 3.
Proof.
  pose proof db_after_first_record as Hrec.
  split; [done|]. split; [vm_compute; reflexivity|].
  intros (d & Hd & _ & Hc). destruct Hrec as (d2 & Hd2 & _ & Hc2).
  rewrite Hd in Hd2. injection Hd2 as <-. rewrite Hc in Hc2. discriminate.
Qed.

(** ** Identifiers *)

(** [uuid4] gives every invoice an identifier of its own. *)
Definition unique_ids (db : DB) : Prop := NoDup (map Invoice.id (invoices db)).

Lemma find_None_iff {A : Type} (p : A → bool) (l : list A) :
  List.find p l = None ↔ ∀ x, In x l → p x = false.
Proof.
  split; [apply List.find_none|].
  induction l as [|x l IH]; simpl; [done|]. intros H.
  rewrite (H x) by auto. apply IH. auto.
Qed.

Lemma find_In {A : Type} (p : A → bool) (l : list A) (d : A) :
  List.find p l = Some d → In d l.
Proof. intros H. by destruct (List.find_some _ _ H). Qed.

Lemma same_id_same_invoice (l : list Invoice.t) (a b : Invoice.t) :
  NoDup (map Invoice.id l) → In a l → In b l → Invoice.id a = Invoice.id b → a = b.
Proof.
  induction l as [|x l IH]; simpl; [done|].
  intros [Hx Hl]%NoDup_cons [<-|Ha] [<-|Hb] Hid; try done.
  - exfalso. apply Hx. apply list_elem_of_In. rewrite Hid.
    by apply in_map.
  - exfalso. apply Hx. apply list_elem_of_In. rewrite <- Hid.
    by apply in_map.
  - by apply IH.
Qed.

Lemma replace_first_narrow {A : Type} (p q : A → bool) (d' old : A) (l : list A) :
  (∀ x, p x = true → q x = true) →
  (∀ x y, In x l → In y l → q x = true → q y = true → x = y) →
  List.find p l = Some old →
  List.find q l = Some old ∧ replace_first q d' l = replace_first p d' l.
Proof.
  intros Hpq. induction l as [|x l IH]; simpl; [done|]. intros Huniq Hfind.
  destruct (p x) eqn:Hp.
  - by rewrite (Hpq x Hp).
  - destruct (q x) eqn:Hq.
    + assert (x = old) as ->.
      { apply Huniq; auto.
        - right. by apply (find_In p).
        - apply Hpq. by apply (find_Some_true p l). }
      apply find_Some_true in Hfind. congruence.
    + destruct IH as [IH1 IH2]; [by auto|done|]. by rewrite IH1, IH2.
Qed.

Lemma map_replace_first {A B : Type} (f : A → B) (p : A → bool) (d' : A) (l : list A) :
  (∀ x, p x = true → f x = f d') →
  map f (replace_first p d' l) = map f l.
Proof.
  intros H. induction l as [|x l IH]; simpl; [done|].
  destruct (p x) eqn:E; simpl; [by rewrite (H x E)|by rewrite IH].
Qed.

Lemma In_replace_first {A : Type} (p : A → bool) (d' : A) (l : list A) (x : A) :
  In x (replace_first p d' l) → x = d' ∨ In x l.
Proof.
  induction l as [|y l IH]; simpl; [auto|].
  destruct (p y); simpl.
  - intros [<-|H]; auto.
  - intros [->|H]; [auto|]. destruct (IH H); auto.
Qed.

Lemma by_id_unique (invoice_id : string) (l : list Invoice.t) :
  NoDup (map Invoice.id l) →
  ∀ x y, In x l → In y l → by_id invoice_id x = true → by_id invoice_id y = true →
         x = y.
Proof.
  intros Hl x y Hx Hy Hix%bool_decide_eq_true Hiy%bool_decide_eq_true.
  apply (same_id_same_invoice l); congruence.
Qed.

Lemma by_id_and_user_by_id (invoice_id user_id : string) (x : Invoice.t) :
  by_id_and_user invoice_id user_id x = true → by_id invoice_id x = true.
Proof. unfold by_id_and_user, by_id. by intros [? _]%andb_true_iff. Qed.

Lemma quotation_by_id (invoice_id user_id : string) (x : Invoice.t) :
  quotation_by_id_and_user invoice_id user_id x = true → by_id invoice_id x = true.
Proof.
  unfold quotation_by_id_and_user, by_id.
  by intros [[? _]%andb_true_iff _]%andb_true_iff.
Qed.

(** ** Converting a quotation *)

(** The tenant has a quotation of that id. *)
Definition eligible_quotation (db : DB) (invoice_id user_id : string) : Prop :=
  ∃ q, In q (invoices db) ∧ Invoice.id q = invoice_id ∧ Invoice.user_id q = user_id
       ∧ Invoice.invoice_type q = "quotation".

Lemma eligible_quotation_find (db : DB) (invoice_id user_id : string) :
  eligible_quotation db invoice_id user_id
  ↔ is_Some (List.find (quotation_by_id_and_user invoice_id user_id) (invoices db)).
Proof.
  split.
  - intros (q & Hq & Hi & Hu & Ht).
    destruct (List.find _ (invoices db)) as [d|] eqn:E; [done|].
    rewrite find_None_iff in E. specialize (E q Hq).
    unfold quotation_by_id_and_user in E.
    by rewrite !bool_decide_eq_true_2 in E.
  - intros [q Hq]. exists q. split; [by apply (find_In _ _ _ Hq)|].
    apply find_Some_true in Hq. unfold quotation_by_id_and_user in Hq.
    apply andb_true_iff in Hq as [[Hi Hu]%andb_true_iff Ht].
    by apply bool_decide_eq_true in Hi, Hu, Ht.
Qed.

Lemma unique_ids_replace_first (invoice_id : string) (d' : Invoice.t) (db : DB) :
  unique_ids db → Invoice.id d' = invoice_id →
  NoDup (map Invoice.id (replace_first (by_id invoice_id) d' (invoices db))).
Proof.
  intros Hu Hid. rewrite map_replace_first; [done|].
  intros x Hx%bool_decide_eq_true. congruence.
Qed.

Lemma inc_not_NotFound (field : string) (amount : Z) (d : document) (e : error) :
  inc field amount d = Raise e → is_NotFound e = false.
Proof.
  unfold inc. destruct (d !! field) as [[| |z|]|]; try by intros [= <-].
  destruct (int64 (z + amount)); [done|]. by intros [= <-].
Qed.

Lemma invoice_number_of_not_NotFound (d : document) (e : error) :
  invoice_number_of d = Raise e → is_NotFound e = false.
Proof.
  unfold invoice_number_of, subscript.
  destruct (d !! "invoice_prefix"); simpl; [|by intros [= <-]].
  destruct (d !! "invoice_counter") as [[| | |]|]; simpl; try done; by intros [= <-].
Qed.

Lemma convert_outcome (invoice_id user_id : string) (db : DB) :
  unique_ids db →
  wp (convert_quotation_to_invoice invoice_id user_id)
     (λ db' r,
        match r with
        | Ok invoice =>
            ∃ q g number,
              List.find (quotation_by_id_and_user invoice_id user_id) (invoices db)
              = Some q
              ∧ List.find (settings_of user_id) (settings db) = Some g
              ∧ invoice_number_of g = Ok number
              ∧ set_type_and_number "invoice" number q = Ok invoice
              ∧ invoices db' = replace_first (by_id invoice_id) invoice (invoices db)
              ∧ List.find (by_id invoice_id) (invoices db') = Some invoice
        | Raise e =>
            (is_NotFound e = true →
             List.find (quotation_by_id_and_user invoice_id user_id) (invoices db)
             = None)
            ∧ (List.find (quotation_by_id_and_user invoice_id user_id) (invoices db)
               = None →
               db' = db
               ∧ (e = HTTPException 404 "Quotation not found" ∨ e = DependencyFailure))
        end) db.
Proof.
  intros Hu. unfold convert_quotation_to_invoice. wp_go.
  all: try (split; [done|auto]).
  all: try (split; [done|intros; congruence]).
  all: try match goal with
    | He : inc _ _ _ = Raise ?e |- (is_NotFound ?e = true → _) ∧ _ =>
        split; [intros HNF; by rewrite (inc_not_NotFound _ _ _ _ He) in HNF
               |intros; congruence]
    | He : invoice_number_of _ = Raise ?e |- (is_NotFound ?e = true → _) ∧ _ =>
        split; [intros HNF; by rewrite (invoice_number_of_not_NotFound _ _ He) in HNF
               |intros; congruence]
    end.
  all: try match goal with
    | Hs : List.find (settings_of _) _ = Some _,
      Hn : List.find (settings_of _) _ = None |- _ => congruence
    end.
  all: try match goal with
    | Hq : List.find (quotation_by_id_and_user _ _) ?l = Some _,
      Hn : List.find (by_id _) ?l = None |- _ =>
        destruct (find_implied _ _ _ _ (quotation_by_id invoice_id user_id) Hq);
        congruence
    end.
  all: try congruence.
  match goal with
  | Hq : List.find (quotation_by_id_and_user _ _) _ = Some ?q,
    Hd : List.find (by_id _) (invoices db) = Some ?d,
    Hset : set_type_and_number _ _ ?d = Ok ?d',
    Hback : List.find (by_id _) (replace_first _ ?d' _) = Some ?t0 |- _ =>
      destruct (replace_first_narrow (quotation_by_id_and_user invoice_id user_id)
                  (by_id invoice_id) d' q (invoices db)
                  (quotation_by_id invoice_id user_id)
                  (by_id_unique invoice_id _ Hu) Hq) as [Hfirst _];
      rewrite Hfirst in Hd; injection Hd as <-;
      assert (Hid : Invoice.id d' = Invoice.id q) by (by injection Hset as <-);
      rewrite (find_replace_first_id invoice_id q d' _ Hfirst Hid) in Hback;
      injection Hback as <-;
      eexists q, _, _; repeat split; try done;
      by apply (find_replace_first_id invoice_id q)
  end.
Qed.

(** With no failing round trip, a settings record and room for the
    increment, the conversion of an eligible quotation returns. *)
Lemma convert_succeeds (invoice_id user_id : string) (db : DB) (q : Invoice.t)
    (p : string) (c : Z) :
  unique_ids db →
  List.find (quotation_by_id_and_user invoice_id user_id) (invoices db) = Some q →
  settings_record user_id db p c →
  int64 (c + 1) = true →
  ∃ db' invoice,
    run (convert_quotation_to_invoice invoice_id user_id) None db = (db', Ok invoice).
Proof.
  intros Hu Hq (g & Hg & Hp & Hc) Hroom.
  destruct (replace_first_narrow (quotation_by_id_and_user invoice_id user_id)
              (by_id invoice_id) q q (invoices db)
              (quotation_by_id invoice_id user_id)
              (by_id_unique invoice_id _ Hu) Hq) as [Hfirst _].
  unfold convert_quotation_to_invoice. run_simpl. rewrite Hq. cbv beta iota.
  store_simpl. rewrite Hg. cbv beta iota.
  rewrite (invoice_number_of_numbered g p c Hp Hc). cbv beta iota. store_simpl.
  rewrite Hfirst. cbn [set_type_and_number]. cbv beta iota. store_simpl.
  rewrite Hg. unfold inc. rewrite Hc, Hroom. cbv beta iota. store_simpl.
  match goal with
  | |- context [replace_first (by_id _) ?d' _] =>
      rewrite (find_replace_first_id invoice_id q d' _ Hfirst eq_refl)
  end.
  unfold Invoice_or_AttributeError. run_simpl. eauto.
Qed.

(** Once converted, the record is no quotation any more. *)
Lemma converted_not_eligible (invoice_id user_id : string) (db' : DB)
    (invoice : Invoice.t) :
  unique_ids db' →
  List.find (by_id invoice_id) (invoices db') = Some invoice →
  Invoice.invoice_type invoice = "invoice" →
  List.find (quotation_by_id_and_user invoice_id user_id) (invoices db') = None.
Proof.
  intros Hu Hfind Htype. apply find_None_iff. intros x Hx.
  destruct (quotation_by_id_and_user invoice_id user_id x) eqn:E; [|done].
  assert (x = invoice) as ->.
  { apply (by_id_unique invoice_id _ Hu); [done|by apply (find_In _ _ _ Hfind)| |].
    - by apply (quotation_by_id invoice_id user_id).
    - by apply (find_Some_true _ _ _ Hfind). }
  unfold quotation_by_id_and_user in E. apply andb_true_iff in E as [_ E].
  apply bool_decide_eq_true in E. congruence.
Qed.

(** C4. With identifiers unique: a run with no failing round trip fails
    with 404 exactly when the tenant has no quotation of that id, and then
    nothing is written. A conversion that returns gives back the
    quotation with its [id], items, totals and every other field, but
    [invoice_type] now ["invoice"] and [invoice_number] formatted from
    the tenant's settings, whose counter is one further. A second
    conversion of the same id never returns: 404 when its read goes
    through. *)
Theorem convert_quotation_to_invoice_spec (invoice_id user_id : string)
    (fault : option nat) (db db' : DB) (r : result Invoice.t) :
  unique_ids db →
  run (convert_quotation_to_invoice invoice_id user_id) fault db = (db', r) →
  (fault = None →
   (∃ e, r = Raise e ∧ is_NotFound e = true)
   ↔ ¬ eligible_quotation db invoice_id user_id)
  ∧ (¬ eligible_quotation db invoice_id user_id → db' = db ∧ is_Ok r = false)
  ∧ (∀ invoice, r = Ok invoice →
     ∃ q,
       List.find (quotation_by_id_and_user invoice_id user_id) (invoices db) = Some q
       ∧ List.find (by_id_and_user invoice_id user_id) (invoices db') = Some invoice
       ∧ Invoice.invoice_type invoice = "invoice"
       ∧ Invoice.id invoice = Invoice.id q
       ∧ Invoice.items invoice = Invoice.items q
       ∧ Invoice.subtotal invoice = Invoice.subtotal q
       ∧ Invoice.cgst invoice = Invoice.cgst q
       ∧ Invoice.sgst invoice = Invoice.sgst q
       ∧ Invoice.igst invoice = Invoice.igst q
       ∧ Invoice.total invoice = Invoice.total q
       ∧ set_type_and_number "invoice" (Invoice.invoice_number invoice) q = Ok invoice
       ∧ (∀ p c, numbering user_id db p c →
            Invoice.invoice_number invoice = p +:+ "-" +:+ format_04d c
            ∧ settings_record user_id db' p (c + 1))
       ∧ ∀ fault2 db'' r2,
           run (convert_quotation_to_invoice invoice_id user_id) fault2 db' = (db'', r2) →
           is_Ok r2 = false
           ∧ (fault2 = None → r2 = Raise (HTTPException 404 "Quotation not found")))
  ∧ (fault = None →
     eligible_quotation db invoice_id user_id →
     ∀ p c, settings_record user_id db p c → int64 (c + 1) = true → is_Ok r = true).
Proof.
  intros Hu Hrun.
  pose proof (wp_run _ _ _ (convert_outcome invoice_id user_id db Hu) _ _ _ Hrun) as Hout.
  assert (Hmiss : ∀ (f : option nat) (d d1 : DB) (r1 : result Invoice.t),
    List.find (quotation_by_id_and_user invoice_id user_id) (invoices d) = None →
    run (convert_quotation_to_invoice invoice_id user_id) f d = (d1, r1) →
    is_Ok r1 = false
    ∧ (f = None → r1 = Raise (HTTPException 404 "Quotation not found"))).
  { intros f d d1 r1 Hnone. unfold convert_quotation_to_invoice.
    destruct f as [[|k]|]; run_simpl; rewrite ?Hnone; intros [= <- <-];
      (split; [done|by intros]). }
  split; [|split; [|split]].
  - intros ->. rewrite eligible_quotation_find. split.
    + intros (e & -> & He) [q Hq]. destruct Hout as [Hout _].
      rewrite (Hout He) in Hq. done.
    + intros Hnone.
      destruct (List.find (quotation_by_id_and_user invoice_id user_id) (invoices db))
        as [q|] eqn:E; [by destruct Hnone|].
      destruct (Hmiss None db db' r E Hrun) as [_ Hr]. rewrite (Hr eq_refl).
      eexists. split; reflexivity.
  - rewrite eligible_quotation_find. intros Hnone.
    destruct (List.find (quotation_by_id_and_user invoice_id user_id) (invoices db))
      as [q|] eqn:E; [by destruct Hnone|].
    destruct r as [invoice|e].
    + destruct Hout as (q & _ & _ & Hq & _). congruence.
    + destruct Hout as [_ Hout]. by destruct (Hout eq_refl) as [-> _].
  - intros invoice ->.
    destruct Hout as (q & g & number & Hq & Hg & Hnum & Hset & Hdb' & Hback).
    assert (Hu' : unique_ids db').
    { unfold unique_ids. rewrite Hdb'. apply unique_ids_replace_first; [done|].
      apply find_Some_true, bool_decide_eq_true in Hback. done. }
    assert (Hq' := find_Some_true _ _ _ Hq).
    unfold quotation_by_id_and_user in Hq'.
    apply andb_true_iff in Hq' as [[Hqi Hqu]%andb_true_iff _].
    apply bool_decide_eq_true in Hqi, Hqu.
    injection Hset as Hinv.
    assert (Hmine : by_id_and_user invoice_id user_id invoice = true).
    { rewrite <- Hinv. unfold by_id_and_user. cbn [Invoice.id Invoice.user_id].
      by rewrite !bool_decide_eq_true_2. }
    exists q. split; [done|]. split.
    { destruct (List.find (by_id_and_user invoice_id user_id) (invoices db'))
        as [x|] eqn:Ex.
      - f_equal. apply (by_id_unique invoice_id _ Hu').
        + by apply (find_In _ _ _ Ex).
        + by apply (find_In _ _ _ Hback).
        + apply (by_id_and_user_by_id invoice_id user_id), (find_Some_true _ _ _ Ex).
        + by apply (find_Some_true _ _ _ Hback).
      - rewrite find_None_iff in Ex.
        specialize (Ex _ (find_In _ _ _ Hback)). congruence. }
    do 9 (split; [by rewrite <- Hinv|]). split.
    + intros p c Hn.
      by pose proof (wp_run _ _ _ (convert_allocates invoice_id user_id db p c Hn)
                       _ _ _ Hrun) as [? ?].
    + intros fault2 db'' r2 Hrun2. apply (Hmiss fault2 db' db'' r2); [|done].
      apply (converted_not_eligible invoice_id user_id db' _ Hu' Hback).
      by rewrite <- Hinv.
  - intros -> [q Hq]%eligible_quotation_find p c Hrec Hroom.
    destruct (convert_succeeds invoice_id user_id db q p c Hu Hq Hrec Hroom)
      as (db1 & invoice & Hrun1).
    rewrite Hrun1 in Hrun. by injection Hrun as <- <-.
Qed.

(** ** Updating an invoice *)

Lemma set_update_data_filter (invoice_id user_id : string) (invoice_data : InvoiceCreate.t)
    (d d' : Invoice.t) :
  set_update_data invoice_data d = Ok d' →
  by_id_and_user invoice_id user_id d' = by_id_and_user invoice_id user_id d
  ∧ Invoice.id d' = Invoice.id d.
Proof. by intros [= <-]. Qed.

Lemma update_invoice_outcome (invoice_id : string) (invoice_data : InvoiceCreate.t)
    (user_id : string) (db : DB) :
  unique_ids db →
  wp (update_invoice invoice_id invoice_data user_id)
     (λ db' r,
        match r with
        | Ok invoice =>
            ∃ existing,
              List.find (by_id_and_user invoice_id user_id) (invoices db) = Some existing
              ∧ set_update_data invoice_data existing = Ok invoice
              ∧ List.find (by_id_and_user invoice_id user_id) (invoices db') = Some invoice
        | Raise e =>
            List.find (by_id_and_user invoice_id user_id) (invoices db) = None →
            db' = db ∧ (e = HTTPException 404 "Invoice not found" ∨ e = DependencyFailure)
        end) db.
Proof.
  intros Hu. unfold update_invoice. wp_go; try done; try (intros; congruence).
  all: try (intros; split; [done|auto]).
  match goal with
  | Hf : List.find _ (invoices db) = Some ?t, Hd : List.find _ (invoices db) = Some ?d,
    Hset : set_update_data _ ?d = Ok ?d', Hback : List.find (by_id _) _ = Some ?t0 |- _ =>
      rewrite Hd in Hf; injection Hf as <-;
      destruct (set_update_data_filter invoice_id user_id _ _ _ Hset) as [Hfilter Hid];
      destruct (replace_first_narrow (by_id_and_user invoice_id user_id)
                  (by_id invoice_id) d' d (invoices db)
                  (by_id_and_user_by_id invoice_id user_id)
                  (by_id_unique invoice_id _ Hu) Hd) as [Hfirst Hsame];
      rewrite <- Hsame, (find_replace_first_id invoice_id d d' _ Hfirst Hid) in Hback;
      injection Hback as <-;
      exists d; split; [done|]; split; [done|];
      apply find_replace_first_same; [|by rewrite Hd];
      rewrite Hfilter; by apply (find_Some_true _ (invoices db))
  end.
Qed.

(** With no failing round trip, an update of an existing invoice returns. *)
Lemma update_invoice_succeeds (invoice_id : string) (invoice_data : InvoiceCreate.t)
    (user_id : string) (db : DB) (existing : Invoice.t) :
  unique_ids db →
  List.find (by_id_and_user invoice_id user_id) (invoices db) = Some existing →
  ∃ db' invoice,
    run (update_invoice invoice_id invoice_data user_id) None db = (db', Ok invoice).
Proof.
  intros Hu Hfind. unfold update_invoice. run_simpl. rewrite Hfind. cbv beta iota.
  store_simpl. rewrite Hfind. cbn [set_update_data]. cbv beta iota. store_simpl.
  match goal with
  | |- context [replace_first _ ?d' _] =>
      destruct (replace_first_narrow (by_id_and_user invoice_id user_id)
                  (by_id invoice_id) d' existing (invoices db)
                  (by_id_and_user_by_id invoice_id user_id)
                  (by_id_unique invoice_id _ Hu) Hfind) as [Hfirst Hsame];
      rewrite <- Hsame, (find_replace_first_id invoice_id existing d' _ Hfirst eq_refl)
  end.
  unfold Invoice_or_AttributeError. run_simpl. eauto.
Qed.

(** C7. With identifiers unique, [update_invoice] fails with 404 (or on
    the read itself) and writes nothing when the tenant has no invoice of
    that id; when it returns, the invoice returned is the stored one, its
    [id], [invoice_number], [created_at] and [user_id] are those of the
    invoice before, and every field of the payload has the submitted
    value. *)
Theorem update_invoice_frame (invoice_id : string) (invoice_data : InvoiceCreate.t)
    (user_id : string) (fault : option nat) (db db' : DB) (r : result Invoice.t) :
  unique_ids db →
  run (update_invoice invoice_id invoice_data user_id) fault db = (db', r) →
  (List.find (by_id_and_user invoice_id user_id) (invoices db) = None →
   db' = db ∧ (fault = None → r = Raise (HTTPException 404 "Invoice not found"))
   ∧ ∃ e, r = Raise e ∧ (e = HTTPException 404 "Invoice not found" ∨ e = DependencyFailure))
  ∧ (∀ invoice, r = Ok invoice →
     ∃ existing,
       List.find (by_id_and_user invoice_id user_id) (invoices db) = Some existing
       ∧ List.find (by_id_and_user invoice_id user_id) (invoices db') = Some invoice
       ∧ Invoice.id invoice = Invoice.id existing
       ∧ Invoice.invoice_number invoice = Invoice.invoice_number existing
       ∧ Invoice.created_at invoice = Invoice.created_at existing
       ∧ Invoice.user_id invoice = Invoice.user_id existing
       ∧ Invoice.client_id invoice = InvoiceCreate.client_id invoice_data
       ∧ Invoice.invoice_date invoice = InvoiceCreate.invoice_date invoice_data
       ∧ Invoice.due_date invoice = InvoiceCreate.due_date invoice_data
       ∧ Invoice.items invoice = InvoiceCreate.items invoice_data
       ∧ Invoice.subtotal invoice = InvoiceCreate.subtotal invoice_data
       ∧ Invoice.cgst invoice = InvoiceCreate.cgst invoice_data
       ∧ Invoice.sgst invoice = InvoiceCreate.sgst invoice_data
       ∧ Invoice.igst invoice = InvoiceCreate.igst invoice_data
       ∧ Invoice.total invoice = InvoiceCreate.total invoice_data
       ∧ Invoice.status invoice = InvoiceCreate.status invoice_data
       ∧ Invoice.invoice_type invoice = InvoiceCreate.invoice_type invoice_data
       ∧ Invoice.is_recurring invoice = InvoiceCreate.is_recurring invoice_data
       ∧ Invoice.notes invoice = InvoiceCreate.notes invoice_data)
  ∧ (fault = None →
     is_Some (List.find (by_id_and_user invoice_id user_id) (invoices db)) →
     is_Ok r = true).
Proof.
  intros Hu Hrun.
  pose proof (wp_run _ _ _ (update_invoice_outcome invoice_id invoice_data user_id db Hu)
                _ _ _ Hrun) as Hout.
  split; [|split].
  - intros Hnone. destruct r as [invoice|e].
    + destruct Hout as (existing & Hex & _). congruence.
    + destruct (Hout Hnone) as [-> He]. split; [done|]. split; [|by exists e].
      intros ->. revert Hrun. unfold update_invoice. run_simpl. rewrite Hnone.
      by intros [= <-].
  - intros invoice ->. destruct Hout as (existing & Hex & Hset & Hstored).
    exists existing. injection Hset as <-. by repeat split.
  - intros -> [existing Hex].
    destruct (update_invoice_succeeds invoice_id invoice_data user_id db existing Hu Hex)
      as (db1 & invoice & Hrun1).
    rewrite Hrun1 in Hrun. by injection Hrun as <- <-.
Qed.

(** Deciding the hypotheses on a concrete store. *)
Lemma settings_record_decide (user_id : string) (db : DB) (p : string) (c : Z) :
  match List.find (settings_of user_id) (settings db) with
  | Some d =>
      bool_decide (d !! "invoice_prefix" = Some (VStr p))
      && bool_decide (d !! "invoice_counter" = Some (VInt c))
  | None => false
  end = true →
  settings_record user_id db p c.
Proof.
  destruct (List.find (settings_of user_id) (settings db)) as [d|] eqn:E; [|done].
  intros [Hp Hc]%andb_true_iff. exists d.
  by apply bool_decide_eq_true in Hp, Hc.
Qed.

Lemma unique_ids_decide (db : DB) :
  bool_decide (NoDup (map Invoice.id (invoices db))) = true → unique_ids db.
Proof. apply bool_decide_eq_true. Qed.

Lemma run_pair {A : Type} (m : M A) (fault : option nat) (db : DB) :
  run m fault db = ((run m fault db).1, (run m fault db).2).
Proof. by destruct (run m fault db). Qed.

(** The store after the two invoices and the quotation of the scenario. *)
Definition db_with_quotation : DB := (serve Ok (take 3 scenario) empty_db).1.

Lemma convert_quotation_to_invoice_spec_witness :
  is_Ok (run (convert_quotation_to_invoice "i3" "T") None db_with_quotation).2 = true.
Proof.
  destruct (convert_quotation_to_invoice_spec "i3" "T" None db_with_quotation _ _
              ltac:(apply unique_ids_decide; vm_compute; reflexivity)
              (run_pair _ _ _)) as (_ & _ & _ & H).
  apply (H eq_refl) with (p := "INV") (c := 4).
  - apply eligible_quotation_find. eexists. vm_compute. reflexivity.
  - apply settings_record_decide. vm_compute. reflexivity.
  - reflexivity.
Defined.

Lemma update_invoice_frame_witness :
  is_Ok (run (update_invoice "i1" (payload "quotation") "T") None db_after_first).2
  = true.
Proof.
  destruct (update_invoice_frame "i1" (payload "quotation") "T" None db_after_first _ _
              ltac:(apply unique_ids_decide; vm_compute; reflexivity)
              (run_pair _ _ _)) as (_ & _ & H).
  apply (H eq_refl). eexists. vm_compute. reflexivity.
Defined.

(** ** A conversion without a settings record *)

(** C9. [convert_quotation_to_invoice] reads the settings and formats
    the number from them without creating the record when it is missing:
    for a tenant that owns the quotation and has no settings record, the
    run ends in an error that is not the 404 ([TypeError], from the
    subscript of [None], when the reads go through) and writes nothing.
    [create_invoice] on the same store inserts the default record and
    returns. *)
Theorem convert_without_settings (invoice_id user_id : string) (fault : option nat)
    (db db' : DB) (r : result Invoice.t) (q : Invoice.t) :
  List.find (quotation_by_id_and_user invoice_id user_id) (invoices db) = Some q →
  List.find (settings_of user_id) (settings db) = None →
  run (convert_quotation_to_invoice invoice_id user_id) fault db = (db', r) →
  db' = db
  ∧ (∃ e, r = Raise e ∧ is_NotFound e = false)
  ∧ (fault = None → r = Raise TypeError)
  ∧ ∀ settings_uuid invoice_uuid now invoice_data,
      ∃ db1 invoice,
        run (create_invoice settings_uuid invoice_uuid now invoice_data user_id) None db
        = (db1, Ok invoice)
        ∧ Invoice.invoice_number invoice = "INV-0001"
        ∧ settings_record user_id db1 "INV" 2.
Proof.
  intros Hq Hs Hrun.
  assert (Hout : db' = db ∧ (∃ e, r = Raise e ∧ is_NotFound e = false)
                 ∧ (fault = None → r = Raise TypeError)).
  { revert Hrun. unfold convert_quotation_to_invoice.
    destruct fault as [[|[|k]]|]; run_simpl; rewrite ?Hq; cbv beta iota; store_simpl;
      rewrite ?Hs; intros [= <- <-]; (split; [done|]); (split; [by eexists|done]). }
  destruct Hout as (-> & He & Hnone). do 3 (split; [done|]).
  intros settings_uuid invoice_uuid now invoice_data.
  assert (Hn : numbering user_id db "INV" 1) by (unfold numbering; by rewrite Hs).
  destruct (create_invoice_succeeds settings_uuid invoice_uuid now invoice_data
              user_id db "INV" 1 Hn eq_refl) as (db1 & invoice & Hrun1).
  exists db1, invoice. split; [done|].
  by pose proof (wp_run _ _ _
    (create_invoice_allocates settings_uuid invoice_uuid now invoice_data
       user_id db "INV" 1 Hn) _ _ _ Hrun1) as (-> & Hrec & _).
Qed.

(** A quotation whose owner has no settings record. *)
Definition db_without_settings : DB :=
  mkDB [] [] [Invoice_of "q1" 0 (payload "quotation") "QUO-0001" "T"] [] [].

Lemma convert_without_settings_witness :
  (run (convert_quotation_to_invoice "q1" "T") None db_without_settings).2
  = Raise TypeError.
Proof.
  destruct (convert_without_settings "q1" "T" None db_without_settings _ _
              (Invoice_of "q1" 0 (payload "quotation") "QUO-0001" "T")
              eq_refl eq_refl (run_pair _ _ _)) as (_ & _ & H & _).
  exact (H eq_refl).
Defined.

(** ** Listings and the dashboard stop at 1000 documents *)

(** What a handler of [n] reads returns: [DependencyFailure] when one of
    its round trips fails, its value otherwise. *)
Definition reads {A : Type} (n : nat) (fault : option nat) (a : A) : result A :=
  match fault with
  | Some k => if (k <? n)%nat then Raise DependencyFailure else Ok a
  | None => Ok a
  end.

Lemma length_take_1000 {A : Type} (l : list A) :
  length (take 1000 l) = Nat.min 1000 (length l).
Proof. apply length_take. Qed.

Lemma run_find_to_list {A : Type} (c : collection A) (filter : A → bool) (n : nat)
    (fault : option nat) (db : DB) :
  run (find_to_list c filter n) fault db
  = (db, reads 1 fault (take n (List.filter filter (docs c db)))).
Proof. by destruct fault as [[|k]|]. Qed.

Lemma run_get_dashboard_stats (user_id : string) (fault : option nat) (db : DB) :
  run (get_dashboard_stats user_id) fault db
  = (db, reads 3 fault
           (stats_of (take 1000 (List.filter (invoices_of user_id) (invoices db)))
              (take 1000 (List.filter (expenses_of user_id) (expenses db)))
              (Z.of_nat (length (List.filter (clients_of user_id) (clients db)))))).
Proof. by destruct fault as [[|[|[|k]]]|]. Qed.

(** C10. Each listing returns the first 1000 of the tenant's documents
    and nothing of the rest, and the dashboard computes its revenue,
    pending, overdue and expense totals and its [invoice_count] from the
    first 1000 invoices and the first 1000 expenses of the tenant: a
    tenant with more has the excess left out without an error. *)
Theorem listings_stop_at_1000 (user_id : string) (fault : option nat) (db : DB) :
  let mine := List.filter (invoices_of user_id) (invoices db) in
  let spent := List.filter (expenses_of user_id) (expenses db) in
  run (get_invoices user_id) fault db = (db, reads 1 fault (take 1000 mine))
  ∧ run (get_expenses user_id) fault db = (db, reads 1 fault (take 1000 spent))
  ∧ run (get_clients user_id) fault db
    = (db, reads 1 fault (take 1000 (List.filter (clients_of user_id) (clients db))))
  ∧ run (get_services user_id) fault db
    = (db, reads 1 fault (take 1000 (List.filter (services_of user_id) (services db))))
  ∧ (∃ stats,
       run (get_dashboard_stats user_id) fault db = (db, reads 3 fault stats)
       ∧ total_revenue stats = sum (totals_with_status "paid" (take 1000 mine))
       ∧ pending_amount stats = sum (totals_with_status "pending" (take 1000 mine))
       ∧ overdue_amount stats = sum (totals_with_status "overdue" (take 1000 mine))
       ∧ total_expenses stats = sum (map Expense.amount (take 1000 spent))
       ∧ invoice_count stats = Z.of_nat (Nat.min 1000 (length mine))
       ∧ invoice_count stats ≤ 1000)
  ∧ length (take 1000 mine) = Nat.min 1000 (length mine)
  ∧ length (take 1000 spent) = Nat.min 1000 (length spent)
  ∧ ((1000 < length mine)%nat →
     length (take 1000 mine) = 1000%nat ∧ mine = take 1000 mine ++ drop 1000 mine
     ∧ drop 1000 mine ≠ []).
Proof.
  intros mine spent.
  split; [apply run_find_to_list|]. split; [apply run_find_to_list|].
  split; [apply run_find_to_list|]. split; [apply run_find_to_list|].
  split.
  { eexists. split; [apply run_get_dashboard_stats|].
    cbn [total_revenue pending_amount overdue_amount total_expenses invoice_count
         stats_of].
    do 4 (split; [done|]). fold mine. rewrite length_take_1000. split; [done|]. lia. }
  split; [apply length_take_1000|]. split; [apply length_take_1000|].
  intros Hmany. rewrite length_take_1000. split; [lia|].
  split; [by rewrite take_drop|].
  intros Hnil. apply (f_equal length) in Hnil. rewrite length_drop in Hnil.
  simpl in Hnil. lia.
Qed.

(** A tenant with 1001 invoices is shown 1000 of them. *)
Example get_invoices_1001 :
  let db := mkDB [] [] (replicate 1001 first_invoice) [] [] in
  (λ r, match r with Ok l => Some (length l) | Raise _ => None end)
    (run (get_invoices "T") None db).2
  = Some 1000%nat.
Proof. vm_compute. reflexivity. Qed.

(** ** The type of an invoice over a sequence of calls *)

(** The identifier a request gives to the invoice it creates. *)
Definition created_ids (r : request) : list string :=
  match r with
  | CreateInvoice _ invoice_uuid _ _ => [invoice_uuid]
  | _ => []
  end.

Definition created_by (calls : list call) : list string :=
  flat_map (λ c, created_ids (req c)) calls.

Definition is_update_invoice (r : request) : bool :=
  match r with
  | UpdateInvoice _ _ => true
  | _ => false
  end.

Lemma delete_first_sublist {A : Type} (p : A → bool) (l : list A) :
  delete_first p l `sublist_of` l.
Proof.
  induction l as [|x l IH]; simpl; [constructor|].
  destruct (p x); by constructor.
Qed.

Lemma In_delete_first {A : Type} (p : A → bool) (l : list A) (x : A) :
  In x (delete_first p l) → In x l.
Proof.
  induction l as [|y l IH]; simpl; [done|].
  destruct (p y); simpl; [auto|]. intros [->|H]; auto.
Qed.

Lemma set_type_and_number_id (invoice_type invoice_number : string) (d d' : Invoice.t) :
  set_type_and_number invoice_type invoice_number d = Ok d' →
  Invoice.id d' = Invoice.id d ∧ Invoice.user_id d' = Invoice.user_id d
  ∧ Invoice.invoice_type d' = invoice_type.
Proof. by intros [= <-]. Qed.

Lemma map_id_replace_first (p : Invoice.t → bool) (d d' : Invoice.t)
    (invoice_id : string) (l : list Invoice.t) :
  (∀ x, p x = true → Invoice.id x = invoice_id) →
  List.find p l = Some d →
  Invoice.id d' = Invoice.id d →
  map Invoice.id (replace_first p d' l) = map Invoice.id l.
Proof.
  intros Hp Hd Hid. apply map_replace_first. intros x Hx.
  rewrite Hid, (Hp x Hx). symmetry. apply Hp. by apply (find_Some_true _ l).
Qed.

Lemma by_id_id (invoice_id : string) (x : Invoice.t) :
  by_id invoice_id x = true → Invoice.id x = invoice_id.
Proof. apply bool_decide_eq_true. Qed.

Lemma by_id_and_user_id (invoice_id user_id : string) (x : Invoice.t) :
  by_id_and_user invoice_id user_id x = true → Invoice.id x = invoice_id.
Proof. intros H. by apply by_id_id, (by_id_and_user_by_id invoice_id user_id). Qed.

Lemma map_sublist {A B : Type} (f : A → B) (l1 l2 : list A) :
  l1 `sublist_of` l2 → map f l1 `sublist_of` map f l2.
Proof. induction 1; simpl; by constructor. Qed.

(** The filter of an update selects by [id], and the update keeps it. *)
Ltac same_ids :=
  lazymatch goal with
  | Hd : List.find (by_id_and_user ?i ?u) ?l = Some ?d,
    Hset : set_update_data _ ?d = Ok ?d'
    |- context [map Invoice.id (replace_first (by_id_and_user ?i ?u) ?d' ?l)] =>
      rewrite (map_id_replace_first (by_id_and_user i u) d d' i l
                 (by_id_and_user_id i u) Hd
                 (proj2 (set_update_data_filter i u _ d d' Hset)))
  | Hd : List.find (by_id ?i) ?l = Some ?d,
    Hset : set_type_and_number _ _ ?d = Ok ?d'
    |- context [map Invoice.id (replace_first (by_id ?i) ?d' ?l)] =>
      rewrite (map_id_replace_first (by_id i) d d' i l (by_id_id i) Hd
                 (proj1 (set_type_and_number_id _ _ d d' Hset)))
  end.

(** The identifiers in the store after a call are among those before and
    the one the call creates. *)
Lemma handle_ids (validate : document → result document) (u : string) (r : request)
    (db : DB) :
  wp (handle validate u r)
     (λ db1 _,
        map Invoice.id (invoices db1)
        `sublist_of` map Invoice.id (invoices db) ++ created_ids r) db.
Proof.
  destruct r; unfold handle, create_invoice, get_invoices, get_invoice,
    update_invoice, delete_invoice, convert_quotation_to_invoice, get_settings,
    update_settings, get_dashboard_stats; wp_go.
  all: rewrite ?app_nil_r; cbn [created_ids]; try done.
  all: try (by apply sublist_inserts_r).
  all: try (by rewrite map_app).
  all: try (by same_ids).
  by apply map_sublist, delete_first_sublist.
Qed.

Lemma handle_types (validate : document → result document) (u : string) (r : request)
    (db : DB) :
  is_update_invoice r = false →
  wp (handle validate u r)
     (λ db1 _,
        ∀ y, In y (invoices db1) →
             In y (invoices db) ∨ Invoice.invoice_type y = "invoice"
             ∨ In (Invoice.id y) (created_ids r)) db.
Proof.
  intros Hr.
  destruct r; try done; unfold handle, create_invoice, get_invoices, get_invoice,
    delete_invoice, convert_quotation_to_invoice, get_settings,
    update_settings, get_dashboard_stats; wp_go.
  all: intros; try (by auto).
  all: lazymatch goal with
       | Hy : In _ (_ ++ [_]) |- _ =>
           apply in_app_or in Hy as [Hy|[<-|[]]]; [by auto|right; right; by left]
       | Hy : In _ (delete_first _ _) |- _ =>
           apply In_delete_first in Hy; by auto
       | Hy : In _ (replace_first _ _ _), Hset : set_type_and_number _ _ _ = Ok _ |- _ =>
           apply In_replace_first in Hy as [->|Hy]; [|by auto]; right; left;
           by destruct (set_type_and_number_id _ _ _ _ Hset) as (_ & _ & ?)
       end.
Qed.

Lemma created_by_cons (c : call) (calls : list call) :
  created_by (c :: calls) = created_ids (req c) ++ created_by calls.
Proof. reflexivity. Qed.

Lemma invoice_type_kept (validate : document → result document) (calls : list call) :
  ∀ (db : DB) (invoice_id : string),
    NoDup (map Invoice.id (invoices db) ++ created_by calls) →
    Forall (λ c, is_update_invoice (req c) = false) calls →
    ¬ In invoice_id (created_by calls) →
    (∀ y, In y (invoices db) → Invoice.id y = invoice_id →
          Invoice.invoice_type y = "invoice") →
    ∀ y, In y (invoices (serve validate calls db).1) → Invoice.id y = invoice_id →
         Invoice.invoice_type y = "invoice".
Proof.
  induction calls as [|c calls IH]; intros db invoice_id Hnodup Hcalls Hnew Hdb;
    [done|].
  rewrite serve_cons. cbn [fst].
  inversion_clear Hcalls as [|? ? Hc Hcalls'].
  rewrite created_by_cons in Hnodup, Hnew.
  pose proof (wp_serve1 validate c db _ (handle_ids validate (caller c) (req c) db))
    as Hids.
  pose proof (wp_serve1 validate c db _
                (handle_types validate (caller c) (req c) db Hc)) as Htypes.
  cbv beta in Hids, Htypes.
  apply IH; [|done| |].
  - apply (sublist_NoDup _ _ Hnodup). rewrite app_assoc.
    by apply sublist_app.
  - intros H. apply Hnew. apply in_or_app. by right.
  - intros y Hy Hid. destruct (Htypes y Hy) as [H|[H|H]]; [by apply Hdb|done|].
    destruct Hnew. apply in_or_app. left. by rewrite <- Hid.
Qed.

(** C5, as the code has it. [update_invoice] writes the [invoice_type] of
    its payload, whatever the type before. Every other route leaves the
    type of a stored invoice alone, but for the conversion, which sets it
    to ["invoice"]: over a sequence of calls with no invoice update (and
    identifiers that are unique, those of the creations included), an
    invoice of type ["invoice"] is never found with the type
    ["quotation"] again. *)
Theorem invoice_type_terminal (validate : document → result document)
    (calls : list call) (db : DB) (x : Invoice.t) :
  NoDup (map Invoice.id (invoices db) ++ created_by calls) →
  Forall (λ c, is_update_invoice (req c) = false) calls →
  In x (invoices db) →
  Invoice.invoice_type x = "invoice" →
  ∀ y, In y (invoices (serve validate calls db).1) →
       Invoice.id y = Invoice.id x →
       Invoice.invoice_type y = "invoice".
Proof.
  intros Hnodup Hcalls Hx Htype.
  apply NoDup_app in Hnodup as Hparts. destruct Hparts as (Hdb & Hfresh & _).
  apply (invoice_type_kept validate calls db (Invoice.id x) Hnodup Hcalls).
  - intros Hin. apply (Hfresh (Invoice.id x)); apply list_elem_of_In; [|done].
    by apply in_map.
  - intros y Hy Hid. by rewrite (same_id_same_invoice _ y x Hdb Hy Hx Hid).
Qed.

Definition after_first : list call :=
  [ mkCall "T" (CreateInvoice "s3" "i3" 2 (payload "quotation")) None;
    mkCall "T" (ConvertToInvoice "i3") None;
    mkCall "T" (DeleteInvoice "i3") None;
    mkCall "B" (ConvertToInvoice "i1") None ].

Lemma invoice_type_terminal_witness :
  Invoice.invoice_type first_invoice = "invoice".
Proof.
  apply (invoice_type_terminal Ok after_first db_after_first first_invoice).
  - apply (bool_decide_unpack _). vm_compute. exact I.
  - repeat constructor.
  - left. reflexivity.
  - reflexivity.
  - vm_compute. left. reflexivity.
  - reflexivity.
Defined.

(** The specification has no way back from ["invoice"]. An update whose
    payload says ["quotation"] is one. *)
Lemma update_invoice_reverts_type :
  Invoice.invoice_type <$> List.find (by_id "i1") (invoices db_after_first)
  = Some "invoice"
  ∧ Invoice.invoice_type
      <$> List.find (by_id "i1")
            (invoices
               (serve Ok [mkCall "T" (UpdateInvoice "i1" (payload "quotation")) None]
                  db_after_first).1)
    = Some "quotation".
Proof. split; vm_compute; reflexivity. Qed.

(** ** The settings records over a sequence of calls *)

(** How many settings records a tenant has, and the counter the tenant's
    allocations read. *)
Definition count_in (u : string) (l : list document) : nat :=
  length (List.filter (settings_of u) l).

Definition counter_in (u : string) (l : list document) : option Z :=
  match List.find (settings_of u) l with
  | Some d =>
      match d !! "invoice_counter" with
      | Some (VInt z) => Some z
      | _ => None
      end
  | None => None
  end.

Definition settings_count (u : string) (db : DB) : nat := count_in u (settings db).
Definition counter_of (u : string) (db : DB) : option Z := counter_in u (settings db).

(** From [l] to [l1] no tenant loses or gains a record, but for the first
    record of a tenant that had none, and no counter goes down. *)
Definition settled_in (l l1 : list document) : Prop :=
  ∀ u,
    (count_in u l1 = count_in u l ∨ (count_in u l = 0%nat ∧ count_in u l1 = 1%nat))
    ∧ (∀ c, counter_in u l = Some c → ∃ c1, counter_in u l1 = Some c1 ∧ c ≤ c1).

Definition settled (db db1 : DB) : Prop := settled_in (settings db) (settings db1).

Lemma settled_in_refl (l : list document) : settled_in l l.
Proof. intros u. split; [by left|]. intros c Hc. exists c. split; [done|lia]. Qed.

Lemma settled_in_trans (l l1 l2 : list document) :
  settled_in l l1 → settled_in l1 l2 → settled_in l l2.
Proof.
  intros H1 H2 u. destruct (H1 u) as [Hn1 Hc1], (H2 u) as [Hn2 Hc2]. split; [lia|].
  intros c Hc. destruct (Hc1 c Hc) as (c1 & Hc1' & ?).
  destruct (Hc2 c1 Hc1') as (c2 & Hc2' & ?). exists c2. split; [done|lia].
Qed.

Lemma find_None_filter {A : Type} (p : A → bool) (l : list A) :
  List.find p l = None → List.filter p l = [].
Proof.
  induction l as [|x l IH]; simpl; [done|]. destruct (p x); [done|apply IH].
Qed.

Lemma settled_in_snoc (v : string) (l : list document) (d : document) :
  List.find (settings_of v) l = None →
  d !! "user_id" = Some (VStr v) →
  settled_in l (l ++ [d]).
Proof.
  intros Hnone Hd u. unfold count_in, counter_in.
  rewrite List.filter_app, length_app, find_snoc. cbn [List.filter].
  assert (Hu : settings_of u d = bool_decide (v = u)).
  { unfold settings_of. rewrite Hd. apply bool_decide_ext. naive_solver. }
  rewrite Hu. case_bool_decide as Huv.
  - subst u. rewrite Hnone, (find_None_filter _ _ Hnone). split; [right; split; reflexivity|done].
  - simpl. split; [left; lia|]. intros c Hc. exists c. split; [|lia].
    by destruct (List.find (settings_of u) l).
Qed.

Lemma filter_replace_first_length {A : Type} (p q : A → bool) (d' : A) (l : list A) :
  (∀ x, q x = true → p x = p d') →
  length (List.filter p (replace_first q d' l)) = length (List.filter p l).
Proof.
  intros H. induction l as [|x l IH]; simpl; [done|].
  destruct (q x) eqn:E; simpl.
  - rewrite (H x E). by destruct (p d').
  - destruct (p x); simpl; by rewrite IH.
Qed.

Lemma settled_in_replace (v : string) (l : list document) (d d' : document) :
  List.find (settings_of v) l = Some d →
  d' !! "user_id" = d !! "user_id" →
  (∀ c, d !! "invoice_counter" = Some (VInt c) →
        ∃ c1, d' !! "invoice_counter" = Some (VInt c1) ∧ c ≤ c1) →
  settled_in l (replace_first (settings_of v) d' l).
Proof.
  intros Hd Hid Hc u.
  assert (Hv : d !! "user_id" = Some (VStr v)).
  { by apply find_Some_true, bool_decide_eq_true in Hd. }
  assert (Hd' : ∀ w, settings_of w d' = settings_of w d).
  { intros w. unfold settings_of. by rewrite Hid. }
  unfold count_in, counter_in. split.
  - left. apply filter_replace_first_length. intros x Hx%bool_decide_eq_true.
    rewrite Hd'. unfold settings_of. by rewrite Hx, Hv.
  - destruct (decide (u = v)) as [->|Huv].
    + rewrite Hd, find_replace_first_same; [| |by rewrite Hd].
      * intros c Hcnt. destruct (d !! "invoice_counter") as [[| |z|]|] eqn:E; try done.
        injection Hcnt as <-. destruct (Hc z eq_refl) as (c1 & -> & ?). by exists c1.
      * rewrite Hd'. by apply (find_Some_true _ l).
    + rewrite (find_replace_first_other (settings_of u) (settings_of v)).
      * intros c Hcnt. exists c. split; [done|lia].
      * intros x. by apply settings_of_disjoint.
      * rewrite Hd'. apply (settings_of_disjoint v u); [done|].
        by apply (find_Some_true _ l).
Qed.

Lemma settled_in_inc (v : string) (l : list document) (d d' : document) :
  List.find (settings_of v) l = Some d →
  inc "invoice_counter" 1 d = Ok d' →
  settled_in l (replace_first (settings_of v) d' l).
Proof.
  intros Hd Hinc. apply (settled_in_replace v l d d' Hd).
  - by apply (inc_other_field "invoice_counter" "user_id" 1).
  - intros c Hc. exists (c + 1). split; [|lia].
    by apply (inc_counter "invoice_counter" 1 c d).
Qed.

Lemma settled_in_set (v : string) (l : list document) (data d d' : document) :
  data !! "user_id" = None → data !! "invoice_counter" = None →
  List.find (settings_of v) l = Some d →
  set data d = Ok d' →
  settled_in l (replace_first (settings_of v) d' l).
Proof.
  intros Hu Hc Hd [= <-]. apply (settled_in_replace v l d _ Hd).
  - by rewrite lookup_union_r.
  - intros c Hcnt. exists c. split; [|lia]. by rewrite lookup_union_r.
Qed.

Lemma settled_in_upsert (v : string) (l : list document) (data d' : document) :
  data !! "user_id" = None →
  List.find (settings_of v) l = None →
  set data {[ "user_id" := VStr v ]} = Ok d' →
  settled_in l (l ++ [d']).
Proof.
  intros Hu Hnone [= <-]. apply (settled_in_snoc v); [done|].
  rewrite lookup_union_r by done. apply lookup_singleton_eq.
Qed.

(** A settings update that carries neither the owner nor the counter. *)
Definition keeps_counter (r : request) : bool :=
  match r with
  | UpdateSettings settings_data =>
      bool_decide (settings_data !! "user_id" = None)
      && bool_decide (settings_data !! "invoice_counter" = None)
  | _ => true
  end.

Ltac settled_step :=
  lazymatch goal with
  | |- settled_in ?l ?l => apply settled_in_refl
  | Hinc : inc _ _ ?d = Ok ?d', Hd : List.find (settings_of ?v) ?E = Some ?d
    |- settled_in ?l (replace_first (settings_of ?v) ?d' ?E) =>
      apply (settled_in_trans l E); [|by apply (settled_in_inc v E d d')]
  | Hset : set ?data ?d = Ok ?d', Hd : List.find (settings_of ?v) ?E = Some ?d
    |- settled_in ?l (replace_first (settings_of ?v) ?d' ?E) =>
      apply (settled_in_trans l E); [|by apply (settled_in_set v E data d d')]
  | Hnone : List.find (settings_of ?v) ?E = None
    |- settled_in ?l (?E ++ [Settings ?id ?v]) =>
      apply (settled_in_trans l E);
      [|by apply (settled_in_snoc v E _ Hnone), Settings_user_id]
  | Hset : set ?data _ = Ok ?d', Hnone : List.find (settings_of ?v) ?E = None
    |- settled_in ?l (?E ++ [?d']) =>
      apply (settled_in_trans l E); [|by apply (settled_in_upsert v E data d')]
  end.

Lemma handle_settled (validate : document → result document) (u : string) (r : request)
    (db : DB) :
  keeps_counter r = true →
  wp (handle validate u r) (λ db1 _, settled db db1) db.
Proof.
  intros Hr.
  destruct r; unfold handle, create_invoice, get_invoices, get_invoice,
    update_invoice, delete_invoice, convert_quotation_to_invoice, get_settings,
    update_settings, get_dashboard_stats;
    try (cbn [keeps_counter] in Hr;
         apply andb_true_iff in Hr as [Hku%bool_decide_eq_true Hkc%bool_decide_eq_true]);
    wp_go; unfold settled; store_simpl; repeat settled_step.
Qed.

Lemma serve_settled (validate : document → result document) (calls : list call) :
  ∀ db, Forall (λ c, keeps_counter (req c) = true) calls →
        settled db (serve validate calls db).1.
Proof.
  induction calls as [|c calls IH]; intros db Hcalls; [apply settled_in_refl|].
  inversion_clear Hcalls as [|? ? Hc Hcalls'].
  rewrite serve_cons. cbn [fst].
  apply (settled_in_trans _ (settings (serve1 validate c db).1)).
  - by apply (wp_serve1 validate c db _ (handle_settled validate (caller c) (req c) db Hc)).
  - by apply IH.
Qed.

Lemma run_fmap {A B : Type} (f : A → B) (m : M A) (fault : option nat) (db db1 : DB)
    (r : result A) :
  run m fault db = (db1, r) →
  run (f <$> m) fault db
  = (db1, match r with Ok a => Ok (f a) | Raise e => Raise e end).
Proof.
  unfold run, fmap, M_fmap, mbind, M_bind, mret, M_ret.
  destruct (m fault db) as [[f0 d0] [a|e]]; by intros [= <- <-].
Qed.

Lemma find_Some_count (u : string) (l : list document) (d : document) :
  List.find (settings_of u) l = Some d → (1 ≤ count_in u l)%nat.
Proof.
  unfold count_in. induction l as [|x l IH]; simpl; [done|].
  destruct (settings_of u x); simpl; [lia|done].
Qed.

(** C6, as the code has it. Over a sequence of creations, conversions,
    reads, invoice updates and deletions, and of settings updates that
    carry neither [user_id] nor [invoice_counter], a tenant that has one
    settings record keeps exactly one, a tenant that has none gets its one
    record from its first successful creation, and the tenant's counter
    never goes down. (A settings update writes the fields it is given: one
    that carries [invoice_counter] sets the counter to that value.) *)
Theorem settings_kept (validate : document → result document) (calls : list call)
    (db : DB) (u : string) :
  Forall (λ c, keeps_counter (req c) = true) calls →
  (settings_count u db = 1%nat → settings_count u (serve validate calls db).1 = 1%nat)
  ∧ ((settings_count u db ≤ 1)%nat →
     (settings_count u (serve validate calls db).1 ≤ 1)%nat)
  ∧ (∀ c, counter_of u db = Some c →
          ∃ c', counter_of u (serve validate calls db).1 = Some c' ∧ c ≤ c')
  ∧ (∀ settings_uuid invoice_uuid now invoice_data fault db1 invoice,
       settings_count u db = 0%nat →
       run (create_invoice settings_uuid invoice_uuid now invoice_data u) fault db
       = (db1, Ok invoice) →
       settings_count u db1 = 1%nat).
Proof.
  intros Hcalls. destruct (serve_settled validate calls db Hcalls u) as [Hn Hc].
  fold (settings_count u db) in Hn. fold (settings_count u (serve validate calls db).1) in Hn.
  split; [lia|]. split; [lia|]. split; [exact Hc|].
  intros settings_uuid invoice_uuid now invoice_data fault db1 invoice Hzero Hrun.
  assert (Hnone : List.find (settings_of u) (settings db) = None).
  { destruct (List.find (settings_of u) (settings db)) as [d|] eqn:E; [|done].
    apply find_Some_count in E. unfold settings_count in Hzero. lia. }
  assert (Hnum : numbering u db "INV" 1) by (unfold numbering; by rewrite Hnone).
  pose proof (wp_run _ _ _
    (create_invoice_allocates settings_uuid invoice_uuid now invoice_data u db
       "INV" 1 Hnum) _ _ _ Hrun) as (_ & (d & Hd & _) & _).
  apply find_Some_count in Hd.
  pose proof (wp_run _ _ _
    (handle_settled validate u
       (CreateInvoice settings_uuid invoice_uuid now invoice_data) db eq_refl)
    fault db1 (Ok (AnInvoice invoice))
    (run_fmap AnInvoice _ fault db db1 (Ok invoice) Hrun) u) as [Hcount _].
  fold (settings_count u db) (settings_count u db1) in Hcount.
  unfold settings_count in *. lia.
Qed.

Lemma settings_kept_witness :
  (settings_count "T" (serve Ok scenario empty_db).1 ≤ 1)%nat.
Proof.
  apply (settings_kept Ok scenario empty_db "T").
  - repeat constructor.
  - apply Nat.le_0_l.
Defined.

(** The payload of [test_update_settings] in [backend_test.py]. *)
Definition test_settings_data : document :=
  list_to_map
    [ ("invoice_prefix", VStr "INV");
      ("invoice_counter", VInt 1);
      ("company_name", VStr "IMAGICITY UPDATED") ].

(** The specification has the counter never decrease. After the first
    invoice of ["T"] the counter is 2; the settings update of the
    repository's own test puts it back to 1. *)
Lemma update_settings_lowers_counter :
  counter_of "T" db_after_first = Some 2
  ∧ counter_of "T"
      (serve Ok [mkCall "T" (UpdateSettings test_settings_data) None] db_after_first).1
    = Some 1.
Proof. split; vm_compute; reflexivity. Qed.

(** A settings update that carries [user_id] hands the record over. *)
Example update_settings_rekeys :
  settings_count "T" db_after_first = 1%nat
  ∧ settings_count "T"
      (serve Ok [mkCall "T" (UpdateSettings {[ "user_id" := VStr "B" ]}) None]
         db_after_first).1
    = 0%nat.
Proof. split; vm_compute; reflexivity. Qed.

(** ** Tenant isolation *)

(** The invoices a response carries all belong to [u]. *)
Definition owned_by (u : string) (response : response) : Prop :=
  match response with
  | AnInvoice invoice => Invoice.user_id invoice = u
  | SomeInvoices invoices => Forall (λ invoice, Invoice.user_id invoice = u) invoices
  | _ => True
  end.

(** The invoice a request names. *)
Definition target (r : request) : option string :=
  match r with
  | GetInvoice invoice_id | UpdateInvoice invoice_id _ | DeleteInvoice invoice_id
  | ConvertToInvoice invoice_id => Some invoice_id
  | _ => None
  end.

Lemma filter_snoc {A : Type} (p : A → bool) (l : list A) (x : A) :
  List.filter p (l ++ [x]) = List.filter p l ++ (if p x then [x] else []).
Proof. by rewrite List.filter_app. Qed.

Lemma filter_replace_first_other {A : Type} (q p : A → bool) (d' : A) (l : list A) :
  (∀ x, p x = true → q x = false) → q d' = false →
  List.filter q (replace_first p d' l) = List.filter q l.
Proof.
  intros Hpq Hd'. induction l as [|x l IH]; simpl; [done|].
  destruct (p x) eqn:E; simpl.
  - by rewrite Hd', (Hpq x E).
  - by rewrite IH.
Qed.

Lemma filter_delete_first_other {A : Type} (q p : A → bool) (l : list A) :
  (∀ x, p x = true → q x = false) →
  List.filter q (delete_first p l) = List.filter q l.
Proof.
  intros Hpq. induction l as [|x l IH]; simpl; [done|].
  destruct (p x) eqn:E; simpl.
  - by rewrite (Hpq x E).
  - by rewrite IH.
Qed.

Lemma invoices_of_disjoint (a b : string) (x : Invoice.t) :
  a ≠ b → invoices_of b x = true → invoices_of a x = false.
Proof.
  unfold invoices_of. intros Hab H%bool_decide_eq_true.
  apply bool_decide_eq_false. congruence.
Qed.

Lemma by_id_and_user_invoices_of (invoice_id user_id : string) (x : Invoice.t) :
  by_id_and_user invoice_id user_id x = true → invoices_of user_id x = true.
Proof. unfold by_id_and_user, invoices_of. by intros [_ ?]%andb_true_iff. Qed.

Lemma quotation_by_id_and_user_weaken (invoice_id user_id : string) (x : Invoice.t) :
  quotation_by_id_and_user invoice_id user_id x = true →
  by_id_and_user invoice_id user_id x = true.
Proof. unfold quotation_by_id_and_user. by intros [? _]%andb_true_iff. Qed.

Lemma Forall_take_filter_invoices_of (user_id : string) (n : nat) (l : list Invoice.t) :
  Forall (λ invoice, Invoice.user_id invoice = user_id)
    (take n (List.filter (invoices_of user_id) l)).
Proof.
  apply Forall_take, Forall_forall. intros x Hx%list_elem_of_In.
  apply List.filter_In in Hx as [_ Hx]. by apply bool_decide_eq_true in Hx.
Qed.

Lemma filter_other_create (a b : string) (l : list Invoice.t) (id : string)
    (now : datetime) (invoice_data : InvoiceCreate.t) (number : string) :
  a ≠ b →
  List.filter (invoices_of a) (l ++ [Invoice_of id now invoice_data number b])
  = List.filter (invoices_of a) l.
Proof.
  intros Hab. rewrite filter_snoc. unfold invoices_of at 2. cbn [Invoice.user_id Invoice_of].
  rewrite bool_decide_eq_false_2 by congruence. apply app_nil_r.
Qed.

Lemma filter_other_update (a b invoice_id : string) (invoice_data : InvoiceCreate.t)
    (d d' : Invoice.t) (l : list Invoice.t) :
  a ≠ b →
  List.find (by_id_and_user invoice_id b) l = Some d →
  set_update_data invoice_data d = Ok d' →
  List.filter (invoices_of a) (replace_first (by_id_and_user invoice_id b) d' l)
  = List.filter (invoices_of a) l.
Proof.
  intros Hab Hd Hset. apply filter_replace_first_other.
  - intros x Hx. apply (invoices_of_disjoint a b); [done|].
    by apply (by_id_and_user_invoices_of invoice_id).
  - apply (invoices_of_disjoint a b); [done|].
    apply (by_id_and_user_invoices_of invoice_id).
    rewrite (proj1 (set_update_data_filter invoice_id b _ _ _ Hset)).
    by apply (find_Some_true _ l).
Qed.

Lemma filter_other_delete (a b invoice_id : string) (l : list Invoice.t) :
  a ≠ b →
  List.filter (invoices_of a) (delete_first (by_id_and_user invoice_id b) l)
  = List.filter (invoices_of a) l.
Proof.
  intros Hab. apply filter_delete_first_other. intros x Hx.
  apply (invoices_of_disjoint a b); [done|].
  by apply (by_id_and_user_invoices_of invoice_id).
Qed.

(** With identifiers unique, the write by [id] alone of the conversion
    lands on the quotation its first read found. *)
Lemma convert_target (invoice_id user_id : string) (q d : Invoice.t)
    (l : list Invoice.t) :
  NoDup (map Invoice.id l) →
  List.find (quotation_by_id_and_user invoice_id user_id) l = Some q →
  List.find (by_id invoice_id) l = Some d →
  d = q
  ∧ ∀ d', replace_first (by_id invoice_id) d' l
          = replace_first (quotation_by_id_and_user invoice_id user_id) d' l.
Proof.
  intros Hu Hq Hd. split.
  - destruct (replace_first_narrow (quotation_by_id_and_user invoice_id user_id)
                (by_id invoice_id) q q l (quotation_by_id invoice_id user_id)
                (by_id_unique invoice_id _ Hu) Hq) as [Hfirst _].
    congruence.
  - intros d'.
    by destruct (replace_first_narrow (quotation_by_id_and_user invoice_id user_id)
                   (by_id invoice_id) d' q l (quotation_by_id invoice_id user_id)
                   (by_id_unique invoice_id _ Hu) Hq) as [_ ?].
Qed.

Lemma filter_other_convert (a b invoice_id number : string) (q d d' : Invoice.t)
    (l : list Invoice.t) :
  a ≠ b →
  NoDup (map Invoice.id l) →
  List.find (quotation_by_id_and_user invoice_id b) l = Some q →
  List.find (by_id invoice_id) l = Some d →
  set_type_and_number "invoice" number d = Ok d' →
  List.filter (invoices_of a) (replace_first (by_id invoice_id) d' l)
  = List.filter (invoices_of a) l.
Proof.
  intros Hab Hu Hq Hd Hset.
  destruct (convert_target invoice_id b q d l Hu Hq Hd) as [-> Hsame].
  rewrite Hsame. apply filter_replace_first_other.
  - intros x Hx. apply (invoices_of_disjoint a b); [done|].
    by apply (by_id_and_user_invoices_of invoice_id),
             quotation_by_id_and_user_weaken.
  - apply (invoices_of_disjoint a b); [done|]. unfold invoices_of.
    destruct (set_type_and_number_id _ _ _ _ Hset) as (_ & -> & _).
    apply (by_id_and_user_invoices_of invoice_id), quotation_by_id_and_user_weaken.
    by apply (find_Some_true _ l).
Qed.

(** The record read back after a write is the one written. *)
Lemma update_read_back (invoice_id user_id : string) (invoice_data : InvoiceCreate.t)
    (d d' t : Invoice.t) (l : list Invoice.t) :
  NoDup (map Invoice.id l) →
  List.find (by_id_and_user invoice_id user_id) l = Some d →
  set_update_data invoice_data d = Ok d' →
  List.find (by_id invoice_id) (replace_first (by_id_and_user invoice_id user_id) d' l)
  = Some t →
  t = d' ∧ Invoice.user_id t = user_id.
Proof.
  intros Hu Hd Hset Hback.
  destruct (set_update_data_filter invoice_id user_id _ _ _ Hset) as [Hfilter Hid].
  destruct (replace_first_narrow (by_id_and_user invoice_id user_id)
              (by_id invoice_id) d' d l (by_id_and_user_by_id invoice_id user_id)
              (by_id_unique invoice_id _ Hu) Hd) as [Hfirst Hsame].
  rewrite <- Hsame, (find_replace_first_id invoice_id d d' _ Hfirst Hid) in Hback.
  injection Hback as <-. split; [done|].
  apply find_Some_true in Hd. rewrite <- Hfilter in Hd.
  by apply by_id_and_user_invoices_of, bool_decide_eq_true in Hd.
Qed.

Lemma convert_read_back (invoice_id user_id number : string) (q d d' t : Invoice.t)
    (l : list Invoice.t) :
  NoDup (map Invoice.id l) →
  List.find (quotation_by_id_and_user invoice_id user_id) l = Some q →
  List.find (by_id invoice_id) l = Some d →
  set_type_and_number "invoice" number d = Ok d' →
  List.find (by_id invoice_id) (replace_first (by_id invoice_id) d' l) = Some t →
  t = d' ∧ Invoice.user_id t = user_id.
Proof.
  intros Hu Hq Hd Hset Hback.
  destruct (set_type_and_number_id _ _ _ _ Hset) as (Hid & Huser & _).
  rewrite (find_replace_first_id invoice_id d d' _ Hd Hid) in Hback.
  injection Hback as <-. split; [done|]. rewrite Huser.
  destruct (convert_target invoice_id user_id q d l Hu Hq Hd) as [-> _].
  apply find_Some_true in Hq.
  by apply quotation_by_id_and_user_weaken, by_id_and_user_invoices_of,
           bool_decide_eq_true in Hq.
Qed.

(** What a call of [b] leaves of the invoices of another tenant [a], and
    whose invoices it returns. *)
Lemma handle_isolated (validate : document → result document) (a b : string)
    (r : request) (db : DB) :
  a ≠ b → unique_ids db →
  wp (handle validate b r)
     (λ db' res,
        List.filter (invoices_of a) (invoices db')
        = List.filter (invoices_of a) (invoices db)
        ∧ match res with
          | Ok response => owned_by b response
          | Raise _ => True
          end) db.
Proof.
  intros Hab Hu.
  destruct r; unfold handle, create_invoice, get_invoices, get_invoice,
    update_invoice, delete_invoice, convert_quotation_to_invoice, get_settings,
    update_settings, get_dashboard_stats; wp_go.
  all: try done.
  all: try congruence.
  all: split; try done.
  all: try (by apply filter_other_create).
  all: try (by apply Forall_take_filter_invoices_of).
  all: try (by eapply filter_other_update).
  all: try (by apply filter_other_delete).
  all: try (by eapply filter_other_convert).
  all: cbn [owned_by].
  all: try lazymatch goal with
       | H : List.find (by_id_and_user _ ?b) _ = Some ?t |- Invoice.user_id ?t = ?b =>
           by apply find_Some_true, by_id_and_user_invoices_of, bool_decide_eq_true in H
       | Hback : List.find _ (replace_first (by_id_and_user _ _) _ _) = Some ?t
         |- Invoice.user_id ?t = _ =>
           by eapply update_read_back
       | Hback : List.find _ (replace_first (by_id _) _ _) = Some ?t
         |- Invoice.user_id ?t = _ =>
           by eapply convert_read_back
       end.
Qed.

(** *** Two runs of one handler *)

(** [wp2 m Q db1 db2]: whichever round trip fails, the runs of [m] in
    [db1] and in [db2] give the same result, and end in stores related by
    [Q]. *)
Definition wp2 {A : Type} (m : M A) (Q : DB → DB → result A → Prop) (db1 db2 : DB)
    : Prop :=
  ∀ fault,
    (m fault db1).1.1 = (m fault db2).1.1
    ∧ (m fault db1).2 = (m fault db2).2
    ∧ Q (m fault db1).1.2 (m fault db2).1.2 (m fault db1).2.

Lemma wp2_run {A : Type} (m : M A) (Q : DB → DB → result A → Prop) (db1 db2 : DB) :
  wp2 m Q db1 db2 →
  ∀ fault,
    (run m fault db1).2 = (run m fault db2).2
    ∧ Q (run m fault db1).1 (run m fault db2).1 (run m fault db1).2.
Proof.
  intros H fault. destruct (H fault) as (_ & Hr & HQ). unfold run.
  by destruct (m fault db1) as [[? ?] ?], (m fault db2) as [[? ?] ?].
Qed.

Lemma wp2_ret {A : Type} (a : A) (Q : DB → DB → result A → Prop) (db1 db2 : DB) :
  Q db1 db2 (Ok a) → wp2 (mret a) Q db1 db2.
Proof. by intros H fault. Qed.

Lemma wp2_raise {A : Type} (e : error) (Q : DB → DB → result A → Prop) (db1 db2 : DB) :
  Q db1 db2 (Raise e) → wp2 (raise e) Q db1 db2.
Proof. by intros H fault. Qed.

Lemma wp2_lift {A : Type} (r : result A) (Q : DB → DB → result A → Prop) (db1 db2 : DB) :
  Q db1 db2 r → wp2 (lift r) Q db1 db2.
Proof. by intros H fault. Qed.

Lemma wp2_await {A : Type} (op : DB → DB * result A) (Q : DB → DB → result A → Prop)
    (db1 db2 : DB) :
  (op db1).2 = (op db2).2 →
  Q db1 db2 (Raise DependencyFailure) →
  Q (op db1).1 (op db2).1 (op db1).2 →
  wp2 (await op) Q db1 db2.
Proof.
  intros Hr Hfail Hop [[|k]|]; unfold await; [done|..];
    by destruct (op db1), (op db2).
Qed.

Lemma wp2_bind {A B : Type} (m : M A) (k : A → M B) (Q : DB → DB → result B → Prop)
    (db1 db2 : DB) :
  wp2 m (λ d1 d2 r, match r with
                    | Ok a => wp2 (k a) Q d1 d2
                    | Raise e => Q d1 d2 (Raise e)
                    end) db1 db2 →
  wp2 (m ≫= k) Q db1 db2.
Proof.
  intros H fault. destruct (H fault) as (Hf & Hr & HQ). unfold mbind, M_bind.
  destruct (m fault db1) as [[f1 d1] r1], (m fault db2) as [[f2 d2] r2].
  simpl in *. subst f2 r2. destruct r1 as [a|e]; [apply HQ|done].
Qed.

Lemma wp2_mono {A : Type} (m : M A) (Q Q' : DB → DB → result A → Prop) (db1 db2 : DB) :
  (∀ d1 d2 r, Q d1 d2 r → Q' d1 d2 r) → wp2 m Q db1 db2 → wp2 m Q' db1 db2.
Proof.
  intros HQ H fault. destruct (H fault) as (? & ? & ?). auto.
Qed.

Lemma wp2_fmap {A B : Type} (f : A → B) (m : M A) (Q : DB → DB → result B → Prop)
    (db1 db2 : DB) :
  wp2 m (λ d1 d2 r, match r with
                    | Ok a => Q d1 d2 (Ok (f a))
                    | Raise e => Q d1 d2 (Raise e)
                    end) db1 db2 →
  wp2 (f <$> m) Q db1 db2.
Proof.
  intros H. apply wp2_bind. eapply wp2_mono; [|exact H].
  intros d1 d2 [a|e]; [apply wp2_ret|done].
Qed.

Lemma wp2_find_one {A : Type} (c : collection A) (filter : A → bool)
    (Q : DB → DB → result (option A) → Prop) (db1 db2 : DB) :
  List.find filter (docs c db1) = List.find filter (docs c db2) →
  Q db1 db2 (Raise DependencyFailure) →
  (∀ o, List.find filter (docs c db1) = o → List.find filter (docs c db2) = o →
        Q db1 db2 (Ok o)) →
  wp2 (find_one c filter) Q db1 db2.
Proof.
  intros Heq Hfail Hok. apply wp2_await; simpl; [by rewrite Heq|done|].
  by apply Hok.
Qed.

Lemma wp2_find_to_list {A : Type} (c : collection A) (filter : A → bool) (n : nat)
    (Q : DB → DB → result (list A) → Prop) (db1 db2 : DB) :
  List.filter filter (docs c db1) = List.filter filter (docs c db2) →
  Q db1 db2 (Raise DependencyFailure) →
  Q db1 db2 (Ok (take n (List.filter filter (docs c db1)))) →
  wp2 (find_to_list c filter n) Q db1 db2.
Proof. intros Heq Hfail Hok. apply wp2_await; simpl; [by rewrite Heq|done|done]. Qed.

Lemma wp2_count_documents {A : Type} (c : collection A) (filter : A → bool)
    (Q : DB → DB → result Z → Prop) (db1 db2 : DB) :
  List.filter filter (docs c db1) = List.filter filter (docs c db2) →
  Q db1 db2 (Raise DependencyFailure) →
  Q db1 db2 (Ok (Z.of_nat (length (List.filter filter (docs c db1))))) →
  wp2 (count_documents c filter) Q db1 db2.
Proof. intros Heq Hfail Hok. apply wp2_await; simpl; [by rewrite Heq|done|done]. Qed.

Lemma wp2_insert_one {A : Type} (c : collection A) (doc : A)
    (Q : DB → DB → result unit → Prop) (db1 db2 : DB) :
  Q db1 db2 (Raise DependencyFailure) →
  Q (with_docs c (docs c db1 ++ [doc]) db1) (with_docs c (docs c db2 ++ [doc]) db2)
    (Ok tt) →
  wp2 (insert_one c doc) Q db1 db2.
Proof. intros Hfail Hok. by apply wp2_await. Qed.

Lemma wp2_update_one {A : Type} (c : collection A) (filter : A → bool)
    (update : A → result A) (Q : DB → DB → result unit → Prop) (db1 db2 : DB) :
  List.find filter (docs c db1) = List.find filter (docs c db2) →
  Q db1 db2 (Raise DependencyFailure) →
  (∀ d d', List.find filter (docs c db1) = Some d →
           List.find filter (docs c db2) = Some d → update d = Ok d' →
     Q (with_docs c (replace_first filter d' (docs c db1)) db1)
       (with_docs c (replace_first filter d' (docs c db2)) db2) (Ok tt)) →
  (∀ d e, List.find filter (docs c db1) = Some d → update d = Raise e →
     Q db1 db2 (Raise e)) →
  (List.find filter (docs c db1) = None → List.find filter (docs c db2) = None →
   Q db1 db2 (Ok tt)) →
  wp2 (update_one c filter update None) Q db1 db2.
Proof.
  intros Heq Hfail Hhit Hrej Hmiss. apply wp2_await; [| done |]; rewrite <- Heq.
  - destruct (List.find filter (docs c db1)) as [d|]; [|done].
    by destruct (update d).
  - destruct (List.find filter (docs c db1)) as [d|] eqn:E;
      [|apply Hmiss; [done|by rewrite <- Heq]].
    destruct (update d) eqn:Eu; simpl;
      [apply (Hhit d); [done|by rewrite <- Heq|done]|by apply (Hrej d)].
Qed.

Lemma wp2_upsert_one {A : Type} (c : collection A) (filter : A → bool)
    (update : A → result A) (d0 : A) (Q : DB → DB → result unit → Prop) (db1 db2 : DB) :
  List.find filter (docs c db1) = List.find filter (docs c db2) →
  Q db1 db2 (Raise DependencyFailure) →
  (∀ d d', List.find filter (docs c db1) = Some d →
           List.find filter (docs c db2) = Some d → update d = Ok d' →
     Q (with_docs c (replace_first filter d' (docs c db1)) db1)
       (with_docs c (replace_first filter d' (docs c db2)) db2) (Ok tt)) →
  (∀ d e, List.find filter (docs c db1) = Some d → update d = Raise e →
     Q db1 db2 (Raise e)) →
  (∀ d', List.find filter (docs c db1) = None → List.find filter (docs c db2) = None →
         update d0 = Ok d' →
     Q (with_docs c (docs c db1 ++ [d']) db1) (with_docs c (docs c db2 ++ [d']) db2)
       (Ok tt)) →
  (∀ e, List.find filter (docs c db1) = None → update d0 = Raise e →
     Q db1 db2 (Raise e)) →
  wp2 (update_one c filter update (Some d0)) Q db1 db2.
Proof.
  intros Heq Hfail Hhit Hrej Hups Hupsrej. apply wp2_await; [| done |]; rewrite <- Heq.
  - destruct (List.find filter (docs c db1)) as [d|].
    + by destruct (update d).
    + by destruct (update d0).
  - destruct (List.find filter (docs c db1)) as [d|] eqn:E.
    + destruct (update d) eqn:Eu; simpl;
        [apply (Hhit d); [done|by rewrite <- Heq|done]|by apply (Hrej d)].
    + destruct (update d0) eqn:Eu; simpl;
        [apply Hups; [done|by rewrite <- Heq|done]|by apply Hupsrej].
Qed.

Lemma wp2_delete_one {A : Type} (c : collection A) (filter : A → bool)
    (Q : DB → DB → result Z → Prop) (db1 db2 : DB) :
  List.find filter (docs c db1) = List.find filter (docs c db2) →
  Q db1 db2 (Raise DependencyFailure) →
  (∀ d, List.find filter (docs c db1) = Some d → List.find filter (docs c db2) = Some d →
     Q (with_docs c (delete_first filter (docs c db1)) db1)
       (with_docs c (delete_first filter (docs c db2)) db2) (Ok 1)) →
  (List.find filter (docs c db1) = None → List.find filter (docs c db2) = None →
   Q db1 db2 (Ok 0)) →
  wp2 (delete_one c filter) Q db1 db2.
Proof.
  intros Heq Hfail Hhit Hmiss. apply wp2_await; [| done |]; rewrite <- Heq.
  - by destruct (List.find filter (docs c db1)).
  - destruct (List.find filter (docs c db1)) as [d|] eqn:E; simpl;
      [apply (Hhit d)|apply Hmiss]; try done; by rewrite <- Heq.
Qed.

(** *** What a tenant can see *)

(** Two stores that hold the same documents of [u], in the same order. *)
Definition same_view (u : string) (db1 db2 : DB) : Prop :=
  List.filter (clients_of u) (clients db1) = List.filter (clients_of u) (clients db2)
  ∧ List.filter (services_of u) (services db1)
    = List.filter (services_of u) (services db2)
  ∧ List.filter (invoices_of u) (invoices db1)
    = List.filter (invoices_of u) (invoices db2)
  ∧ List.filter (expenses_of u) (expenses db1)
    = List.filter (expenses_of u) (expenses db2)
  ∧ List.filter (settings_of u) (settings db1)
    = List.filter (settings_of u) (settings db2).

Section View.
Context {A : Type} (p q : A → bool).
Hypothesis p_in_q : ∀ x, p x = true → q x = true.

Lemma find_filter (l : list A) : List.find p (List.filter q l) = List.find p l.
Proof.
  induction l as [|x l IH]; simpl; [done|].
  destruct (q x) eqn:Eq; simpl.
  - by destruct (p x).
  - destruct (p x) eqn:Ep; [|done]. rewrite (p_in_q x Ep) in Eq. done.
Qed.

Lemma filter_replace_first (d' : A) (l : list A) :
  List.filter q (replace_first p d' l)
  = if q d' then replace_first p d' (List.filter q l)
    else delete_first p (List.filter q l).
Proof.
  induction l as [|x l IH]; simpl; [by destruct (q d')|].
  destruct (p x) eqn:Ep; simpl.
  - rewrite (p_in_q x Ep). simpl. rewrite Ep. by destruct (q d').
  - destruct (q x) eqn:Eq; simpl; rewrite ?Ep, IH; by destruct (q d').
Qed.

Lemma filter_delete_first (l : list A) :
  List.filter q (delete_first p l) = delete_first p (List.filter q l).
Proof.
  induction l as [|x l IH]; simpl; [done|].
  destruct (p x) eqn:Ep; simpl.
  - rewrite (p_in_q x Ep). simpl. by rewrite Ep.
  - destruct (q x) eqn:Eq; simpl; by rewrite ?Ep, IH.
Qed.

Lemma view_find (l1 l2 : list A) :
  List.filter q l1 = List.filter q l2 → List.find p l1 = List.find p l2.
Proof. intros H. by rewrite <- (find_filter l1), <- (find_filter l2), H. Qed.

Lemma view_replace_first (d' : A) (l1 l2 : list A) :
  List.filter q l1 = List.filter q l2 →
  List.filter q (replace_first p d' l1) = List.filter q (replace_first p d' l2).
Proof. intros H. by rewrite !filter_replace_first, H. Qed.

Lemma view_delete_first (l1 l2 : list A) :
  List.filter q l1 = List.filter q l2 →
  List.filter q (delete_first p l1) = List.filter q (delete_first p l2).
Proof. intros H. by rewrite !filter_delete_first, H. Qed.
End View.

Lemma view_snoc {A : Type} (q : A → bool) (x : A) (l1 l2 : list A) :
  List.filter q l1 = List.filter q l2 →
  List.filter q (l1 ++ [x]) = List.filter q (l2 ++ [x]).
Proof. intros H. by rewrite !filter_snoc, H. Qed.

Lemma view_convert (invoice_id user_id : string) (q' d' : Invoice.t)
    (l1 l2 : list Invoice.t) :
  NoDup (map Invoice.id l1) → NoDup (map Invoice.id l2) →
  List.find (quotation_by_id_and_user invoice_id user_id) l1 = Some q' →
  List.find (quotation_by_id_and_user invoice_id user_id) l2 = Some q' →
  List.filter (invoices_of user_id) l1 = List.filter (invoices_of user_id) l2 →
  List.filter (invoices_of user_id) (replace_first (by_id invoice_id) d' l1)
  = List.filter (invoices_of user_id) (replace_first (by_id invoice_id) d' l2).
Proof.
  intros Hu1 Hu2 Hq1 Hq2 Hview.
  destruct (replace_first_narrow (quotation_by_id_and_user invoice_id user_id)
              (by_id invoice_id) d' q' l1 (quotation_by_id invoice_id user_id)
              (by_id_unique invoice_id _ Hu1) Hq1) as [_ ->].
  destruct (replace_first_narrow (quotation_by_id_and_user invoice_id user_id)
              (by_id invoice_id) d' q' l2 (quotation_by_id invoice_id user_id)
              (by_id_unique invoice_id _ Hu2) Hq2) as [_ ->].
  apply view_replace_first; [|done]. intros x Hx.
  by apply (by_id_and_user_invoices_of invoice_id), quotation_by_id_and_user_weaken.
Qed.

Lemma quotation_first_by_id (invoice_id user_id : string) (q' : Invoice.t)
    (l : list Invoice.t) :
  NoDup (map Invoice.id l) →
  List.find (quotation_by_id_and_user invoice_id user_id) l = Some q' →
  List.find (by_id invoice_id) l = Some q'.
Proof.
  intros Hu Hq.
  by destruct (replace_first_narrow (quotation_by_id_and_user invoice_id user_id)
                 (by_id invoice_id) q' q' l (quotation_by_id invoice_id user_id)
                 (by_id_unique invoice_id _ Hu) Hq) as [? _].
Qed.

Lemma update_read_back_eq (invoice_id user_id : string) (invoice_data : InvoiceCreate.t)
    (d d' : Invoice.t) (l : list Invoice.t) :
  NoDup (map Invoice.id l) →
  List.find (by_id_and_user invoice_id user_id) l = Some d →
  set_update_data invoice_data d = Ok d' →
  List.find (by_id invoice_id) (replace_first (by_id_and_user invoice_id user_id) d' l)
  = Some d'.
Proof.
  intros Hu Hd Hset.
  destruct (set_update_data_filter invoice_id user_id _ _ _ Hset) as [Hfilter Hid].
  destruct (replace_first_narrow (by_id_and_user invoice_id user_id)
              (by_id invoice_id) d' d l (by_id_and_user_by_id invoice_id user_id)
              (by_id_unique invoice_id _ Hu) Hd) as [Hfirst Hsame].
  by rewrite <- Hsame, (find_replace_first_id invoice_id d d' _ Hfirst Hid).
Qed.

(** One step of a [wp2] goal, by the shape of the program. *)
Ltac wp2_step :=
  lazymatch goal with
  | |- wp2 (mbind _ _) _ _ _ => apply wp2_bind
  | |- wp2 (fmap _ _) _ _ _ => apply wp2_fmap
  | |- wp2 (mret _) _ _ _ => apply wp2_ret
  | |- wp2 (raise _) _ _ _ => apply wp2_raise
  | |- wp2 (lift _) _ _ _ => apply wp2_lift
  | |- wp2 (find_one _ _) _ _ _ =>
      apply wp2_find_one;
      [|cbv beta iota; store_simpl
       |let o := fresh "o" in intros o ? ?; destruct o; cbv beta iota; store_simpl]
  | |- wp2 (find_to_list _ _ _) _ _ _ =>
      apply wp2_find_to_list; [|cbv beta iota; store_simpl..]
  | |- wp2 (count_documents _ _) _ _ _ =>
      apply wp2_count_documents; [|cbv beta iota; store_simpl..]
  | |- wp2 (insert_one _ _) _ _ _ =>
      apply wp2_insert_one; cbv beta iota; store_simpl
  | |- wp2 (update_one _ _ _ None) _ _ _ =>
      apply wp2_update_one; [|cbv beta iota; store_simpl; intros..]
  | |- wp2 (update_one _ _ _ (Some _)) _ _ _ =>
      apply wp2_upsert_one; [|cbv beta iota; store_simpl; intros..]
  | |- wp2 (delete_one _ _) _ _ _ =>
      apply wp2_delete_one; [|cbv beta iota; store_simpl; intros..]
  | |- wp2 (Invoice_or_AttributeError _) _ _ _ => unfold Invoice_or_AttributeError
  | |- wp2 (match ?x with _ => _ end) _ _ _ => destruct x eqn:?
  | |- match ?x with _ => _ end => destruct x eqn:?; cbv beta iota; store_simpl
  end.

(** Equal views stay equal under the same write, and give the same
    first match to a filter of the tenant. *)
Ltac view_step u :=
  lazymatch goal with
  | |- List.find (settings_of u) _ = List.find (settings_of u) _ =>
      apply (view_find (settings_of u) (settings_of u)); [done|]
  | |- List.find (by_id_and_user ?i u) _ = List.find (by_id_and_user ?i u) _ =>
      apply (view_find _ (invoices_of u) (by_id_and_user_invoices_of i u))
  | |- List.find (quotation_by_id_and_user ?i u) _ = List.find _ _ =>
      apply (view_find _ (invoices_of u));
      [intros ? ?; by apply (by_id_and_user_invoices_of i),
                           quotation_by_id_and_user_weaken|]
  | |- List.filter _ (_ ++ [_]) = List.filter _ (_ ++ [_]) => apply view_snoc
  | |- List.filter (settings_of u) (replace_first (settings_of u) _ _) = _ =>
      apply (view_replace_first (settings_of u) (settings_of u)); [done|]
  | |- List.filter (invoices_of u) (replace_first (by_id_and_user ?i u) _ _) = _ =>
      apply (view_replace_first _ (invoices_of u) (by_id_and_user_invoices_of i u))
  | |- List.filter (invoices_of u) (delete_first (by_id_and_user ?i u) _) = _ =>
      apply (view_delete_first _ (invoices_of u) (by_id_and_user_invoices_of i u))
  | |- List.filter (invoices_of u) (replace_first (by_id ?i) _ _) = _ =>
      eapply (view_convert i u); [eassumption..|]
  | Hd : List.find (by_id_and_user ?i u) ?l1 = Some ?d,
    Hd2 : List.find (by_id_and_user ?i u) ?l2 = Some ?d,
    Hset : set_update_data ?data ?d = Ok ?d'
    |- List.find (by_id ?i) (replace_first _ ?d' ?l1)
       = List.find (by_id ?i) (replace_first _ ?d' ?l2) =>
      rewrite (update_read_back_eq i u data d d' l1),
              (update_read_back_eq i u data d d' l2) by assumption; reflexivity
  | Hd : List.find (by_id ?i) ?l1 = Some ?d,
    Hd2 : List.find (by_id ?i) ?l2 = Some ?d,
    Hset : set_type_and_number _ _ ?d = Ok ?d'
    |- List.find (by_id ?i) (replace_first _ ?d' ?l1)
       = List.find (by_id ?i) (replace_first _ ?d' ?l2) =>
      rewrite (find_replace_first_id i d d' l1 Hd
                 (proj1 (set_type_and_number_id _ _ d d' Hset))),
              (find_replace_first_id i d d' l2 Hd2
                 (proj1 (set_type_and_number_id _ _ d d' Hset))); reflexivity
  | Hq : List.find (quotation_by_id_and_user ?i u) ?l1 = Some ?q,
    Hq2 : List.find (quotation_by_id_and_user ?i u) ?l2 = Some ?q
    |- List.find (by_id ?i) ?l1 = List.find (by_id ?i) ?l2 =>
      rewrite (quotation_first_by_id i u q l1), (quotation_first_by_id i u q l2)
        by assumption; reflexivity
  end.

Lemma handle_noninterference (validate : document → result document) (u : string)
    (r : request) (db1 db2 : DB) :
  unique_ids db1 → unique_ids db2 →
  same_view u db1 db2 →
  wp2 (handle validate u r) (λ d1 d2 _, same_view u d1 d2) db1 db2.
Proof.
  intros Hu1 Hu2 Hview. pose proof Hview as (Hc & Hsv & Hi & He & Hst).
  unfold unique_ids in Hu1, Hu2.
  destruct r; unfold handle, create_invoice, get_invoices, get_invoice,
    update_invoice, delete_invoice, convert_quotation_to_invoice, get_settings,
    update_settings, get_dashboard_stats; repeat wp2_step; store_simpl.
  all: try done.
  all: try congruence.
  all: try (unfold same_view; store_simpl; repeat split; try done).
  all: repeat (view_step u; try done).
Qed.

(** The invoice of another tenant is not found under one's own name. *)
Lemma foreign_invoice_hidden (a b : string) (x : Invoice.t) (l : list Invoice.t) :
  a ≠ b → NoDup (map Invoice.id l) → In x l → Invoice.user_id x = a →
  List.find (by_id_and_user (Invoice.id x) b) l = None
  ∧ List.find (quotation_by_id_and_user (Invoice.id x) b) l = None.
Proof.
  intros Hab Hu Hx Ha.
  assert (H : ∀ y, In y l → by_id_and_user (Invoice.id x) b y = false).
  { intros y Hy. destruct (by_id_and_user (Invoice.id x) b y) eqn:E; [|done].
    pose proof (by_id_and_user_id _ _ _ E) as Hid.
    rewrite (same_id_same_invoice l y x Hu Hy Hx Hid) in E.
    apply by_id_and_user_invoices_of, bool_decide_eq_true in E. congruence. }
  split; apply find_None_iff; intros y Hy; [by apply H|].
  destruct (quotation_by_id_and_user (Invoice.id x) b y) eqn:E; [|done].
  apply quotation_by_id_and_user_weaken in E. by rewrite (H y Hy) in E.
Qed.

Lemma foreign_target_fails (validate : document → result document) (a b : string)
    (r : request) (fault : option nat) (db db' : DB) (res : result response)
    (x : Invoice.t) :
  a ≠ b → unique_ids db → In x (invoices db) → Invoice.user_id x = a →
  target r = Some (Invoice.id x) →
  run (handle validate b r) fault db = (db', res) →
  db' = db ∧ ∃ e, res = Raise e ∧ (fault = None → is_NotFound e = true).
Proof.
  intros Hab Hu Hx Ha Hr.
  destruct (foreign_invoice_hidden a b x (invoices db) Hab Hu Hx Ha) as [Hnone Hnoneq].
  destruct r; try done; injection Hr as ->;
    unfold handle, get_invoice, update_invoice, delete_invoice,
      convert_quotation_to_invoice, fmap, M_fmap;
    destruct fault as [[|k]|]; run_simpl; rewrite ?Hnone, ?Hnoneq; cbn;
    intros [= <- <-]; (split; [done|]); eexists; (split; [reflexivity|done]).
Qed.

(** C8. With identifiers unique and [a] and [b] two tenants, a call of
    [b], whatever it asks for and whichever of its round trips fails:
    leaves the invoices of [a] as they were; returns invoices of [b]
    only; when it names an invoice of [a] by its exact id, writes nothing
    and fails, with 404 when its read goes through; and gives the same
    result, and the same documents of [b] afterwards, in any other store
    that holds the same documents of [b], whatever that store holds for
    [a]. *)
Theorem tenant_isolation (validate : document → result document) (a b : string)
    (r : request) (fault : option nat) (db db' : DB) (res : result response) :
  a ≠ b → unique_ids db →
  run (handle validate b r) fault db = (db', res) →
  List.filter (invoices_of a) (invoices db') = List.filter (invoices_of a) (invoices db)
  ∧ (∀ response, res = Ok response → owned_by b response)
  ∧ (∀ x, In x (invoices db) → Invoice.user_id x = a →
          target r = Some (Invoice.id x) →
          db' = db ∧ ∃ e, res = Raise e ∧ (fault = None → is_NotFound e = true))
  ∧ (∀ db2, unique_ids db2 → same_view b db db2 →
            (run (handle validate b r) fault db2).2 = res
            ∧ same_view b db' (run (handle validate b r) fault db2).1).
Proof.
  intros Hab Hu Hrun.
  pose proof (wp_run _ _ _ (handle_isolated validate a b r db Hab Hu) _ _ _ Hrun)
    as [Hkept Howned].
  split; [done|]. split; [by intros response ->|]. split.
  - intros x Hx Ha Hr.
    by apply (foreign_target_fails validate a b r fault db db' res x).
  - intros db2 Hu2 Hview.
    destruct (wp2_run _ _ _ _
                (handle_noninterference validate b r db db2 Hu Hu2 Hview) fault)
      as [Hres Hview'].
    rewrite Hrun in Hres, Hview'. by split.
Qed.

Lemma tenant_isolation_witness :
  (run (handle Ok "B" (ConvertToInvoice "i1")) None db_after_first).1 = db_after_first.
Proof.
  destruct (tenant_isolation Ok "T" "B" (ConvertToInvoice "i1") None db_after_first _ _
              ltac:(done)
              ltac:(apply unique_ids_decide; vm_compute; reflexivity)
              (run_pair _ _ _)) as (_ & _ & H & _).
  destruct (H first_invoice) as [Hdb _]; [by left|reflexivity|reflexivity|].
  exact Hdb.
Defined.

(** Removing the invoices of [a] is such a change of the store. *)
Lemma same_view_without (a b : string) (db : DB) :
  a ≠ b →
  same_view b db
    (with_docs db_invoices
       (List.filter (λ x, negb (invoices_of a x)) (invoices db)) db).
Proof.
  intros Hab. unfold same_view. store_simpl. repeat split.
  induction (invoices db) as [|x l IH]; simpl; [done|].
  destruct (invoices_of b x) eqn:Eb.
  - rewrite (invoices_of_disjoint a b x Hab Eb). simpl. by rewrite Eb, IH.
  - destruct (invoices_of a x); simpl; by rewrite ?Eb, IH.
Qed.

(** Without unique identifiers the conversion, which writes by [id]
    alone, reaches the record of another tenant: the hypothesis on the
    identifiers is needed. *)
Example convert_with_shared_id :
  (λ db, Invoice.invoice_number <$> List.find (invoices_of "T") (invoices db))
    (run (convert_quotation_to_invoice "q1" "B") None
       (mkDB [] [] [ Invoice_of "q1" 0 (payload "invoice") "INV-0007" "T";
                     Invoice_of "q1" 1 (payload "quotation") "QUO-0001" "B" ]
          [] [Settings "s1" "B"])).1
  = Some "INV-0001".
Proof. vm_compute. reflexivity. Qed.

(** * The client, service and expense routes *)

Module ClientCreate.
Record t : Type := mk {
    name : string;
    business_name : option string;
    email : option string;
    phone : option string;
    gstin : option string;
    country : option string;
    address : option string;
    business_address : option string
}.
End ClientCreate.

Module ServiceCreate.
Record t : Type := mk {
    name : string;
    description : option string;
    price : float;
    gst_type : string;
    gst_percentage : float
}.
End ServiceCreate.

Module ExpenseCreate.
Record t : Type := mk {
    date : string;
    description : string;
    amount : float;
    category : string
}.
End ExpenseCreate.

(** The [Client] built from the dumped payload and the caller. *)
Definition Client_of (id : string) (created_at : datetime)
    (client_data : ClientCreate.t) (user_id : string) : Client.t :=
  {| Client.id := id;
     Client.name := ClientCreate.name client_data;
     Client.business_name := ClientCreate.business_name client_data;
     Client.email := ClientCreate.email client_data;
     Client.phone := ClientCreate.phone client_data;
     Client.gstin := ClientCreate.gstin client_data;
     Client.country := ClientCreate.country client_data;
     Client.address := ClientCreate.address client_data;
     Client.business_address := ClientCreate.business_address client_data;
     Client.created_at := created_at;
     Client.user_id := user_id |}.

Definition Service_of (id : string) (created_at : datetime)
    (service_data : ServiceCreate.t) (user_id : string) : Service.t :=
  {| Service.id := id;
     Service.name := ServiceCreate.name service_data;
     Service.description := ServiceCreate.description service_data;
     Service.price := ServiceCreate.price service_data;
     Service.gst_type := ServiceCreate.gst_type service_data;
     Service.gst_percentage := ServiceCreate.gst_percentage service_data;
     Service.created_at := created_at;
     Service.user_id := user_id |}.

Definition Expense_of (id : string) (created_at : datetime)
    (expense_data : ExpenseCreate.t) (user_id : string) : Expense.t :=
  {| Expense.id := id;
     Expense.date := ExpenseCreate.date expense_data;
     Expense.description := ExpenseCreate.description expense_data;
     Expense.amount := ExpenseCreate.amount expense_data;
     Expense.category := ExpenseCreate.category expense_data;
     Expense.created_at := created_at;
     Expense.user_id := user_id |}.

(** [{"$set": client_data.model_dump()}] on a client document *)
Definition set_client_data (update_data : ClientCreate.t) (d : Client.t)
    : result Client.t :=
  Ok {| Client.id := Client.id d;
        Client.name := ClientCreate.name update_data;
        Client.business_name := ClientCreate.business_name update_data;
        Client.email := ClientCreate.email update_data;
        Client.phone := ClientCreate.phone update_data;
        Client.gstin := ClientCreate.gstin update_data;
        Client.country := ClientCreate.country update_data;
        Client.address := ClientCreate.address update_data;
        Client.business_address := ClientCreate.business_address update_data;
        Client.created_at := Client.created_at d;
        Client.user_id := Client.user_id d |}.

(** [{"$set": service_data.model_dump()}] on a service document *)
Definition set_service_data (update_data : ServiceCreate.t) (d : Service.t)
    : result Service.t :=
  Ok {| Service.id := Service.id d;
        Service.name := ServiceCreate.name update_data;
        Service.description := ServiceCreate.description update_data;
        Service.price := ServiceCreate.price update_data;
        Service.gst_type := ServiceCreate.gst_type update_data;
        Service.gst_percentage := ServiceCreate.gst_percentage update_data;
        Service.created_at := Service.created_at d;
        Service.user_id := Service.user_id d |}.

(** [{"id": client_id, "user_id": user_id}] and [{"id": client_id}] *)
Definition client_by_id_and_user (client_id user_id : string) (d : Client.t) : bool :=
  bool_decide (Client.id d = client_id) && bool_decide (Client.user_id d = user_id).
Definition client_by_id (client_id : string) (d : Client.t) : bool :=
  bool_decide (Client.id d = client_id).

Definition service_by_id_and_user (service_id user_id : string) (d : Service.t) : bool :=
  bool_decide (Service.id d = service_id) && bool_decide (Service.user_id d = user_id).
Definition service_by_id (service_id : string) (d : Service.t) : bool :=
  bool_decide (Service.id d = service_id).

Definition expense_by_id_and_user (expense_id user_id : string) (d : Expense.t) : bool :=
  bool_decide (Expense.id d = expense_id) && bool_decide (Expense.user_id d = user_id).

(** ** Client routes

    As for invoices, the record read back after an update is found by
    its identifier alone, and [updated_client.get] would be called on
    [None] had nothing been found. *)

Definition create_client (uuid : string) (now : datetime)
    (client_data : ClientCreate.t) (user_id : string) : M Client.t :=
  let client := Client_of uuid now client_data user_id in
  _ ← insert_one db_clients client;
  mret client.

Definition get_client (client_id user_id : string) : M Client.t :=
  client ← find_one db_clients (client_by_id_and_user client_id user_id);
  match client with
  | None => raise (HTTPException 404 "Client not found")
  | Some client => mret client
  end.

Definition update_client (client_id : string) (client_data : ClientCreate.t)
    (user_id : string) : M Client.t :=
  existing ← find_one db_clients (client_by_id_and_user client_id user_id);
  match existing with
  | None => raise (HTTPException 404 "Client not found")
  | Some _ =>
      _ ← update_one db_clients (client_by_id_and_user client_id user_id)
            (set_client_data client_data) None;
      updated_client ← find_one db_clients (client_by_id client_id);
      match updated_client with
      | Some updated_client => mret updated_client
      | None => raise AttributeError
      end
  end.

Definition delete_client (client_id user_id : string) : M string :=
  deleted_count ← delete_one db_clients (client_by_id_and_user client_id user_id);
  if deleted_count =? 0 then raise (HTTPException 404 "Client not found")
  else mret "Client deleted successfully".

(** ** Service routes *)

Definition create_service (uuid : string) (now : datetime)
    (service_data : ServiceCreate.t) (user_id : string) : M Service.t :=
  let service := Service_of uuid now service_data user_id in
  _ ← insert_one db_services service;
  mret service.

Definition get_service (service_id user_id : string) : M Service.t :=
  service ← find_one db_services (service_by_id_and_user service_id user_id);
  match service with
  | None => raise (HTTPException 404 "Service not found")
  | Some service => mret service
  end.

Definition update_service (service_id : string) (service_data : ServiceCreate.t)
    (user_id : string) : M Service.t :=
  existing ← find_one db_services (service_by_id_and_user service_id user_id);
  match existing with
  | None => raise (HTTPException 404 "Service not found")
  | Some _ =>
      _ ← update_one db_services (service_by_id_and_user service_id user_id)
            (set_service_data service_data) None;
      updated_service ← find_one db_services (service_by_id service_id);
      match updated_service with
      | Some updated_service => mret updated_service
      | None => raise AttributeError
      end
  end.

Definition delete_service (service_id user_id : string) : M string :=
  deleted_count ← delete_one db_services (service_by_id_and_user service_id user_id);
  if deleted_count =? 0 then raise (HTTPException 404 "Service not found")
  else mret "Service deleted successfully".

(** ** Expense routes *)

Definition create_expense (uuid : string) (now : datetime)
    (expense_data : ExpenseCreate.t) (user_id : string) : M Expense.t :=
  let expense := Expense_of uuid now expense_data user_id in
  _ ← insert_one db_expenses expense;
  mret expense.

Definition delete_expense (expense_id user_id : string) : M string :=
  deleted_count ← delete_one db_expenses (expense_by_id_and_user expense_id user_id);
  if deleted_count =? 0 then raise (HTTPException 404 "Expense not found")
  else mret "Expense deleted successfully".

(** ** Sending an invoice by email *)

(** The answer of [send_invoice_email]. *)
Record EmailSent : Type := mkEmailSent {
    message : string;
    recipient : string;
    invoice_number : string
}.

Section Email.
(** [str.title] *)
Variable title : string → string.
(** The HTML body: the f-string over the invoice type as titled, the
    invoice, the client and the settings, all of them read. *)
Variable html_content : string → Invoice.t → Client.t → document → string.
(** What the SMTP server does with a recipient, a subject and a body:
    it takes the message, or an exception is raised, with its text. *)
Variable smtp : string → string → string → option string.

(** Every exception of the sending becomes a 500. *)
Definition send_email_smtp (to_email subject html_content : string) : M bool :=
  match smtp to_email subject html_content with
  | None => mret true
  | Some e => raise (HTTPException 500 ("Failed to send email: " +:+ e))
  end.

(** The client is read by the [client_id] of the invoice alone, and an
    email that is missing or empty is refused. The body reads the
    settings with [settings.get], which [None] does not have. *)
Definition send_invoice_email (invoice_id user_id : string) : M EmailSent :=
  invoice ← find_one db_invoices (by_id_and_user invoice_id user_id);
  match invoice with
  | None => raise (HTTPException 404 "Invoice not found")
  | Some invoice =>
      client ← find_one db_clients (client_by_id (Invoice.client_id invoice));
      match client with
      | None => raise (HTTPException 400 "Client email not found")
      | Some client =>
          match Client.email client with
          | None => raise (HTTPException 400 "Client email not found")
          | Some email =>
              if bool_decide (email = "")
              then raise (HTTPException 400 "Client email not found")
              else
                settings ← find_one db_settings (settings_of user_id);
                let invoice_type := title (Invoice.invoice_type invoice) in
                let subject :=
                  invoice_type +:+ " " +:+ Invoice.invoice_number invoice
                  +:+ " from IMAGICITY" in
                match settings with
                | None => raise AttributeError
                | Some settings =>
                    _ ← send_email_smtp email subject
                          (html_content invoice_type invoice client settings);
                    mret {| message := "Email sent successfully to " +:+ email;
                            recipient := email;
                            invoice_number := Invoice.invoice_number invoice |}
                end
          end
      end
  end.
End Email.

(** * Further properties of the invoice and settings routes *)

Lemma run_wp {A : Type} (m : M A) (Q : DB → result A → Prop) (db : DB)
    (fault : option nat) :
  wp m Q db → Q (run m fault db).1 (run m fault db).2.
Proof. intros H. apply (wp_run m Q db H fault). apply run_pair. Qed.

(** ** Reads *)

(** X1. The listings, the reads of one document and the dashboard leave
    the store exactly as it was, whichever round trip fails. *)
Theorem read_routes_never_write (user_id id : string) (fault : option nat) (db : DB) :
  (run (get_invoices user_id) fault db).1 = db
  ∧ (run (get_invoice id user_id) fault db).1 = db
  ∧ (run (get_clients user_id) fault db).1 = db
  ∧ (run (get_client id user_id) fault db).1 = db
  ∧ (run (get_services user_id) fault db).1 = db
  ∧ (run (get_service id user_id) fault db).1 = db
  ∧ (run (get_expenses user_id) fault db).1 = db
  ∧ (run (get_dashboard_stats user_id) fault db).1 = db.
Proof.
  repeat split.
  all: apply (run_wp _ (λ db' _, db' = db)).
  all: unfold get_invoices, get_invoice, get_clients, get_client, get_services,
         get_service, get_expenses, get_dashboard_stats; by wp_go.
Qed.

(** ** Creation and lookup *)

(** What [create_invoice] writes besides the settings: the invoice, last
    in its collection, under the identifier and the owner it was given. *)
Lemma create_invoice_appends (settings_uuid invoice_uuid : string) (now : datetime)
    (invoice_data : InvoiceCreate.t) (user_id : string) (db : DB) :
  wp (create_invoice settings_uuid invoice_uuid now invoice_data user_id)
     (λ db' r,
        clients db' = clients db ∧ services db' = services db
        ∧ expenses db' = expenses db
        ∧ match r with
          | Ok invoice =>
              Invoice.id invoice = invoice_uuid ∧ Invoice.user_id invoice = user_id
              ∧ invoices db' = invoices db ++ [invoice]
          | Raise _ => True
          end) db.
Proof. unfold create_invoice. wp_go; repeat split; reflexivity. Qed.

Lemma find_fresh (i u : string) (l : list Invoice.t) :
  ¬ In i (map Invoice.id l) → List.find (by_id_and_user i u) l = None.
Proof.
  intros Hfresh. apply find_None_iff. intros x Hx.
  destruct (by_id_and_user i u x) eqn:E; [|done].
  exfalso. apply Hfresh. rewrite <- (by_id_and_user_id i u x E). by apply in_map.
Qed.

Lemma take_snoc_In {A : Type} (n : nat) (l : list A) (x : A) :
  ¬ In x l → (In x (take n (l ++ [x])) ↔ (length l < n)%nat).
Proof.
  intros Hx. split.
  - intros Hin. destruct (decide (length l < n)%nat) as [|Hge]; [done|].
    rewrite take_app_le in Hin by lia.
    exfalso. apply Hx. apply list_elem_of_In.
    apply (subseteq_take n l). by apply list_elem_of_In.
  - intros Hlt. rewrite take_ge by (rewrite length_app; simpl; lia).
    apply in_or_app. right. by left.
Qed.

Lemma run_first_invoice :
  run (create_invoice "s1" "i1" 0 (payload "invoice") "T") None empty_db
  = (db_after_first, Ok first_invoice).
Proof. vm_compute. reflexivity. Qed.

Lemma db_after_first_invoices : invoices db_after_first = [first_invoice].
Proof.
  by pose proof (wp_run _ _ _
    (create_invoice_appends "s1" "i1" 0 (payload "invoice") "T" empty_db)
    _ _ _ run_first_invoice) as (_ & _ & _ & _ & _ & ->).
Qed.

Lemma db_after_first_unique : unique_ids db_after_first.
Proof.
  unfold unique_ids. rewrite db_after_first_invoices. simpl.
  apply NoDup_singleton.
Qed.

(** X2. An invoice created under an identifier the store does not hold
    yet can be read back at once by its owner, as the very document the
    creation returned; another tenant asking for that identifier gets
    404; and the owner's listing shows it exactly when the tenant had
    fewer than 1000 invoices before. *)
Theorem create_invoice_then_get (settings_uuid invoice_uuid : string) (now : datetime)
    (invoice_data : InvoiceCreate.t) (user_id : string) (fault : option nat)
    (db db' : DB) (invoice : Invoice.t) :
  ¬ In invoice_uuid (map Invoice.id (invoices db)) →
  run (create_invoice settings_uuid invoice_uuid now invoice_data user_id) fault db
  = (db', Ok invoice) →
  run (get_invoice invoice_uuid user_id) None db' = (db', Ok invoice)
  ∧ (∀ other, other ≠ user_id →
       run (get_invoice invoice_uuid other) None db'
       = (db', Raise (HTTPException 404 "Invoice not found")))
  ∧ ∃ listing,
      run (get_invoices user_id) None db' = (db', Ok listing)
      ∧ (In invoice listing
         ↔ (length (List.filter (invoices_of user_id) (invoices db)) < 1000)%nat).
Proof.
  intros Hfresh Hrun.
  pose proof (wp_run _ _ _
    (create_invoice_appends settings_uuid invoice_uuid now invoice_data user_id db)
    _ _ _ Hrun) as (_ & _ & _ & Hid & Hu & Hinv).
  split; [|split].
  - unfold get_invoice. run_simpl.
    rewrite Hinv, find_snoc, (find_fresh invoice_uuid user_id _ Hfresh).
    unfold by_id_and_user. by rewrite Hid, Hu, !bool_decide_eq_true_2.
  - intros other Hother. unfold get_invoice. run_simpl.
    rewrite Hinv, find_snoc, (find_fresh invoice_uuid other _ Hfresh).
    unfold by_id_and_user.
    by rewrite Hu, (bool_decide_eq_false_2 (user_id = other)), andb_false_r.
  - eexists. split; [unfold get_invoices; run_simpl; reflexivity|].
    assert (invoices_of user_id invoice = true) as Hmine
      by (by apply bool_decide_eq_true).
    rewrite Hinv, filter_snoc, Hmine.
    apply take_snoc_In. intros Hin%filter_In. apply Hfresh.
    rewrite <- Hid. apply in_map. tauto.
Qed.

Lemma create_invoice_then_get_witness :
  run (get_invoice "i1" "T") None db_after_first = (db_after_first, Ok first_invoice).
Proof.
  apply (create_invoice_then_get "s1" "i1" 0 (payload "invoice") "T" None empty_db
           db_after_first first_invoice).
  - simpl. tauto.
  - exact run_first_invoice.
Defined.

(** * Documents with an identifier and an owner *)

(** The shape the routes of a resource share

    The routes of clients, services, invoices and expenses are the same
    code over another collection: a document has an identifier and an
    owner, reads and writes filter by both, and the read-back after an
    update filters by the identifier alone. *)

Section Resource.
Context {A : Type} (c : collection A) (key owner : A → string).

Definition keyed (i u : string) (d : A) : bool :=
  bool_decide (key d = i) && bool_decide (owner d = u).
Definition keyed_only (i : string) (d : A) : bool := bool_decide (key d = i).
Definition owned (u : string) (d : A) : bool := bool_decide (owner d = u).

Definition resource_create (doc : A) : M A :=
  _ ← insert_one c doc;
  mret doc.

Definition resource_get (detail : string) (i u : string) : M A :=
  found ← find_one c (keyed i u);
  match found with
  | None => raise (HTTPException 404 detail)
  | Some found => mret found
  end.

Definition resource_update (update : A → result A) (detail : string) (i u : string)
    : M A :=
  existing ← find_one c (keyed i u);
  match existing with
  | None => raise (HTTPException 404 detail)
  | Some _ =>
      _ ← update_one c (keyed i u) update None;
      updated ← find_one c (keyed_only i);
      match updated with
      | Some updated => mret updated
      | None => raise AttributeError
      end
  end.

Definition resource_delete (detail message : string) (i u : string) : M string :=
  deleted_count ← delete_one c (keyed i u);
  if deleted_count =? 0 then raise (HTTPException 404 detail)
  else mret message.
End Resource.

(** The routes are instances of that shape, by computation. *)
Lemma client_routes_shape (uuid client_id user_id : string) (now : datetime)
    (client_data : ClientCreate.t) :
  create_client uuid now client_data user_id
  = resource_create db_clients (Client_of uuid now client_data user_id)
  ∧ get_client client_id user_id
    = resource_get db_clients Client.id Client.user_id "Client not found"
        client_id user_id
  ∧ update_client client_id client_data user_id
    = resource_update db_clients Client.id Client.user_id
        (set_client_data client_data) "Client not found" client_id user_id
  ∧ delete_client client_id user_id
    = resource_delete db_clients Client.id Client.user_id "Client not found"
        "Client deleted successfully" client_id user_id.
Proof. repeat split. Qed.

Lemma service_routes_shape (uuid service_id user_id : string) (now : datetime)
    (service_data : ServiceCreate.t) :
  create_service uuid now service_data user_id
  = resource_create db_services (Service_of uuid now service_data user_id)
  ∧ get_service service_id user_id
    = resource_get db_services Service.id Service.user_id "Service not found"
        service_id user_id
  ∧ update_service service_id service_data user_id
    = resource_update db_services Service.id Service.user_id
        (set_service_data service_data) "Service not found" service_id user_id
  ∧ delete_service service_id user_id
    = resource_delete db_services Service.id Service.user_id "Service not found"
        "Service deleted successfully" service_id user_id.
Proof. repeat split. Qed.

Lemma expense_routes_shape (uuid expense_id user_id : string) (now : datetime)
    (expense_data : ExpenseCreate.t) :
  create_expense uuid now expense_data user_id
  = resource_create db_expenses (Expense_of uuid now expense_data user_id)
  ∧ delete_expense expense_id user_id
    = resource_delete db_expenses Expense.id Expense.user_id "Expense not found"
        "Expense deleted successfully" expense_id user_id.
Proof. repeat split. Qed.

Lemma invoice_routes_shape (invoice_id user_id : string)
    (invoice_data : InvoiceCreate.t) :
  get_invoice invoice_id user_id
  = resource_get db_invoices Invoice.id Invoice.user_id "Invoice not found"
      invoice_id user_id
  ∧ update_invoice invoice_id invoice_data user_id
    = resource_update db_invoices Invoice.id Invoice.user_id
        (set_update_data invoice_data) "Invoice not found" invoice_id user_id
  ∧ delete_invoice invoice_id user_id
    = resource_delete db_invoices Invoice.id Invoice.user_id "Invoice not found"
        "Invoice deleted successfully" invoice_id user_id.
Proof. repeat split. Qed.

Section Keyed.
Context {A : Type} (key owner : A → string).

Lemma keyed_true (i u : string) (d : A) :
  keyed key owner i u d = true ↔ key d = i ∧ owner d = u.
Proof.
  unfold keyed. rewrite andb_true_iff, !bool_decide_eq_true. tauto.
Qed.

Lemma keyed_only_true (i : string) (d : A) : keyed_only key i d = true ↔ key d = i.
Proof. apply bool_decide_eq_true. Qed.

Lemma keyed_keyed_only (i u : string) (d : A) :
  keyed key owner i u d = true → keyed_only key i d = true.
Proof. rewrite keyed_true, keyed_only_true. tauto. Qed.

Lemma keyed_owned (i u : string) (d : A) :
  keyed key owner i u d = true → owned owner u d = true.
Proof. rewrite keyed_true. unfold owned. rewrite bool_decide_eq_true. tauto. Qed.

Lemma owned_disjoint (a b : string) (d : A) :
  a ≠ b → owned owner b d = true → owned owner a d = false.
Proof.
  unfold owned. intros Hab H%bool_decide_eq_true.
  apply bool_decide_eq_false. congruence.
Qed.

Lemma keyed_not_owned (a b i : string) (d : A) :
  a ≠ b → keyed key owner i b d = true → owned owner a d = false.
Proof. intros Hab H. by apply (owned_disjoint a b), (keyed_owned i). Qed.

Lemma key_not_head (x y : A) (l : list A) :
  NoDup (map key (x :: l)) → In y l → key y ≠ key x.
Proof.
  simpl. intros [Hx _]%NoDup_cons Hy Heq. apply Hx, list_elem_of_In.
  rewrite <- Heq. by apply in_map.
Qed.

Lemma same_key (l : list A) (a b : A) :
  NoDup (map key l) → In a l → In b l → key a = key b → a = b.
Proof.
  induction l as [|x l IH]; [done|].
  intros Hl [<-|Ha] [<-|Hb] Hid; try done.
  - by destruct (key_not_head _ _ _ Hl Hb).
  - by destruct (key_not_head _ _ _ Hl Ha).
  - apply IH; try done. simpl in Hl. by apply NoDup_cons in Hl as [_ Hl].
Qed.

Lemma find_keyed_fresh (i u : string) (l : list A) :
  ¬ In i (map key l) → List.find (keyed key owner i u) l = None.
Proof.
  intros Hfresh. apply find_None_iff. intros x Hx.
  destruct (keyed key owner i u x) eqn:E; [|done].
  apply keyed_true in E as [<- _]. exfalso. apply Hfresh. by apply in_map.
Qed.

Lemma find_keyed_only_fresh (i : string) (l : list A) :
  ¬ In i (map key l) → List.find (keyed_only key i) l = None.
Proof.
  intros Hfresh. apply find_None_iff. intros x Hx.
  destruct (keyed_only key i x) eqn:E; [|done].
  apply keyed_only_true in E as <-. exfalso. apply Hfresh. by apply in_map.
Qed.

(** With identifiers unique, the first document under an identifier and
    an owner is the only document under that identifier. *)
Lemma keyed_first_by_key (i u : string) (l : list A) (old d' : A) :
  NoDup (map key l) → List.find (keyed key owner i u) l = Some old →
  List.find (keyed_only key i) l = Some old
  ∧ replace_first (keyed_only key i) d' l = replace_first (keyed key owner i u) d' l.
Proof.
  intros Hl Hold. apply replace_first_narrow; [apply keyed_keyed_only| |done].
  intros x y Hx Hy Hix%keyed_only_true Hiy%keyed_only_true.
  apply (same_key l); congruence.
Qed.

Lemma find_replace_keyed (i u : string) (l : list A) (old d' : A) :
  NoDup (map key l) → List.find (keyed key owner i u) l = Some old → key d' = i →
  List.find (keyed_only key i) (replace_first (keyed key owner i u) d' l) = Some d'.
Proof.
  intros Hl Hold Hd'.
  destruct (keyed_first_by_key i u l old d' Hl Hold) as [Hfirst <-].
  apply find_replace_first_same; [by apply keyed_only_true|by rewrite Hfirst].
Qed.

Lemma In_delete_keyed (i u : string) (l : list A) (old x : A) :
  NoDup (map key l) → List.find (keyed key owner i u) l = Some old →
  In x (delete_first (keyed key owner i u) l) ↔ In x l ∧ key x ≠ i.
Proof.
  induction l as [|y l IH]; [done|]. intros Hl. simpl.
  destruct (keyed key owner i u y) eqn:E.
  - intros _. apply keyed_true in E as [<- _]. split.
    + intros Hx. split; [by right|]. by apply (key_not_head y x l).
    + by intros [[->|Hx] Hne].
  - intros Hold. simpl.
    assert (Hy : key y ≠ i).
    { pose proof (find_Some_true _ _ _ Hold) as [<- _]%keyed_true.
      intros Heq. apply (key_not_head y old l Hl); [by apply (find_In _ _ _ Hold)|done]. }
    rewrite IH; [|by apply NoDup_cons in Hl as [_ Hl]|done].
    split; [intros [->|[? ?]]; auto|intros [[->|?] ?]; auto].
Qed.

Lemma In_replace_keyed (i u : string) (l : list A) (old d' x : A) :
  NoDup (map key l) → List.find (keyed key owner i u) l = Some old →
  In x (replace_first (keyed key owner i u) d' l) ↔ x = d' ∨ (In x l ∧ key x ≠ i).
Proof.
  induction l as [|y l IH]; [done|]. intros Hl. simpl.
  destruct (keyed key owner i u y) eqn:E.
  - intros _. apply keyed_true in E as [<- _]. simpl. split.
    + intros [<-|Hx]; [by left|]. right. split; [by right|].
      by apply (key_not_head y x l).
    + intros [->|[[->|Hx] Hne]]; auto. done.
  - intros Hold. simpl.
    assert (Hy : key y ≠ i).
    { pose proof (find_Some_true _ _ _ Hold) as [<- _]%keyed_true.
      intros Heq. apply (key_not_head y old l Hl); [by apply (find_In _ _ _ Hold)|done]. }
    rewrite IH; [|by apply NoDup_cons in Hl as [_ Hl]|done].
    split; [intros [->|[->|[? ?]]]; auto|intros [->|[[->|?] ?]]; auto].
Qed.

Lemma find_delete_keyed (i u v : string) (l : list A) (old : A) :
  NoDup (map key l) → List.find (keyed key owner i u) l = Some old →
  List.find (keyed key owner i v) (delete_first (keyed key owner i u) l) = None.
Proof.
  intros Hl Hold. apply find_None_iff. intros x Hx.
  apply (In_delete_keyed i u l old x Hl Hold) in Hx as [_ Hne].
  destruct (keyed key owner i v x) eqn:E; [|done]. by apply keyed_true in E as [? _].
Qed.

(** Deleting the document that was appended last gives the list back. *)
Lemma delete_first_snoc (i u : string) (l : list A) (x : A) :
  List.find (keyed key owner i u) l = None → keyed key owner i u x = true →
  delete_first (keyed key owner i u) (l ++ [x]) = l.
Proof.
  intros Hnone Hx. induction l as [|y l IH]; simpl; [by rewrite Hx|].
  simpl in Hnone. destruct (keyed key owner i u y); [done|]. by rewrite IH.
Qed.

Lemma replace_first_snoc (i u : string) (l : list A) (x d' : A) :
  List.find (keyed key owner i u) l = None → keyed key owner i u x = true →
  replace_first (keyed key owner i u) d' (l ++ [x]) = l ++ [d'].
Proof.
  intros Hnone Hx. induction l as [|y l IH]; simpl; [by rewrite Hx|].
  simpl in Hnone. destruct (keyed key owner i u y); [done|]. by rewrite IH.
Qed.
End Keyed.

(** ** The routes of a resource, run *)

Section ResourceRuns.
Context {A : Type} (c : collection A) (key owner : A → string).
Hypothesis docs_with_docs : ∀ l db, docs c (with_docs c l db) = l.

Lemma resource_create_run (doc : A) (fault : option nat) (db db' : DB) (r : result A) :
  run (resource_create c doc) fault db = (db', r) →
  match r with
  | Ok x => x = doc ∧ db' = with_docs c (docs c db ++ [doc]) db
  | Raise e => e = DependencyFailure ∧ db' = db
  end
  ∧ (fault = None → r = Ok doc).
Proof.
  unfold resource_create. destruct fault as [[|k]|]; run_simpl; by intros [= <- <-].
Qed.

Lemma resource_get_run (detail i u : string) (fault : option nat) (db db' : DB)
    (r : result A) :
  run (resource_get c key owner detail i u) fault db = (db', r) →
  db' = db
  ∧ match r with
    | Ok x => List.find (keyed key owner i u) (docs c db) = Some x
    | Raise e =>
        e = DependencyFailure
        ∨ e = HTTPException 404 detail
          ∧ List.find (keyed key owner i u) (docs c db) = None
    end
  ∧ (fault = None →
     r = match List.find (keyed key owner i u) (docs c db) with
         | Some x => Ok x
         | None => Raise (HTTPException 404 detail)
         end).
Proof.
  unfold resource_get.
  destruct fault as [[|k]|]; run_simpl;
    destruct (List.find _ (docs c db)) eqn:E; intros [= <- <-];
    repeat split; auto; done.
Qed.

Lemma resource_delete_run (detail message i u : string) (fault : option nat)
    (db db' : DB) (r : result string) :
  run (resource_delete c key owner detail message i u) fault db = (db', r) →
  match r with
  | Ok m =>
      m = message
      ∧ is_Some (List.find (keyed key owner i u) (docs c db))
      ∧ db' = with_docs c (delete_first (keyed key owner i u) (docs c db)) db
  | Raise e =>
      db' = db
      ∧ (e = DependencyFailure
         ∨ e = HTTPException 404 detail
           ∧ List.find (keyed key owner i u) (docs c db) = None)
  end
  ∧ (fault = None →
     r = match List.find (keyed key owner i u) (docs c db) with
         | Some _ => Ok message
         | None => Raise (HTTPException 404 detail)
         end).
Proof.
  unfold resource_delete.
  destruct fault as [[|k]|]; run_simpl;
    destruct (List.find _ (docs c db)) eqn:E; cbn; intros [= <- <-];
    repeat split; auto; done.
Qed.

Lemma resource_update_run (update : A → result A) (detail i u : string)
    (fault : option nat) (db db' : DB) (r : result A) :
  NoDup (map key (docs c db)) →
  (∀ d, ∃ d', update d = Ok d' ∧ key d' = key d) →
  run (resource_update c key owner update detail i u) fault db = (db', r) →
  match r with
  | Ok x =>
      ∃ old, List.find (keyed key owner i u) (docs c db) = Some old
             ∧ update old = Ok x
             ∧ db' = with_docs c (replace_first (keyed key owner i u) x (docs c db)) db
  | Raise e =>
      (List.find (keyed key owner i u) (docs c db) = None →
       db' = db ∧ (e = DependencyFailure ∨ e = HTTPException 404 detail))
  end
  ∧ (fault = None →
     r = match List.find (keyed key owner i u) (docs c db) with
         | Some old => update old
         | None => Raise (HTTPException 404 detail)
         end).
Proof.
  intros Hl Hupd. unfold resource_update.
  destruct (List.find (keyed key owner i u) (docs c db)) as [old|] eqn:Hold.
  - destruct (Hupd old) as (x & Hx & Hkey).
    pose proof (find_Some_true _ _ _ Hold) as [Hi _]%keyed_true.
    pose proof (find_replace_keyed key owner i u _ old x Hl Hold
                  ltac:(congruence)) as Hback.
    destruct fault as [[|[|[|k]]]|]; run_simpl; rewrite ?Hold; cbv beta iota;
      rewrite ?Hold, ?Hx; cbv beta iota; rewrite ?docs_with_docs, ?Hback;
      intros [= <- <-]; (split; [|done]); try done; by exists old.
  - destruct fault as [[|k]|]; run_simpl; rewrite ?Hold; intros [= <- <-];
      repeat split; auto; done.
Qed.
End ResourceRuns.

(** ** Deleting an invoice *)

(** X3. With identifiers unique, [delete_invoice] removes the caller's
    invoice of that id and nothing else: the store afterwards is the
    store before without that one document, and the id is then unknown
    to every tenant. When the caller has no such invoice, or the call
    fails, nothing is written; the answer is 404 when the round trip goes
    through. *)
Theorem delete_invoice_spec (invoice_id user_id : string) (fault : option nat)
    (db db' : DB) (r : result string) :
  unique_ids db →
  run (delete_invoice invoice_id user_id) fault db = (db', r) →
  (is_Ok r = false → db' = db)
  ∧ (List.find (by_id_and_user invoice_id user_id) (invoices db) = None →
     is_Ok r = false
     ∧ (fault = None → r = Raise (HTTPException 404 "Invoice not found")))
  ∧ (is_Ok r = true →
     r = Ok "Invoice deleted successfully"
     ∧ db' = with_docs db_invoices
               (delete_first (by_id_and_user invoice_id user_id) (invoices db)) db
     ∧ (∀ x, In x (invoices db') ↔ In x (invoices db) ∧ Invoice.id x ≠ invoice_id)
     ∧ ∀ other,
         run (get_invoice invoice_id other) None db'
         = (db', Raise (HTTPException 404 "Invoice not found")))
  ∧ (fault = None →
     is_Some (List.find (by_id_and_user invoice_id user_id) (invoices db)) →
     r = Ok "Invoice deleted successfully").
Proof.
  intros Hu Hrun.
  destruct (resource_delete_run db_invoices Invoice.id Invoice.user_id
              "Invoice not found" "Invoice deleted successfully" invoice_id user_id
              fault db db' r Hrun) as [Hout Hnone].
  store_simpl.
  change (keyed Invoice.id Invoice.user_id invoice_id user_id)
    with (by_id_and_user invoice_id user_id) in *.
  split; [|split; [|split]].
  - destruct r; [done|]. by destruct Hout.
  - intros Hmiss. rewrite Hmiss in Hnone, Hout. destruct r as [m|e].
    + by destruct Hout as (_ & [? ?] & _).
    + done.
  - destruct r as [m|e]; [|done]. intros _.
    destruct Hout as (-> & [old Hold] & ->). store_simpl.
    split; [done|]. split; [done|]. split.
    + intros x. apply (In_delete_keyed Invoice.id Invoice.user_id _ _ _ old x Hu Hold).
    + intros other.
      pose proof (find_delete_keyed Invoice.id Invoice.user_id invoice_id user_id other
                    _ old Hu Hold) as Hgone.
      change (List.find (by_id_and_user invoice_id other)
                (delete_first (by_id_and_user invoice_id user_id) (invoices db))
              = None) in Hgone.
      unfold get_invoice. run_simpl. by rewrite Hgone.
  - intros Hf [old Hold]. rewrite Hold in Hnone. by apply Hnone.
Qed.

Lemma delete_invoice_spec_witness :
  (run (delete_invoice "i1" "T") None db_after_first).2
  = Ok "Invoice deleted successfully".
Proof.
  apply (delete_invoice_spec "i1" "T" None db_after_first
           (run (delete_invoice "i1" "T") None db_after_first).1
           (run (delete_invoice "i1" "T") None db_after_first).2
           db_after_first_unique (run_pair _ _ _)).
  - reflexivity.
  - rewrite db_after_first_invoices. by eexists.
Defined.

(** ** Identifiers stay unique *)

(** X4. If the identifiers in the store and those the calls give to the
    invoices they create are pairwise distinct, then after the calls,
    whichever of them fail, the stored invoices still have pairwise
    distinct identifiers, each of them one of the store before or one a
    call created. *)
Theorem unique_ids_kept (validate : document → result document) (calls : list call)
    (db : DB) :
  NoDup (map Invoice.id (invoices db) ++ created_by calls) →
  unique_ids (serve validate calls db).1
  ∧ map Invoice.id (invoices (serve validate calls db).1)
    `sublist_of` map Invoice.id (invoices db) ++ created_by calls.
Proof.
  assert (Hsub : ∀ calls db,
            map Invoice.id (invoices (serve validate calls db).1)
            `sublist_of` map Invoice.id (invoices db) ++ created_by calls).
  { clear. induction calls as [|c calls IH]; intros db.
    - simpl. by rewrite app_nil_r.
    - rewrite serve_cons, created_by_cons. cbn [fst].
      pose proof (wp_serve1 validate c db _ (handle_ids validate (caller c) (req c) db))
        as Hids. cbv beta in Hids.
      etrans; [apply IH|]. rewrite app_assoc. by apply sublist_app. }
  intros Hnodup. split; [|apply Hsub].
  unfold unique_ids. apply (sublist_NoDup _ _ Hnodup), Hsub.
Qed.

Lemma unique_ids_kept_witness : unique_ids (serve Ok after_first db_after_first).1.
Proof.
  apply (unique_ids_kept Ok after_first db_after_first).
  rewrite db_after_first_invoices. apply (bool_decide_unpack _). vm_compute. exact I.
Defined.

(** ** Settings that cannot give a number *)

Lemma create_invoice_number_error (settings_uuid invoice_uuid : string) (now : datetime)
    (invoice_data : InvoiceCreate.t) (user_id : string) (fault : option nat)
    (db : DB) (d : document) (e : error) :
  List.find (settings_of user_id) (settings db) = Some d →
  invoice_number_of d = Raise e →
  run (create_invoice settings_uuid invoice_uuid now invoice_data user_id) fault db
  = (db, Raise (match fault with Some O => DependencyFailure | _ => e end)).
Proof.
  intros Hd He. unfold create_invoice.
  destruct fault as [[|k]|]; run_simpl; rewrite ?Hd; cbv beta iota; rewrite ?He;
    reflexivity.
Qed.

(** X5. The number is formatted before anything is written: when the
    tenant's settings record has no prefix or no counter, or a counter
    that is a string or null, [create_invoice] raises the error of the
    formatting ([KeyError], [ValueError], [TypeError]) and the store is
    as it was: no invoice, no increment. *)
Theorem create_invoice_unformattable (settings_uuid invoice_uuid : string)
    (now : datetime) (invoice_data : InvoiceCreate.t) (user_id : string) (db : DB)
    (d : document) :
  List.find (settings_of user_id) (settings db) = Some d →
  (d !! "invoice_prefix" = None →
   run (create_invoice settings_uuid invoice_uuid now invoice_data user_id) None db
   = (db, Raise (KeyError "invoice_prefix")))
  ∧ (is_Some (d !! "invoice_prefix") →
     (d !! "invoice_counter" = None →
      run (create_invoice settings_uuid invoice_uuid now invoice_data user_id) None db
      = (db, Raise (KeyError "invoice_counter")))
     ∧ (∀ s, d !! "invoice_counter" = Some (VStr s) →
        run (create_invoice settings_uuid invoice_uuid now invoice_data user_id) None db
        = (db, Raise ValueError))
     ∧ (d !! "invoice_counter" = Some VNull →
        run (create_invoice settings_uuid invoice_uuid now invoice_data user_id) None db
        = (db, Raise TypeError))).
Proof.
  intros Hd. split; [|intros [v Hv]; split; [|split]].
  - intros Hp.
    apply (create_invoice_number_error _ _ _ _ _ None db d _ Hd).
    unfold invoice_number_of, subscript. by rewrite Hp.
  - intros Hc.
    apply (create_invoice_number_error _ _ _ _ _ None db d _ Hd).
    unfold invoice_number_of, subscript. by rewrite Hv, Hc.
  - intros s Hc.
    apply (create_invoice_number_error _ _ _ _ _ None db d _ Hd).
    unfold invoice_number_of, subscript. by rewrite Hv, Hc.
  - intros Hc.
    apply (create_invoice_number_error _ _ _ _ _ None db d _ Hd).
    unfold invoice_number_of, subscript. by rewrite Hv, Hc.
Qed.

Definition db_with_text_counter : DB :=
  mkDB [] [] [] []
    [ {[ "user_id" := VStr "T"; "invoice_prefix" := VStr "INV";
         "invoice_counter" := VStr "7" ]} ].

Lemma create_invoice_unformattable_witness :
  run (create_invoice "s1" "i1" 0 (payload "invoice") "T") None db_with_text_counter
  = (db_with_text_counter, Raise ValueError).
Proof.
  destruct (create_invoice_unformattable "s1" "i1" 0 (payload "invoice") "T"
              db_with_text_counter
              {[ "user_id" := VStr "T"; "invoice_prefix" := VStr "INV";
                 "invoice_counter" := VStr "7" ]} eq_refl) as [_ H].
  destruct (H ltac:(by eexists)) as (_ & H2 & _).
  exact (H2 "7" eq_refl).
Defined.

(** X6. A settings update for a tenant that has no record yet inserts a
    record made of the tenant and the submitted fields only, without the
    defaults. If the fields bring no prefix or no counter, every later
    [create_invoice] of the tenant fails with [KeyError] and writes
    nothing: the defaults are only written when no record exists. *)
Theorem update_settings_before_defaults (settings_data : document) (user_id : string)
    (db : DB) :
  List.find (settings_of user_id) (settings db) = None →
  map_Forall (λ _ v, bson_encodable v = true) settings_data →
  settings_data !! "user_id" = None →
  settings_data !! "invoice_prefix" = None
  ∨ settings_data !! "invoice_counter" = None →
  let db1 :=
    with_docs db_settings
      (settings db ++ [settings_data ∪ {[ "user_id" := VStr user_id ]}]) db in
  run (update_settings settings_data user_id) None db
  = (db1, Ok "Settings updated successfully")
  ∧ ∀ settings_uuid invoice_uuid now invoice_data,
      ∃ key,
        run (create_invoice settings_uuid invoice_uuid now invoice_data user_id) None db1
        = (db1, Raise (KeyError key)).
Proof.
  intros Hnone Henc Hu Hmiss db1. split.
  - unfold update_settings. rewrite bool_decide_eq_true_2 by done.
    run_simpl. by rewrite Hnone.
  - intros settings_uuid invoice_uuid now invoice_data.
    set (d := settings_data ∪ {[ "user_id" := VStr user_id ]}).
    assert (Hd : List.find (settings_of user_id) (settings db1) = Some d).
    { subst db1. store_simpl. rewrite find_snoc, Hnone.
      unfold settings_of. rewrite bool_decide_eq_true_2; [done|].
      subst d. rewrite lookup_union_r by done. apply lookup_singleton_eq. }
    assert (Hother : ∀ k, k ≠ "user_id" → d !! k = settings_data !! k).
    { intros k Hk. subst d. rewrite lookup_union, lookup_singleton_ne by done.
      by destruct (settings_data !! k). }
    destruct (settings_data !! "invoice_prefix") as [v|] eqn:Hp.
    + destruct Hmiss as [|Hc]; [done|]. exists "invoice_counter".
      apply (create_invoice_number_error _ _ _ _ _ None db1 d _ Hd).
      unfold invoice_number_of, subscript.
      by rewrite (Hother "invoice_prefix"), Hp, (Hother "invoice_counter"), Hc.
    + exists "invoice_prefix".
      apply (create_invoice_number_error _ _ _ _ _ None db1 d _ Hd).
      unfold invoice_number_of, subscript.
      by rewrite (Hother "invoice_prefix"), Hp.
Qed.

Lemma update_settings_before_defaults_witness :
  run (update_settings {[ "company_name" := VStr "IMAGICITY" ]} "T") None empty_db
  = (with_docs db_settings
       [ {[ "company_name" := VStr "IMAGICITY" ]} ∪ {[ "user_id" := VStr "T" ]} ]
       empty_db,
     Ok "Settings updated successfully").
Proof.
  apply (update_settings_before_defaults {[ "company_name" := VStr "IMAGICITY" ]} "T"
           empty_db).
  - reflexivity.
  - apply map_Forall_singleton. reflexivity.
  - reflexivity.
  - left. reflexivity.
Defined.

(** ** A number issued twice *)

(** X7. The counter is advanced after the invoice is stored. When that
    last round trip fails, the creation fails with the invoice in the
    store, and the next creation of the tenant is given the same number:
    two stored invoices then carry it. *)
Theorem number_reissued_after_failed_increment (settings_uuid invoice_uuid : string)
    (now : datetime) (invoice_data : InvoiceCreate.t)
    (settings_uuid2 invoice_uuid2 : string) (now2 : datetime)
    (invoice_data2 : InvoiceCreate.t) (user_id : string) (db : DB)
    (p : string) (c : Z) :
  settings_record user_id db p c → int64 (c + 1) = true →
  let number := p +:+ "-" +:+ format_04d c in
  let first := Invoice_of invoice_uuid now invoice_data number user_id in
  let second := Invoice_of invoice_uuid2 now2 invoice_data2 number user_id in
  let db1 := with_docs db_invoices (invoices db ++ [first]) db in
  run (create_invoice settings_uuid invoice_uuid now invoice_data user_id)
    (Some 2%nat) db
  = (db1, Raise DependencyFailure)
  ∧ ∃ db2,
      run (create_invoice settings_uuid2 invoice_uuid2 now2 invoice_data2 user_id)
        None db1
      = (db2, Ok second)
      ∧ invoices db2 = invoices db ++ [first; second]
      ∧ Invoice.invoice_number first = Invoice.invoice_number second.
Proof.
  intros (d & Hd & Hp & Hc) Hroom number first second db1. split.
  - unfold create_invoice. run_simpl. rewrite Hd.
    by rewrite (invoice_number_of_numbered d p c Hp Hc).
  - eexists. split; [|split; [|reflexivity]].
    + unfold create_invoice. subst db1. run_simpl. rewrite Hd.
      rewrite (invoice_number_of_numbered d p c Hp Hc). cbv beta iota. store_simpl.
      rewrite Hd. unfold inc. rewrite Hc, Hroom. reflexivity.
    + store_simpl. by rewrite <- app_assoc.
Qed.

Lemma number_reissued_after_failed_increment_witness :
  run (create_invoice "s2" "i2" 1 (payload "invoice") "T") (Some 2%nat) db_after_first
  = (with_docs db_invoices
       (invoices db_after_first
        ++ [Invoice_of "i2" 1 (payload "invoice") ("INV" +:+ "-" +:+ format_04d 2) "T"])
       db_after_first,
     Raise DependencyFailure).
Proof.
  apply (number_reissued_after_failed_increment "s2" "i2" 1 (payload "invoice")
           "s3" "i3" 2 (payload "invoice") "T" db_after_first "INV" 2).
  - exact db_after_first_record.
  - reflexivity.
Defined.

(** ** The counter at its bound *)

(** X8. A counter at the largest 64-bit integer cannot be incremented:
    the creation stores its invoice, numbered with that counter, and then
    fails on the increment, which is rejected. The settings are as they
    were, so every later creation goes the same way. *)
Theorem create_invoice_counter_at_bound (settings_uuid invoice_uuid : string)
    (now : datetime) (invoice_data : InvoiceCreate.t) (user_id : string) (db : DB)
    (p : string) :
  settings_record user_id db p (2 ^ 63 - 1) →
  let db1 :=
    with_docs db_invoices
      (invoices db
       ++ [Invoice_of invoice_uuid now invoice_data
             (p +:+ "-9223372036854775807") user_id]) db in
  run (create_invoice settings_uuid invoice_uuid now invoice_data user_id) None db
  = (db1, Raise WriteError)
  ∧ settings_record user_id db1 p (2 ^ 63 - 1).
Proof.
  intros (d & Hd & Hp & Hc) db1. split; [|by exists d].
  unfold create_invoice. run_simpl. rewrite Hd.
  rewrite (invoice_number_of_numbered d p _ Hp Hc). cbv beta iota. store_simpl.
  rewrite Hd. unfold inc. rewrite Hc. reflexivity.
Qed.

Definition db_at_bound : DB :=
  mkDB [] [] [] []
    [ {[ "user_id" := VStr "T"; "invoice_prefix" := VStr "INV";
         "invoice_counter" := VInt (2 ^ 63 - 1) ]} ].

Lemma create_invoice_counter_at_bound_witness :
  settings_record "T"
    (with_docs db_invoices
       (invoices db_at_bound
        ++ [Invoice_of "i1" 0 (payload "invoice") ("INV" +:+ "-9223372036854775807") "T"])
       db_at_bound)
    "INV" (2 ^ 63 - 1).
Proof.
  apply (create_invoice_counter_at_bound "s1" "i1" 0 (payload "invoice") "T"
           db_at_bound "INV").
  eexists. split; [reflexivity|]. split; reflexivity.
Defined.

(** ** A conversion that fails after it has written *)

Lemma find_narrow {A : Type} (p q : A → bool) (l : list A) (d : A) :
  (∀ x, p x = true → q x = true) →
  List.find q l = Some d → p d = true → List.find p l = Some d.
Proof.
  intros Hpq. induction l as [|x l IH]; simpl; [done|].
  destruct (q x) eqn:Eq.
  - intros [= ->] Hd. by rewrite Hd.
  - destruct (p x) eqn:Ep; [|done]. by rewrite (Hpq x Ep) in Eq.
Qed.

(** With a quotation and a settings record in place the round trips of
    [convert_quotation_to_invoice] are, in order: 0 the read of the
    quotation, 1 the read of the settings, 2 the update of the record,
    3 the increment of the counter, 4 the read back. *)

(** X9. The conversion writes the record before the counter and reads
    the record back last. If the increment fails, the call fails with the
    record already converted under the number [p-c] and the counter still
    at [c], so that the next creation is given [p-c] again. If the read
    back fails, the call fails although record and counter are both
    written. In both cases a retry finds no quotation and answers 404. *)
Theorem conversion_fails_after_writing (invoice_id user_id : string) (db : DB)
    (q : Invoice.t) (p : string) (c : Z) :
  unique_ids db →
  List.find (quotation_by_id_and_user invoice_id user_id) (invoices db) = Some q →
  settings_record user_id db p c → int64 (c + 1) = true →
  ∃ converted,
    set_type_and_number "invoice" (p +:+ "-" +:+ format_04d c) q = Ok converted
    ∧ (∃ db3,
         run (convert_quotation_to_invoice invoice_id user_id) (Some 3%nat) db
         = (db3, Raise DependencyFailure)
         ∧ List.find (by_id_and_user invoice_id user_id) (invoices db3) = Some converted
         ∧ settings_record user_id db3 p c
         ∧ run (convert_quotation_to_invoice invoice_id user_id) None db3
           = (db3, Raise (HTTPException 404 "Quotation not found")))
    ∧ (∃ db4,
         run (convert_quotation_to_invoice invoice_id user_id) (Some 4%nat) db
         = (db4, Raise DependencyFailure)
         ∧ List.find (by_id_and_user invoice_id user_id) (invoices db4) = Some converted
         ∧ settings_record user_id db4 p (c + 1)
         ∧ run (convert_quotation_to_invoice invoice_id user_id) None db4
           = (db4, Raise (HTTPException 404 "Quotation not found"))).
Proof.
  intros Hu Hq (d & Hd & Hp & Hc) Hroom.
  destruct (replace_first_narrow (quotation_by_id_and_user invoice_id user_id)
              (by_id invoice_id)
              (Invoice.mk (Invoice.id q) (p +:+ "-" +:+ format_04d c)
                 (Invoice.client_id q) (Invoice.invoice_date q) (Invoice.due_date q)
                 (Invoice.items q) (Invoice.subtotal q) (Invoice.cgst q) (Invoice.sgst q)
                 (Invoice.igst q) (Invoice.total q) (Invoice.status q) "invoice"
                 (Invoice.is_recurring q) (Invoice.notes q) (Invoice.created_at q)
                 (Invoice.user_id q))
              q (invoices db)
              (quotation_by_id invoice_id user_id) (by_id_unique invoice_id _ Hu) Hq)
    as [Hfirst _].
  eexists. split; [reflexivity|].
  set (converted := Invoice.mk _ _ _ _ _ _ _ _ _ _ _ _ _ _ _ _ _).
  pose proof (find_Some_true _ _ _ Hq) as Hqq.
  apply andb_true_iff in Hqq as [[Hi%bool_decide_eq_true Hown%bool_decide_eq_true]%andb_true_iff
                                  Hty%bool_decide_eq_true].
  assert (Hback : List.find (by_id invoice_id)
                    (replace_first (by_id invoice_id) converted (invoices db))
                  = Some converted).
  { apply find_replace_first_same; [by apply bool_decide_eq_true|by rewrite Hfirst]. }
  assert (Hmine : List.find (by_id_and_user invoice_id user_id)
                    (replace_first (by_id invoice_id) converted (invoices db))
                  = Some converted).
  { apply (find_narrow _ (by_id invoice_id)); [apply by_id_and_user_by_id|done|].
    unfold by_id_and_user. subst converted. simpl.
    by rewrite !bool_decide_eq_true_2. }
  assert (Hgone : List.find (quotation_by_id_and_user invoice_id user_id)
                    (replace_first (by_id invoice_id) converted (invoices db))
                  = None).
  { apply (converted_not_eligible invoice_id user_id
             (with_docs db_invoices
                (replace_first (by_id invoice_id) converted (invoices db)) db)
             converted); [|done|done].
    by apply unique_ids_replace_first. }
  split.
  - exists (with_docs db_invoices
              (replace_first (by_id invoice_id) converted (invoices db)) db).
    split; [|split; [|split]].
    + unfold convert_quotation_to_invoice. run_simpl. rewrite Hq. cbv beta iota.
      store_simpl. rewrite Hd. cbv beta iota.
      rewrite (invoice_number_of_numbered d p c Hp Hc). cbv beta iota. store_simpl.
      rewrite Hfirst. cbn [set_type_and_number]. reflexivity.
    + done.
    + by exists d.
    + unfold convert_quotation_to_invoice. run_simpl. by rewrite Hgone.
  - exists (with_docs db_settings
              (replace_first (settings_of user_id)
                 (<["invoice_counter" := VInt (c + 1)]> d) (settings db))
              (with_docs db_invoices
                 (replace_first (by_id invoice_id) converted (invoices db)) db)).
    split; [|split; [|split]].
    + unfold convert_quotation_to_invoice. run_simpl. rewrite Hq. cbv beta iota.
      store_simpl. rewrite Hd. cbv beta iota.
      rewrite (invoice_number_of_numbered d p c Hp Hc). cbv beta iota. store_simpl.
      rewrite Hfirst. cbn [set_type_and_number]. cbv beta iota. store_simpl.
      rewrite Hd. unfold inc. rewrite Hc, Hroom. reflexivity.
    + done.
    + apply (settings_record_inc user_id db _ p c d
               (<["invoice_counter" := VInt (c + 1)]> d) Hd).
      * apply settings_record_numbering. by exists d.
      * unfold inc. by rewrite Hc, Hroom.
      * reflexivity.
    + unfold convert_quotation_to_invoice. run_simpl. by rewrite Hgone.
Qed.

Lemma db_with_quotation_record : settings_record "T" db_with_quotation "INV" 4.
Proof. apply settings_record_decide. vm_compute. reflexivity. Qed.

Lemma db_with_quotation_unique : unique_ids db_with_quotation.
Proof. apply unique_ids_decide. vm_compute. reflexivity. Qed.

Lemma conversion_fails_after_writing_witness :
  ∃ converted,
    set_type_and_number "invoice" ("INV" +:+ "-" +:+ format_04d 4)
      (Invoice_of "i3" 2 (payload "quotation") "INV-0003" "T")
    = Ok converted.
Proof.
  destruct (conversion_fails_after_writing "i3" "T" db_with_quotation
              (Invoice_of "i3" 2 (payload "quotation") "INV-0003" "T") "INV" 4
              db_with_quotation_unique ltac:(vm_compute; reflexivity)
              db_with_quotation_record eq_refl) as (converted & H & _).
  by exists converted.
Defined.

(** ** Reading and writing the settings *)

(** X10. The first [get_settings] of a tenant without a record inserts
    the defaults, prefix ["INV"] and counter 1, and returns them. From
    then on [get_settings] writes nothing, whichever round trip fails,
    and answers with the stored record as validated. *)
Theorem get_settings_creates_once (validate : document → result document)
    (settings_uuid user_id : string) (db : DB) :
  List.find (settings_of user_id) (settings db) = None →
  let db1 :=
    with_docs db_settings (settings db ++ [Settings settings_uuid user_id]) db in
  run (get_settings validate settings_uuid user_id) None db
  = (db1, Ok (Settings settings_uuid user_id))
  ∧ settings_record user_id db1 "INV" 1
  ∧ ∀ settings_uuid2 fault,
      (run (get_settings validate settings_uuid2 user_id) fault db1).1 = db1
      ∧ (fault = None →
         (run (get_settings validate settings_uuid2 user_id) fault db1).2
         = validate (Settings settings_uuid user_id)).
Proof.
  intros Hnone db1.
  assert (Hd : List.find (settings_of user_id) (settings db1)
               = Some (Settings settings_uuid user_id)).
  { subst db1. store_simpl.
    by rewrite find_snoc, Hnone, settings_of_Settings, bool_decide_eq_true_2. }
  split; [|split].
  - unfold get_settings. run_simpl. by rewrite Hnone.
  - by exists (Settings settings_uuid user_id).
  - intros settings_uuid2 fault.
    assert (Hid : with_default_id settings_uuid2 (Settings settings_uuid user_id)
                  = Settings settings_uuid user_id) by reflexivity.
    unfold get_settings.
    destruct fault as [[|k]|]; run_simpl; rewrite ?Hd, ?Hid; by destruct (validate _).
Qed.

Lemma get_settings_creates_once_witness :
  settings_record "T"
    (with_docs db_settings (settings empty_db ++ [Settings "s1" "T"]) empty_db) "INV" 1.
Proof.
  apply (get_settings_creates_once Ok "s1" "T" empty_db). reflexivity.
Defined.

(** X11. A settings update of a tenant that has a record replaces the
    fields it submits and keeps every other field of the record. A later
    [get_settings] writes nothing and answers with [Settings(...)] of
    that record: its validation, with the [id] drawn for the call when
    the record has none. When the update brings a new prefix and no
    counter, the next invoice is numbered with the new prefix and the
    counter that was there. *)
Theorem update_settings_fields (validate : document → result document)
    (settings_data : document) (user_id : string) (db : DB) (d : document) :
  List.find (settings_of user_id) (settings db) = Some d →
  map_Forall (λ _ v, bson_encodable v = true) settings_data →
  settings_data !! "user_id" = None →
  ∃ db1 d1,
    run (update_settings settings_data user_id) None db
    = (db1, Ok "Settings updated successfully")
    ∧ List.find (settings_of user_id) (settings db1) = Some d1
    ∧ (∀ k v, settings_data !! k = Some v → d1 !! k = Some v)
    ∧ (∀ k, settings_data !! k = None → d1 !! k = d !! k)
    ∧ (∀ settings_uuid,
         run (get_settings validate settings_uuid user_id) None db1
         = (db1, validate (with_default_id settings_uuid d1)))
    ∧ (∀ p c settings_uuid invoice_uuid now invoice_data,
         settings_data !! "invoice_prefix" = Some (VStr p) →
         settings_data !! "invoice_counter" = None →
         d !! "invoice_counter" = Some (VInt c) →
         int64 (c + 1) = true →
         ∃ db2,
           run (create_invoice settings_uuid invoice_uuid now invoice_data user_id)
             None db1
           = (db2, Ok (Invoice_of invoice_uuid now invoice_data
                         (p +:+ "-" +:+ format_04d c) user_id))).
Proof.
  intros Hd Henc Hu.
  exists (with_docs db_settings
            (replace_first (settings_of user_id) (settings_data ∪ d) (settings db)) db),
    (settings_data ∪ d).
  assert (Hkept : ∀ k, settings_data !! k = None → (settings_data ∪ d) !! k = d !! k).
  { intros k Hk. by rewrite lookup_union_r. }
  assert (Hd1 : List.find (settings_of user_id)
                  (replace_first (settings_of user_id) (settings_data ∪ d) (settings db))
                = Some (settings_data ∪ d)).
  { apply find_replace_first_same; [|by rewrite Hd].
    unfold settings_of. rewrite (Hkept "user_id" Hu).
    by apply (find_Some_true _ _ _ Hd). }
  split; [|split; [|split; [|split; [|split]]]].
  - unfold update_settings. rewrite bool_decide_eq_true_2 by done.
    run_simpl. by rewrite Hd.
  - done.
  - intros k v Hk. by apply lookup_union_Some_l.
  - done.
  - intros settings_uuid. unfold get_settings. run_simpl. rewrite Hd1.
    by destruct (validate _).
  - intros p c settings_uuid invoice_uuid now invoice_data Hp Hc Hold Hroom.
    assert (Hp1 : (settings_data ∪ d) !! "invoice_prefix" = Some (VStr p))
      by (by apply lookup_union_Some_l).
    assert (Hc1 : (settings_data ∪ d) !! "invoice_counter" = Some (VInt c))
      by (by rewrite (Hkept _ Hc)).
    eexists. unfold create_invoice. run_simpl. rewrite Hd1.
    rewrite (invoice_number_of_numbered _ p c Hp1 Hc1). cbv beta iota. store_simpl.
    rewrite Hd1. unfold inc. rewrite Hc1, Hroom. reflexivity.
Qed.

Lemma update_settings_fields_witness :
  ∃ db1 d1,
    run (update_settings {[ "invoice_prefix" := VStr "IMG" ]} "T") None db_after_first
    = (db1, Ok "Settings updated successfully")
    ∧ List.find (settings_of "T") (settings db1) = Some d1.
Proof.
  destruct db_after_first_record as (d & Hd & _).
  destruct (update_settings_fields Ok {[ "invoice_prefix" := VStr "IMG" ]} "T"
              db_after_first d Hd
              ltac:(by apply map_Forall_singleton) eq_refl)
    as (db1 & d1 & H1 & H2 & _).
  exists db1, d1. exact (conj H1 H2).
Defined.

(** ** The dashboard *)

Lemma filter_none {A : Type} (p : A → bool) (l : list A) :
  (∀ x, In x l → p x = false) → List.filter p l = [].
Proof.
  induction l as [|x l IH]; simpl; [done|]. intros H.
  rewrite (H x) by auto. apply IH. auto.
Qed.

Lemma In_take {A : Type} (n : nat) (l : list A) (x : A) : In x (take n l) → In x l.
Proof.
  intros H. apply list_elem_of_In, (subseteq_take n l). by apply list_elem_of_In.
Qed.

(** X12. An invoice enters a total only under one of the three statuses
    ["paid"], ["pending"] and ["overdue"]. For a tenant whose invoices
    carry other statuses and who has no expenses, which includes a tenant
    with nothing at all, the four amounts are the integer 0, while the
    invoices are still counted. *)
Theorem dashboard_without_amounts (user_id : string) (db : DB) :
  (∀ x, In x (invoices db) → Invoice.user_id x = user_id →
        Invoice.status x ≠ "paid" ∧ Invoice.status x ≠ "pending"
        ∧ Invoice.status x ≠ "overdue") →
  (∀ x, In x (expenses db) → Expense.user_id x ≠ user_id) →
  run (get_dashboard_stats user_id) None db
  = (db,
     Ok {| total_revenue := Int 0;
           pending_amount := Int 0;
           overdue_amount := Int 0;
           total_expenses := Int 0;
           client_count :=
             Z.of_nat (length (List.filter (clients_of user_id) (clients db)));
           invoice_count :=
             Z.of_nat
               (Nat.min 1000
                  (length (List.filter (invoices_of user_id) (invoices db)))) |}).
Proof.
  intros Hstatus Hexp. rewrite run_get_dashboard_stats. cbn [reads].
  assert (Hnone : ∀ s, s = "paid" ∨ s = "pending" ∨ s = "overdue" →
            totals_with_status s
              (take 1000 (List.filter (invoices_of user_id) (invoices db))) = []).
  { intros s Hs. unfold totals_with_status. rewrite filter_none; [done|].
    intros x Hx. apply In_take, filter_In in Hx as [Hx Hu].
    apply bool_decide_eq_true in Hu.
    apply bool_decide_eq_false. destruct (Hstatus x Hx Hu) as (? & ? & ?).
    destruct Hs as [-> | [-> | ->]]; done. }
  assert (Hnoexp : List.filter (expenses_of user_id) (expenses db) = []).
  { apply filter_none. intros x Hx. apply bool_decide_eq_false. by apply Hexp. }
  unfold stats_of. rewrite !Hnone, Hnoexp, length_take_1000 by auto.
  reflexivity.
Qed.

(** A tenant whose one invoice is a draft. *)
Definition draft_invoice : Invoice.t :=
  {| Invoice.id := "d1";
     Invoice.invoice_number := "INV-0001";
     Invoice.client_id := "c1";
     Invoice.invoice_date := "2024-01-01";
     Invoice.due_date := "2024-01-31";
     Invoice.items := [];
     Invoice.subtotal := float_of_int 100;
     Invoice.cgst := PrimFloat.zero;
     Invoice.sgst := PrimFloat.zero;
     Invoice.igst := PrimFloat.zero;
     Invoice.total := float_of_int 100;
     Invoice.status := "draft";
     Invoice.invoice_type := "invoice";
     Invoice.is_recurring := false;
     Invoice.notes := None;
     Invoice.created_at := 0;
     Invoice.user_id := "T" |}.

Definition db_with_draft : DB := mkDB [] [] [draft_invoice] [] [].

Lemma dashboard_without_amounts_witness :
  run (get_dashboard_stats "T") None db_with_draft
  = (db_with_draft,
     Ok {| total_revenue := Int 0; pending_amount := Int 0; overdue_amount := Int 0;
           total_expenses := Int 0; client_count := 0; invoice_count := 1 |}).
Proof.
  apply (dashboard_without_amounts "T" db_with_draft).
  - intros x [<-|[]] _. repeat split; discriminate.
  - intros x [].
Defined.

(** ** The width of a number *)

(** The digits of [n], the last one first, on [k] places. *)
Definition digit (r : N) (d : Decimal.uint) : Decimal.uint :=
  match r with
  | 0 => Decimal.D0 d | 1 => Decimal.D1 d | 2 => Decimal.D2 d | 3 => Decimal.D3 d
  | 4 => Decimal.D4 d | 5 => Decimal.D5 d | 6 => Decimal.D6 d | 7 => Decimal.D7 d
  | 8 => Decimal.D8 d | _ => Decimal.D9 d
  end%N.

Fixpoint places (k : nat) (n : N) : Decimal.uint :=
  match k with
  | O => Decimal.Nil
  | S k' => digit (n mod 10) (places k' (n / 10))
  end.

Lemma digit_spec (r : N) (d : Decimal.uint) :
  (r < 10)%N →
  Decimal.nb_digits (digit r d) = S (Decimal.nb_digits d)
  ∧ DecimalPos.Unsigned.of_lu (digit r d) = (r + 10 * DecimalPos.Unsigned.of_lu d)%N.
Proof.
  intros Hr.
  assert (r = 0 ∨ r = 1 ∨ r = 2 ∨ r = 3 ∨ r = 4 ∨ r = 5 ∨ r = 6 ∨ r = 7 ∨ r = 8
          ∨ r = 9)%N as H by lia.
  repeat destruct H as [-> | H]; try subst r;
    cbn [digit DecimalPos.Unsigned.of_lu Decimal.nb_digits]; split; lia.
Qed.

Lemma places_spec (k : nat) :
  ∀ n, (n < 10 ^ N.of_nat k)%N →
       Decimal.nb_digits (places k n) = k
       ∧ DecimalPos.Unsigned.of_lu (places k n) = n.
Proof.
  induction k as [|k IH]; intros n Hn.
  - simpl in *. split; [done|]. cbn [DecimalPos.Unsigned.of_lu]. lia.
  - rewrite Nat2N.inj_succ, N.pow_succ_r' in Hn. cbn [places].
    assert (Hr : (n mod 10 < 10)%N) by (apply N.mod_lt; lia).
    assert (Hq : (n / 10 < 10 ^ N.of_nat k)%N) by (apply N.Div0.div_lt_upper_bound; lia).
    destruct (IH _ Hq) as [Hlen Hval].
    destruct (digit_spec (n mod 10) (places k (n / 10)) Hr) as [-> ->].
    rewrite Hlen, Hval. split; [done|].
    pose proof (N.div_mod n 10). lia.
Qed.

(** A number below [10 ^ k] has at most [k] digits. *)
Lemma decimal_narrow (n : N) (k : nat) :
  (0 < k)%nat → (n < 10 ^ N.of_nat k)%N → (String.length (decimal n) ≤ k)%nat.
Proof.
  intros Hk Hn. destruct (places_spec k n Hn) as [Hlen Hval].
  unfold decimal. rewrite string_of_uint_length.
  assert (Hof : N.of_uint (Decimal.rev (places k n)) = n).
  { unfold N.of_uint. by rewrite DecimalPos.Unsigned.of_uint_alt, DecimalFacts.rev_rev. }
  rewrite <- Hof, DecimalN.Unsigned.to_of.
  etrans; [apply DecimalFacts.nb_digits_unorm|].
  - apply DecimalFacts.nb_digits_n0. rewrite DecimalFacts.nb_digits_rev. lia.
  - rewrite DecimalFacts.nb_digits_rev. lia.
Qed.

(** X13. The counter can be read back from its formatted form, so no two
    counters share one; the form has four characters exactly for the
    counters from -999 to 9999 and more for all others: nothing is ever
    cut off. *)
Theorem format_04d_lossless (z : Z) :
  parse_04d (format_04d z) = Some z
  ∧ (4 ≤ String.length (format_04d z))%nat
  ∧ (String.length (format_04d z) = 4%nat ↔ -999 ≤ z ≤ 9999).
Proof.
  assert (Hz : ∀ k s, String.length (zeros k +:+ s) = (k + String.length s)%nat).
  { induction k; intros; simpl; [done|]. by rewrite IHk. }
  split; [apply parse_format_04d|]. split; [apply format_04d_length|]. split.
  - intros Hlen. destruct (decide (z < -999)) as [Hlow|Hlow].
    + exfalso. unfold format_04d, zfill in Hlen.
      rewrite (proj2 (Z.ltb_lt _ _)) in Hlen by lia.
      cbn [String.length] in Hlen. rewrite Hz in Hlen.
      pose proof (decimal_bound (Z.abs_N z)) as Hb.
      assert (10 ^ N.of_nat (String.length (decimal (Z.abs_N z))) ≤ 10 ^ 3)%N
        by (apply N.pow_le_mono_r; lia).
      change (10 ^ 3)%N with 1000%N in *. lia.
    + split; [lia|]. destruct (decide (9999 < z)) as [Hhigh|]; [|lia].
      exfalso. rewrite (format_04d_wide z Hhigh) in Hlen.
      pose proof (decimal_wide (Z.to_N z)). lia.
  - intros Hrange. unfold format_04d, zfill. destruct (Z.ltb_spec z 0).
    + pose proof (decimal_narrow (Z.abs_N z) 3) as Hn.
      change (10 ^ N.of_nat 3)%N with 1000%N in Hn.
      cbn [String.length]. rewrite Hz. lia.
    + pose proof (decimal_narrow (Z.to_N z) 4) as Hn.
      change (10 ^ N.of_nat 4)%N with 10000%N in Hn.
      rewrite Hz. lia.
Qed.

(** * Properties of the email route *)

Section EmailFacts.
Context (title : string → string)
  (html_content : string → Invoice.t → Client.t → document → string)
  (smtp : string → string → string → option string).

(** X14. Sending an invoice by email writes nothing to the store,
    whatever the SMTP server answers and whichever round trip fails. *)
Theorem send_invoice_email_never_writes (invoice_id user_id : string)
    (fault : option nat) (db : DB) :
  (run (send_invoice_email title html_content smtp invoice_id user_id) fault db).1 = db.
Proof.
  apply (run_wp _ (λ db' _, db' = db)).
  unfold send_invoice_email, send_email_smtp. wp_go; try reflexivity.
  all: case_bool_decide; wp_go; reflexivity.
Qed.

(** X15. The invoice is read under the caller's name, but its client by
    the [client_id] alone: when the first client with that id has an
    email, the settings exist and the server takes the message, the
    email goes to that address, whoever owns the client. *)
Theorem send_invoice_email_recipient (invoice_id user_id : string) (db : DB)
    (invoice : Invoice.t) (client : Client.t) (email : string) (settings_doc : document) :
  List.find (by_id_and_user invoice_id user_id) (invoices db) = Some invoice →
  List.find (client_by_id (Invoice.client_id invoice)) (clients db) = Some client →
  Client.email client = Some email →
  email ≠ "" →
  List.find (settings_of user_id) (settings db) = Some settings_doc →
  smtp email
    (title (Invoice.invoice_type invoice) +:+ " " +:+ Invoice.invoice_number invoice
     +:+ " from IMAGICITY")
    (html_content (title (Invoice.invoice_type invoice)) invoice client settings_doc)
  = None →
  run (send_invoice_email title html_content smtp invoice_id user_id) None db
  = (db, Ok {| message := "Email sent successfully to " +:+ email;
               recipient := email;
               invoice_number := Invoice.invoice_number invoice |}).
Proof.
  intros Hi Hc He Hne Hs Hsent. unfold send_invoice_email, send_email_smtp.
  run_simpl. rewrite Hi. cbv beta iota. store_simpl. rewrite Hc, He.
  rewrite bool_decide_eq_false_2 by done. cbv beta iota. store_simpl.
  rewrite Hs, Hsent. reflexivity.
Qed.

(** X16. What is refused, in the order of the checks, with every read
    going through: no invoice of the caller under that id, 404; no client
    under the invoice's [client_id], or one without an email or with an
    empty one, 400; no settings record of the caller, an [AttributeError]
    from the body; and the exception of the SMTP server, 500 with its
    text. *)
Theorem send_invoice_email_refusals (invoice_id user_id : string) (db : DB) :
  (List.find (by_id_and_user invoice_id user_id) (invoices db) = None →
   run (send_invoice_email title html_content smtp invoice_id user_id) None db
   = (db, Raise (HTTPException 404 "Invoice not found")))
  ∧ ∀ invoice,
      List.find (by_id_and_user invoice_id user_id) (invoices db) = Some invoice →
      (match List.find (client_by_id (Invoice.client_id invoice)) (clients db) with
       | Some client => Client.email client = None ∨ Client.email client = Some ""
       | None => True
       end →
       run (send_invoice_email title html_content smtp invoice_id user_id) None db
       = (db, Raise (HTTPException 400 "Client email not found")))
      ∧ ∀ client email,
          List.find (client_by_id (Invoice.client_id invoice)) (clients db)
          = Some client →
          Client.email client = Some email → email ≠ "" →
          (List.find (settings_of user_id) (settings db) = None →
           run (send_invoice_email title html_content smtp invoice_id user_id) None db
           = (db, Raise AttributeError))
          ∧ ∀ settings_doc e,
              List.find (settings_of user_id) (settings db) = Some settings_doc →
              smtp email
                (title (Invoice.invoice_type invoice) +:+ " "
                 +:+ Invoice.invoice_number invoice +:+ " from IMAGICITY")
                (html_content (title (Invoice.invoice_type invoice)) invoice client
                   settings_doc)
              = Some e →
              run (send_invoice_email title html_content smtp invoice_id user_id)
                None db
              = (db, Raise (HTTPException 500 ("Failed to send email: " +:+ e))).
Proof.
  split.
  - intros Hi. unfold send_invoice_email. run_simpl. by rewrite Hi.
  - intros invoice Hi. split.
    + intros Hc. unfold send_invoice_email. run_simpl. rewrite Hi. cbv beta iota.
      store_simpl.
      destruct (List.find (client_by_id (Invoice.client_id invoice)) (clients db))
        as [client|]; [|done].
      by destruct Hc as [-> | ->].
    + intros client email Hc He Hne. split.
      * intros Hs. unfold send_invoice_email. run_simpl. rewrite Hi. cbv beta iota.
        store_simpl. rewrite Hc, He. rewrite bool_decide_eq_false_2 by done.
        cbv beta iota. store_simpl. by rewrite Hs.
      * intros settings_doc e Hs Hsent. unfold send_invoice_email, send_email_smtp.
        run_simpl. rewrite Hi. cbv beta iota. store_simpl. rewrite Hc, He.
        rewrite bool_decide_eq_false_2 by done. cbv beta iota. store_simpl.
        rewrite Hs, Hsent. reflexivity.
Qed.
End EmailFacts.

(** A client of tenant ["B"] under the [client_id] of the payload, which
    is the first invoice of ["T"]'s. *)
Definition foreign_client : Client.t :=
  {| Client.id := InvoiceCreate.client_id (payload "invoice");
     Client.name := "Somebody";
     Client.business_name := None;
     Client.email := Some "somebody@example.com";
     Client.phone := None;
     Client.gstin := None;
     Client.country := None;
     Client.address := None;
     Client.business_address := None;
     Client.created_at := 0;
     Client.user_id := "B" |}.

Definition db_with_foreign_client : DB :=
  with_docs db_clients [foreign_client] db_after_first.

Lemma send_invoice_email_recipient_witness :
  run (send_invoice_email (λ s, s) (λ _ _ _ _, "") (λ _ _ _, None) "i1" "T") None
    db_with_foreign_client
  = (db_with_foreign_client,
     Ok {| message := "Email sent successfully to " +:+ "somebody@example.com";
           recipient := "somebody@example.com";
           invoice_number := Invoice.invoice_number first_invoice |}).
Proof.
  destruct db_after_first_record as (d & Hd & _).
  apply (send_invoice_email_recipient (λ s, s) (λ _ _ _ _, "") (λ _ _ _, None)
           "i1" "T" db_with_foreign_client first_invoice foreign_client
           "somebody@example.com" d).
  - unfold db_with_foreign_client. store_simpl. rewrite db_after_first_invoices.
    reflexivity.
  - reflexivity.
  - reflexivity.
  - done.
  - exact Hd.
  - reflexivity.
Defined.

Lemma send_invoice_email_refusals_witness :
  run (send_invoice_email (λ s, s) (λ _ _ _ _, "") (λ _ _ _, None) "i1" "B") None
    db_with_foreign_client
  = (db_with_foreign_client, Raise (HTTPException 404 "Invoice not found")).
Proof.
  apply (send_invoice_email_refusals (λ s, s) (λ _ _ _ _, "") (λ _ _ _, None)
           "i1" "B" db_with_foreign_client).
  unfold db_with_foreign_client. store_simpl. rewrite db_after_first_invoices.
  reflexivity.
Defined.

(** * Properties of the client, service and expense routes *)

Section ResourceFrames.
Context {A : Type} (c : collection A) (key owner : A → string).

(** What a write of [u] leaves of the documents of another owner [a]. *)
Definition kept (a : string) (db db' : DB) : Prop :=
  db' = db
  ∨ ∃ l', db' = with_docs c l' db
          ∧ List.filter (owned owner a) l' = List.filter (owned owner a) (docs c db).

Lemma resource_create_kept (a : string) (doc : A) (db : DB) :
  owner doc ≠ a →
  wp (resource_create c doc) (λ db' _, kept a db db') db.
Proof.
  intros Hdoc. unfold resource_create. wp_go; try (by left).
  all: right; eexists; split; [reflexivity|].
  all: rewrite filter_snoc; unfold owned at 2.
  all: by rewrite bool_decide_eq_false_2, app_nil_r.
Qed.

Lemma resource_update_kept (a : string) (update : A → result A) (detail i u : string)
    (db : DB) :
  a ≠ u → (∀ d d', update d = Ok d' → owner d' = owner d) →
  wp (resource_update c key owner update detail i u) (λ db' _, kept a db db') db.
Proof.
  intros Hau Hupd. unfold resource_update. wp_go; try (by left).
  all: right; eexists; split; [reflexivity|].
  all: lazymatch goal with
       | Hd : List.find (keyed _ _ _ _) _ = Some ?d, Hset : _ ?d = Ok ?d' |- _ =>
           apply filter_replace_first_other;
           [intros x; by apply keyed_not_owned|];
           apply bool_decide_eq_false; rewrite (Hupd d d' Hset);
           pose proof (find_Some_true _ _ _ Hd) as [_ ->]%keyed_true; congruence
       end.
Qed.

Lemma resource_delete_kept (a : string) (detail message i u : string) (db : DB) :
  a ≠ u →
  wp (resource_delete c key owner detail message i u) (λ db' _, kept a db db') db.
Proof.
  intros Hau. unfold resource_delete. wp_go; try (by left).
  all: right; eexists; split; [reflexivity|].
  all: apply filter_delete_first_other; intros x; by apply keyed_not_owned.
Qed.
End ResourceFrames.

(** ** Clients *)

(** X17. A client created under an identifier the store does not hold
    yet is stored last in the collection, as the document the call
    returns, and nothing else is written; its owner reads it back by that
    identifier, and another tenant gets 404. The creation fails only when
    its one round trip does, and then writes nothing. *)
Theorem create_client_then_get (uuid : string) (now : datetime)
    (client_data : ClientCreate.t) (user_id : string) (fault : option nat)
    (db db' : DB) (r : result Client.t) :
  ¬ In uuid (map Client.id (clients db)) →
  run (create_client uuid now client_data user_id) fault db = (db', r) →
  let client := Client_of uuid now client_data user_id in
  (fault = None → r = Ok client)
  ∧ (is_Ok r = false → r = Raise DependencyFailure ∧ db' = db)
  ∧ (is_Ok r = true →
     r = Ok client
     ∧ db' = with_docs db_clients (clients db ++ [client]) db
     ∧ run (get_client uuid user_id) None db' = (db', Ok client)
     ∧ ∀ other, other ≠ user_id →
         run (get_client uuid other) None db'
         = (db', Raise (HTTPException 404 "Client not found"))).
Proof.
  intros Hfresh Hrun client.
  destruct (resource_create_run db_clients client fault db db' r Hrun) as [Hout Hnone].
  split; [done|]. split.
  - destruct r; [done|]. by destruct Hout as [-> ->].
  - destruct r as [x|]; [|done]. intros _. destruct Hout as [-> ->]. store_simpl.
    split; [done|]. split; [done|].
    pose proof (find_keyed_fresh Client.id Client.user_id uuid) as Hnew.
    split.
    + unfold get_client, client_by_id_and_user. run_simpl.
      rewrite find_snoc. fold (keyed Client.id Client.user_id uuid user_id).
      rewrite (Hnew user_id _ Hfresh). unfold keyed. simpl.
      by rewrite !bool_decide_eq_true_2.
    + intros other Hother. unfold get_client, client_by_id_and_user. run_simpl.
      rewrite find_snoc. fold (keyed Client.id Client.user_id uuid other).
      rewrite (Hnew other _ Hfresh). unfold keyed. simpl.
      by rewrite (bool_decide_eq_false_2 (user_id = other)), andb_false_r.
Qed.

Definition first_client_data : ClientCreate.t :=
  {| ClientCreate.name := "Somebody";
     ClientCreate.business_name := None;
     ClientCreate.email := Some "somebody@example.com";
     ClientCreate.phone := None;
     ClientCreate.gstin := None;
     ClientCreate.country := None;
     ClientCreate.address := None;
     ClientCreate.business_address := None |}.

Definition first_client : Client.t := Client_of "c1" 0 first_client_data "T".

Definition db_with_client : DB := mkDB [first_client] [] [] [] [].

Lemma create_client_then_get_witness :
  run (get_client "c1" "T") None db_with_client = (db_with_client, Ok first_client).
Proof.
  apply (create_client_then_get "c1" 0 first_client_data "T" None empty_db
           db_with_client (Ok first_client)).
  - simpl. tauto.
  - reflexivity.
  - reflexivity.
Defined.

(** X18. With identifiers unique, [update_client] fails with 404 (or on
    the read itself) and writes nothing when the caller has no client of
    that id. When it returns, the client returned is the one now stored
    under that id: every field of the payload has the submitted value and
    [id], [created_at] and [user_id] are those of the client before; no
    other document of the store has changed. *)
Theorem update_client_frame (client_id : string) (client_data : ClientCreate.t)
    (user_id : string) (fault : option nat) (db db' : DB) (r : result Client.t) :
  NoDup (map Client.id (clients db)) →
  run (update_client client_id client_data user_id) fault db = (db', r) →
  (List.find (client_by_id_and_user client_id user_id) (clients db) = None →
   db' = db ∧ is_Ok r = false
   ∧ (fault = None → r = Raise (HTTPException 404 "Client not found")))
  ∧ (∀ client, r = Ok client →
     ∃ existing,
       List.find (client_by_id_and_user client_id user_id) (clients db) = Some existing
       ∧ client = Client_of client_id (Client.created_at existing) client_data user_id
       ∧ db' = with_docs db_clients
                 (replace_first (client_by_id_and_user client_id user_id) client
                    (clients db)) db
       ∧ (∀ y, In y (clients db')
               ↔ y = client ∨ (In y (clients db) ∧ Client.id y ≠ client_id))
       ∧ run (get_client client_id user_id) None db' = (db', Ok client))
  ∧ (fault = None →
     is_Some (List.find (client_by_id_and_user client_id user_id) (clients db)) →
     is_Ok r = true).
Proof.
  intros Hl Hrun.
  destruct (resource_update_run db_clients Client.id Client.user_id (λ _ _, eq_refl)
              (set_client_data client_data) "Client not found" client_id user_id
              fault db db' r Hl
              ltac:(intros d; eexists; split; reflexivity) Hrun) as [Hout Hnone].
  store_simpl.
  change (keyed Client.id Client.user_id client_id user_id)
    with (client_by_id_and_user client_id user_id) in *.
  split; [|split].
  - intros Hmiss. rewrite Hmiss in Hnone. destruct r as [x|e].
    + destruct Hout as (old & Hold & _). congruence.
    + destruct (Hout Hmiss) as [-> _]. done.
  - intros client ->. destruct Hout as (old & Hold & [= Hset] & ->). exists old.
    pose proof (find_Some_true _ _ _ Hold) as Hk.
    apply (keyed_true Client.id Client.user_id) in Hk as [Hi Hown].
    rewrite Hi, Hown in Hset. subst client.
    split; [done|]. split; [done|]. split; [done|]. store_simpl. split.
    + intros y. apply (In_replace_keyed Client.id Client.user_id _ _ _ old _ y Hl Hold).
    + unfold get_client. run_simpl.
      rewrite (find_replace_first_same (client_by_id_and_user client_id user_id));
        [done| |by rewrite Hold].
      unfold client_by_id_and_user. simpl. by rewrite !bool_decide_eq_true_2.
  - intros Hf [old Hold]. rewrite Hold in Hnone. by rewrite (Hnone Hf).
Qed.

Definition second_client_data : ClientCreate.t :=
  {| ClientCreate.name := "Somebody Else";
     ClientCreate.business_name := Some "Else and Co";
     ClientCreate.email := None;
     ClientCreate.phone := None;
     ClientCreate.gstin := None;
     ClientCreate.country := None;
     ClientCreate.address := None;
     ClientCreate.business_address := None |}.

Lemma update_client_frame_witness :
  is_Ok (run (update_client "c1" second_client_data "T") None db_with_client).2 = true.
Proof.
  apply (update_client_frame "c1" second_client_data "T" None db_with_client
           (run (update_client "c1" second_client_data "T") None db_with_client).1
           (run (update_client "c1" second_client_data "T") None db_with_client).2).
  - simpl. apply NoDup_singleton.
  - apply run_pair.
  - reflexivity.
  - by eexists.
Defined.

(** X19. With identifiers unique, [delete_client] removes the caller's
    client of that id and nothing else, and the id is then unknown to
    every tenant. When the caller has no such client, or the call fails,
    nothing is written; the answer is 404 when the round trip goes
    through. *)
Theorem delete_client_spec (client_id user_id : string) (fault : option nat)
    (db db' : DB) (r : result string) :
  NoDup (map Client.id (clients db)) →
  run (delete_client client_id user_id) fault db = (db', r) →
  (is_Ok r = false → db' = db)
  ∧ (List.find (client_by_id_and_user client_id user_id) (clients db) = None →
     is_Ok r = false
     ∧ (fault = None → r = Raise (HTTPException 404 "Client not found")))
  ∧ (is_Ok r = true →
     r = Ok "Client deleted successfully"
     ∧ db' = with_docs db_clients
               (delete_first (client_by_id_and_user client_id user_id) (clients db)) db
     ∧ (∀ x, In x (clients db') ↔ In x (clients db) ∧ Client.id x ≠ client_id)
     ∧ ∀ other,
         run (get_client client_id other) None db'
         = (db', Raise (HTTPException 404 "Client not found")))
  ∧ (fault = None →
     is_Some (List.find (client_by_id_and_user client_id user_id) (clients db)) →
     r = Ok "Client deleted successfully").
Proof.
  intros Hu Hrun.
  destruct (resource_delete_run db_clients Client.id Client.user_id
              "Client not found" "Client deleted successfully" client_id user_id
              fault db db' r Hrun) as [Hout Hnone].
  store_simpl.
  change (keyed Client.id Client.user_id client_id user_id)
    with (client_by_id_and_user client_id user_id) in *.
  split; [|split; [|split]].
  - destruct r; [done|]. by destruct Hout.
  - intros Hmiss. rewrite Hmiss in Hnone, Hout. destruct r as [m|e].
    + by destruct Hout as (_ & [? ?] & _).
    + done.
  - destruct r as [m|e]; [|done]. intros _.
    destruct Hout as (-> & [old Hold] & ->). store_simpl.
    split; [done|]. split; [done|]. split.
    + intros x. apply (In_delete_keyed Client.id Client.user_id _ _ _ old x Hu Hold).
    + intros other.
      pose proof (find_delete_keyed Client.id Client.user_id client_id user_id other
                    _ old Hu Hold) as Hgone.
      change (List.find (client_by_id_and_user client_id other)
                (delete_first (client_by_id_and_user client_id user_id) (clients db))
              = None) in Hgone.
      unfold get_client. run_simpl. by rewrite Hgone.
  - intros Hf [old Hold]. rewrite Hold in Hnone. by apply Hnone.
Qed.

Lemma delete_client_spec_witness :
  (run (delete_client "c1" "T") None db_with_client).2 = Ok "Client deleted successfully".
Proof.
  apply (delete_client_spec "c1" "T" None db_with_client
           (run (delete_client "c1" "T") None db_with_client).1
           (run (delete_client "c1" "T") None db_with_client).2).
  - simpl. apply NoDup_singleton.
  - apply run_pair.
  - reflexivity.
  - by eexists.
Defined.

(** What a client route leaves of the store for another tenant [a]. *)
Definition clients_kept (a : string) (db db' : DB) : Prop :=
  List.filter (clients_of a) (clients db') = List.filter (clients_of a) (clients db)
  ∧ services db' = services db ∧ invoices db' = invoices db
  ∧ expenses db' = expenses db ∧ settings db' = settings db.

Lemma kept_clients_kept (a : string) (db db' : DB) :
  kept db_clients Client.user_id a db db' → clients_kept a db db'.
Proof. intros [->|(l' & -> & Hl')]; by repeat split. Qed.

(** X20. The client routes of one tenant leave the clients of every
    other tenant, and every other collection, as they were, whichever
    round trip fails; and a tenant that names the client of another
    tenant by its exact id gets 404 from the read, the update and the
    deletion alike. *)
Theorem client_routes_isolated (a b : string) (uuid client_id : string)
    (now : datetime) (client_data : ClientCreate.t) (fault : option nat) (db : DB) :
  a ≠ b →
  clients_kept a db (run (create_client uuid now client_data b) fault db).1
  ∧ clients_kept a db (run (update_client client_id client_data b) fault db).1
  ∧ clients_kept a db (run (delete_client client_id b) fault db).1
  ∧ (NoDup (map Client.id (clients db)) →
     ∀ x, In x (clients db) → Client.user_id x = a → Client.id x = client_id →
          run (get_client client_id b) None db
          = (db, Raise (HTTPException 404 "Client not found"))
          ∧ run (update_client client_id client_data b) None db
            = (db, Raise (HTTPException 404 "Client not found"))
          ∧ run (delete_client client_id b) None db
            = (db, Raise (HTTPException 404 "Client not found"))).
Proof.
  intros Hab. split; [|split; [|split]].
  - apply kept_clients_kept.
    apply (run_wp _ (λ db' _, kept db_clients Client.user_id a db db')).
    by apply resource_create_kept.
  - apply kept_clients_kept.
    apply (run_wp _ (λ db' _, kept db_clients Client.user_id a db db')).
    apply (resource_update_kept db_clients Client.id Client.user_id); [done|].
    by intros d d' [= <-].
  - apply kept_clients_kept.
    apply (run_wp _ (λ db' _, kept db_clients Client.user_id a db db')).
    by apply (resource_delete_kept db_clients Client.id Client.user_id).
  - intros Hl x Hx Ha Hi.
    assert (Hnone : List.find (client_by_id_and_user client_id b) (clients db) = None).
    { apply find_None_iff. intros y Hy.
      destruct (client_by_id_and_user client_id b y) eqn:E; [|done].
      apply (keyed_true Client.id Client.user_id) in E as [Hyi Hyb].
      assert (y = x) as -> by (apply (same_key Client.id (clients db)); congruence).
      congruence. }
    unfold get_client, update_client, delete_client. run_simpl.
    by rewrite Hnone.
Qed.

Lemma client_routes_isolated_witness :
  clients_kept "T" db_with_client
    (run (delete_client "c1" "B") None db_with_client).1.
Proof.
  apply (client_routes_isolated "T" "B" "c2" "c1" 1 second_client_data None
           db_with_client).
  done.
Defined.

(** ** Services *)

(** X21. With identifiers unique, [update_service] fails with 404 (or
    on the read itself) and writes nothing when the caller has no service
    of that id. When it returns, the service returned is the one now
    stored under that id: name, description, price and the two GST fields
    have the submitted values and [id], [created_at] and [user_id] are
    those of the service before; no other document of the store has
    changed. *)
Theorem update_service_frame (service_id : string) (service_data : ServiceCreate.t)
    (user_id : string) (fault : option nat) (db db' : DB) (r : result Service.t) :
  NoDup (map Service.id (services db)) →
  run (update_service service_id service_data user_id) fault db = (db', r) →
  (List.find (service_by_id_and_user service_id user_id) (services db) = None →
   db' = db ∧ is_Ok r = false
   ∧ (fault = None → r = Raise (HTTPException 404 "Service not found")))
  ∧ (∀ service, r = Ok service →
     ∃ existing,
       List.find (service_by_id_and_user service_id user_id) (services db)
       = Some existing
       ∧ service
         = Service_of service_id (Service.created_at existing) service_data user_id
       ∧ db' = with_docs db_services
                 (replace_first (service_by_id_and_user service_id user_id) service
                    (services db)) db
       ∧ (∀ y, In y (services db')
               ↔ y = service ∨ (In y (services db) ∧ Service.id y ≠ service_id))
       ∧ run (get_service service_id user_id) None db' = (db', Ok service))
  ∧ (fault = None →
     is_Some (List.find (service_by_id_and_user service_id user_id) (services db)) →
     is_Ok r = true).
Proof.
  intros Hl Hrun.
  destruct (resource_update_run db_services Service.id Service.user_id (λ _ _, eq_refl)
              (set_service_data service_data) "Service not found" service_id user_id
              fault db db' r Hl
              ltac:(intros d; eexists; split; reflexivity) Hrun) as [Hout Hnone].
  store_simpl.
  change (keyed Service.id Service.user_id service_id user_id)
    with (service_by_id_and_user service_id user_id) in *.
  split; [|split].
  - intros Hmiss. rewrite Hmiss in Hnone. destruct r as [x|e].
    + destruct Hout as (old & Hold & _). congruence.
    + destruct (Hout Hmiss) as [-> _]. done.
  - intros service ->. destruct Hout as (old & Hold & [= Hset] & ->). exists old.
    pose proof (find_Some_true _ _ _ Hold) as Hk.
    apply (keyed_true Service.id Service.user_id) in Hk as [Hi Hown].
    rewrite Hi, Hown in Hset. subst service.
    split; [done|]. split; [done|]. split; [done|]. store_simpl. split.
    + intros y.
      apply (In_replace_keyed Service.id Service.user_id _ _ _ old _ y Hl Hold).
    + unfold get_service. run_simpl.
      rewrite (find_replace_first_same (service_by_id_and_user service_id user_id));
        [done| |by rewrite Hold].
      unfold service_by_id_and_user. simpl. by rewrite !bool_decide_eq_true_2.
  - intros Hf [old Hold]. rewrite Hold in Hnone. by rewrite (Hnone Hf).
Qed.

Definition first_service_data : ServiceCreate.t :=
  {| ServiceCreate.name := "Design";
     ServiceCreate.description := None;
     ServiceCreate.price := float_of_int 1000;
     ServiceCreate.gst_type := "add";
     ServiceCreate.gst_percentage := float_of_int 18 |}.

Definition second_service_data : ServiceCreate.t :=
  {| ServiceCreate.name := "Design and print";
     ServiceCreate.description := Some "Two rounds";
     ServiceCreate.price := float_of_int 1500;
     ServiceCreate.gst_type := "inclusive";
     ServiceCreate.gst_percentage := float_of_int 18 |}.

Definition db_with_service : DB :=
  mkDB [] [Service_of "v1" 0 first_service_data "T"] [] [] [].

Lemma update_service_frame_witness :
  is_Ok (run (update_service "v1" second_service_data "T") None db_with_service).2
  = true.
Proof.
  apply (update_service_frame "v1" second_service_data "T" None db_with_service
           (run (update_service "v1" second_service_data "T") None db_with_service).1
           (run (update_service "v1" second_service_data "T") None db_with_service).2).
  - simpl. apply NoDup_singleton.
  - apply run_pair.
  - reflexivity.
  - by eexists.
Defined.

(** X22. The life of a service, with every round trip going through. A
    service created under an identifier the store does not hold yet is
    read back as created; an update gives it the new payload under the
    same identifier, creation time and owner, and is read back so; its
    deletion leaves the store exactly as it was before the creation, and
    the identifier unknown again. *)
Theorem service_lifecycle (uuid : string) (now : datetime)
    (service_data update_data : ServiceCreate.t) (user_id : string) (db : DB) :
  ¬ In uuid (map Service.id (services db)) →
  let created := Service_of uuid now service_data user_id in
  let updated := Service_of uuid now update_data user_id in
  let db1 := with_docs db_services (services db ++ [created]) db in
  let db2 := with_docs db_services (services db ++ [updated]) db in
  run (create_service uuid now service_data user_id) None db = (db1, Ok created)
  ∧ run (get_service uuid user_id) None db1 = (db1, Ok created)
  ∧ run (update_service uuid update_data user_id) None db1 = (db2, Ok updated)
  ∧ run (get_service uuid user_id) None db2 = (db2, Ok updated)
  ∧ run (delete_service uuid user_id) None db2 = (db, Ok "Service deleted successfully")
  ∧ run (get_service uuid user_id) None db
    = (db, Raise (HTTPException 404 "Service not found")).
Proof.
  intros Hfresh created updated db1 db2.
  pose proof (find_keyed_fresh Service.id Service.user_id uuid user_id _ Hfresh)
    as Hnone.
  pose proof (find_keyed_only_fresh Service.id uuid _ Hfresh) as Hnone'.
  change (keyed Service.id Service.user_id uuid user_id)
    with (service_by_id_and_user uuid user_id) in Hnone.
  change (keyed_only Service.id uuid) with (service_by_id uuid) in Hnone'.
  assert (Hc : service_by_id_and_user uuid user_id created = true)
    by (unfold service_by_id_and_user; simpl; by rewrite !bool_decide_eq_true_2).
  assert (Hu : service_by_id_and_user uuid user_id updated = true)
    by (unfold service_by_id_and_user; simpl; by rewrite !bool_decide_eq_true_2).
  assert (Hu' : service_by_id uuid updated = true)
    by (unfold service_by_id; simpl; by rewrite bool_decide_eq_true_2).
  split; [|split; [|split; [|split; [|split]]]].
  - reflexivity.
  - unfold get_service. subst db1. run_simpl. by rewrite find_snoc, Hnone, Hc.
  - unfold update_service. subst db1 db2. run_simpl.
    rewrite find_snoc, Hnone, Hc. cbv beta iota. store_simpl.
    rewrite find_snoc, Hnone, Hc.
    change (set_service_data update_data created) with (Ok updated).
    cbv beta iota. store_simpl.
    rewrite (replace_first_snoc Service.id Service.user_id uuid user_id _ created
               _ Hnone Hc).
    by rewrite find_snoc, Hnone', Hu'.
  - unfold get_service. subst db2. run_simpl. by rewrite find_snoc, Hnone, Hu.
  - unfold delete_service. subst db2. run_simpl.
    pose proof (delete_first_snoc Service.id Service.user_id uuid user_id _ updated
                  Hnone Hu) as Hdel.
    change (keyed Service.id Service.user_id uuid user_id)
      with (service_by_id_and_user uuid user_id) in Hdel.
    rewrite find_snoc, Hnone, Hu, Hdel.
    cbn. by destruct db.
  - unfold get_service. run_simpl. by rewrite Hnone.
Qed.

Lemma service_lifecycle_witness :
  run (delete_service "v1" "T") None
    (with_docs db_services
       (services empty_db ++ [Service_of "v1" 0 second_service_data "T"]) empty_db)
  = (empty_db, Ok "Service deleted successfully").
Proof.
  apply (service_lifecycle "v1" 0 first_service_data second_service_data "T" empty_db).
  simpl. tauto.
Defined.

(** ** Expenses *)

(** X23. An expense created under an identifier the store does not hold
    yet appears in the owner's listing exactly when the tenant had fewer
    than 1000 expenses before; its deletion leaves the store exactly as
    it was before the creation, and a second deletion answers 404. *)
Theorem create_expense_then_delete (uuid : string) (now : datetime)
    (expense_data : ExpenseCreate.t) (user_id : string) (db : DB) :
  ¬ In uuid (map Expense.id (expenses db)) →
  let expense := Expense_of uuid now expense_data user_id in
  let db1 := with_docs db_expenses (expenses db ++ [expense]) db in
  run (create_expense uuid now expense_data user_id) None db = (db1, Ok expense)
  ∧ (∃ listing,
       run (get_expenses user_id) None db1 = (db1, Ok listing)
       ∧ (In expense listing
          ↔ (length (List.filter (expenses_of user_id) (expenses db)) < 1000)%nat))
  ∧ run (delete_expense uuid user_id) None db1 = (db, Ok "Expense deleted successfully")
  ∧ run (delete_expense uuid user_id) None db
    = (db, Raise (HTTPException 404 "Expense not found")).
Proof.
  intros Hfresh expense db1.
  pose proof (find_keyed_fresh Expense.id Expense.user_id uuid user_id _ Hfresh)
    as Hnone.
  change (keyed Expense.id Expense.user_id uuid user_id)
    with (expense_by_id_and_user uuid user_id) in Hnone.
  assert (Hc : expense_by_id_and_user uuid user_id expense = true)
    by (unfold expense_by_id_and_user; simpl; by rewrite !bool_decide_eq_true_2).
  split; [reflexivity|]. split; [|split].
  - eexists. split; [unfold get_expenses; run_simpl; reflexivity|].
    subst db1. store_simpl.
    assert (expenses_of user_id expense = true) as Hmine
      by (by apply bool_decide_eq_true).
    rewrite filter_snoc, Hmine. apply take_snoc_In.
    intros Hin%filter_In. apply Hfresh.
    change uuid with (Expense.id expense). apply in_map. tauto.
  - unfold delete_expense. subst db1. run_simpl.
    pose proof (delete_first_snoc Expense.id Expense.user_id uuid user_id _ expense
                  Hnone Hc) as Hdel.
    change (keyed Expense.id Expense.user_id uuid user_id)
      with (expense_by_id_and_user uuid user_id) in Hdel.
    rewrite find_snoc, Hnone, Hc, Hdel.
    cbn. by destruct db.
  - unfold delete_expense. run_simpl. by rewrite Hnone.
Qed.

Definition first_expense_data : ExpenseCreate.t :=
  {| ExpenseCreate.date := "2025-01-15";
     ExpenseCreate.description := "Hosting";
     ExpenseCreate.amount := float_of_int 250;
     ExpenseCreate.category := "Infrastructure" |}.

Lemma create_expense_then_delete_witness :
  run (delete_expense "e1" "T") None
    (with_docs db_expenses
       (expenses empty_db ++ [Expense_of "e1" 0 first_expense_data "T"]) empty_db)
  = (empty_db, Ok "Expense deleted successfully").
Proof.
  apply (create_expense_then_delete "e1" 0 first_expense_data "T" empty_db).
  simpl. tauto.
Defined.

Lemma sum_map_snoc {A : Type} (f : A → float) (l : list A) (x : A) :
  sum (map f (l ++ [x])) = add (sum (map f l)) (f x).
Proof. unfold sum. by rewrite map_app, fold_left_app. Qed.

(** X24. The dashboard after a new expense. While the tenant has fewer
    than 1000 expenses, the total of the expenses is the total before
    plus the new amount, added last; from the 1000th on a new expense
    changes nothing on the dashboard. The other figures are the same in
    both cases. *)
Theorem dashboard_after_expense (uuid : string) (now : datetime)
    (expense_data : ExpenseCreate.t) (user_id : string) (db db1 : DB)
    (expense : Expense.t) (stats stats1 : DashboardStats) :
  run (create_expense uuid now expense_data user_id) None db = (db1, Ok expense) →
  run (get_dashboard_stats user_id) None db = (db, Ok stats) →
  run (get_dashboard_stats user_id) None db1 = (db1, Ok stats1) →
  total_expenses stats1
  = (if decide (length (List.filter (expenses_of user_id) (expenses db)) < 1000)%nat
     then add (total_expenses stats) (ExpenseCreate.amount expense_data)
     else total_expenses stats)
  ∧ total_revenue stats1 = total_revenue stats
  ∧ pending_amount stats1 = pending_amount stats
  ∧ overdue_amount stats1 = overdue_amount stats
  ∧ client_count stats1 = client_count stats
  ∧ invoice_count stats1 = invoice_count stats.
Proof.
  intros Hcreate Hstats Hstats1.
  injection Hcreate as <- <-.
  rewrite run_get_dashboard_stats in Hstats, Hstats1. cbn [reads] in Hstats, Hstats1.
  injection Hstats as <-. injection Hstats1 as <-. store_simpl.
  cbn [total_expenses total_revenue pending_amount overdue_amount client_count
       invoice_count stats_of].
  split; [|done].
  rewrite filter_snoc.
  assert (expenses_of user_id (Expense_of uuid now expense_data user_id) = true) as ->
    by (by apply bool_decide_eq_true).
  destruct (decide _) as [Hlt|Hge].
  - rewrite !take_ge by (rewrite ?length_app; simpl; lia).
    by rewrite sum_map_snoc.
  - by rewrite take_app_le by lia.
Qed.

Lemma dashboard_after_expense_witness :
  total_expenses
    (stats_of [] [Expense_of "e1" 0 first_expense_data "T"] 0)
  = add (Int 0) (float_of_int 250).
Proof.
  apply (dashboard_after_expense "e1" 0 first_expense_data "T" empty_db
           (with_docs db_expenses [Expense_of "e1" 0 first_expense_data "T"] empty_db)
           (Expense_of "e1" 0 first_expense_data "T")
           (stats_of [] [] 0)
           (stats_of [] [Expense_of "e1" 0 first_expense_data "T"] 0)).
  - reflexivity.
  - reflexivity.
  - reflexivity.
Defined.

(** ** What a 404 means *)

(** X25. A call that is answered with 404 has written nothing, whatever
    it asked for and whichever round trip failed. (Other failures can
    leave writes behind: a creation or a conversion that fails late.) *)
Theorem not_found_writes_nothing (validate : document → result document)
    (user_id : string) (r : request) (fault : option nat) (db db' : DB) (e : error) :
  run (handle validate user_id r) fault db = (db', Raise e) →
  is_NotFound e = true →
  db' = db.
Proof.
  intros Hrun.
  apply (wp_run _
           (λ db' res, match res with
                       | Ok _ => True
                       | Raise e => is_NotFound e = true → db' = db
                       end) db) in Hrun; [done|].
  clear. destruct r; unfold handle, create_invoice, get_invoices, get_invoice,
    update_invoice, delete_invoice, convert_quotation_to_invoice, get_settings,
    update_settings, get_dashboard_stats; wp_go.
  all: try exact I.
  all: intros; try reflexivity.
  all: exfalso.
  all: try (lazymatch goal with
            | H : (1 =? 0) = true |- _ => discriminate H
            end).
  all: lazymatch goal with
       | Hnf : is_NotFound ?e = true |- _ =>
           first
             [ discriminate Hnf
             | lazymatch goal with
               | H : inc _ _ _ = Raise e |- _ =>
                   rewrite (inc_not_NotFound _ _ _ _ H) in Hnf
               | H : invoice_number_of _ = Raise e |- _ =>
                   rewrite (invoice_number_of_not_NotFound _ _ H) in Hnf
               end; discriminate Hnf ]
       end.
Qed.

Lemma not_found_writes_nothing_witness :
  (run (handle Ok "B" (DeleteInvoice "i1")) None db_after_first).1 = db_after_first.
Proof.
  apply (not_found_writes_nothing Ok "B" (DeleteInvoice "i1") None db_after_first
           (run (handle Ok "B" (DeleteInvoice "i1")) None db_after_first).1
           (HTTPException 404 "Invoice not found")).
  - unfold handle, delete_invoice. run_simpl. rewrite db_after_first_invoices.
    reflexivity.
  - reflexivity.
Defined.
